(** * gemba_score: a shallow embedding of the translation-scoring service

    The development follows the layout of the Python package:
    - [PyStr], [PyText]   the fragment of Python's [str], [re] and [textwrap]
                     the package uses;
    - [Schemas]      [schemas.py];
    - [Prompts]      [prompts.py];
    - [LLM]          [services/llm.py], the client protocol;
    - [FakeLLMClient]  the test double of [tests/conftest.py];
    - [Scoring]      [services/scoring.py];
    - [Models], [Dependencies], [Api]   the persisted row, the header check,
                     the two HTTP handlers and the two routes as they are served;
    - [Fixtures]     requests, clients and rows used as concrete instances.
    The vocabulary of the statements comes next, then the lemmas and theorems.

    Conventions.  A Python [str] is a [string]; header values and response
    texts are sequences of 8-bit characters.  A Python [float] is a binary64
    value: it is held as the rational it denotes, or it is one of the two
    infinities, and [float()] rounds the decimal it reads to the nearest such
    value, to the even one of two that are equally near, and to an infinity
    beyond the range.  The sign of zero is not kept, and not-a-number, which
    no text the regular expression matches is read as, is not a value here.
    A Python exception is a constructor of [exn]; a call that may raise returns a
    [Result].  The orchestrator awaits a client it knows by its protocol only:
    it is a computation of type [Await], run against any instance of
    [LLMClientProtocol], and a run records the calls it made. *)

From Stdlib Require Import String Ascii List ZArith QArith Bool Lia Permutation Sorted.
From Equations Require Import Equations.
Import ListNotations.

Close Scope Q_scope.
Open Scope list_scope.
Open Scope string_scope.

(** ** Exceptions and results *)

Inductive exn : Type :=
| ScoringServiceError (msg : string)
| LLMClientError (msg : string)
| HTTPException (status_code : Z) (detail : string)
| ValueError (msg : string)
| KeyError (key : string)
| AttributeError (msg : string)
| RequestValidationError (msg : string)
| IndexError.

Inductive Result (A : Type) : Type :=
| Ok (a : A)
| Raise (e : exn).

Arguments Ok {A} a.
Arguments Raise {A} e.

(** ** Python floats *)

(** A finite value is held as the rational it denotes.  What a client hands
    over is any such [float]; what [float()] returns is a binary64 value. *)
Inductive float : Type :=
| Finite (q : Q)
| Infinite (negative : bool).

Module PyFloat.

(** The binary64 format: 53 significant bits, the least positive value
    [2 ^ emin], every finite value below [2 ^ emax]. *)
Definition precision : Z := 53.
Definition emin : Z := -1074.
Definition emax : Z := 1024.

(** The exponent of [n / d]: the [e] with [2 ^ e <= n / d < 2 ^ (e + 1)]. *)
Definition exponent (n d : positive) : Z :=
  let e := (Z.log2 (Zpos n) - Z.log2 (Zpos d))%Z in
  if (0 <=? e)%Z
  then (if (Zpos d * 2 ^ e <=? Zpos n)%Z then e else e - 1)%Z
  else (if (Zpos d <=? Zpos n * 2 ^ (- e))%Z then e else e - 1)%Z.

(** The integer nearest to [num / den], the even one of two that are
    equally near. *)
Definition nearest_even (num den : Z) : Z :=
  let q := (num / den)%Z in
  let r := (num mod den)%Z in
  match (2 * r ?= den)%Z with
  | Lt => q
  | Gt => (q + 1)%Z
  | Eq => if Z.even q then q else (q + 1)%Z
  end.

(** The binary64 value nearest to [n / d]: a multiple [m * 2 ^ u] of the
    unit in the last place, where [u] is 52 below the exponent and [emin]
    at least; a value that reaches [2 ^ emax] is the infinity. *)
Definition round_positive (n d : positive) : float :=
  let e := exponent n d in
  let u := Z.max (e - (precision - 1)) emin in
  if (0 <=? u)%Z then
    let m := nearest_even (Zpos n) (Zpos d * 2 ^ u) in
    if (2 ^ emax <=? m * 2 ^ u)%Z then Infinite false
    else Finite (Qmake (m * 2 ^ u) 1)
  else
    let m := nearest_even (Zpos n * 2 ^ (- u)) (Zpos d) in
    Finite (Qred (Qmake m (Z.to_pos (2 ^ (- u))))).

(** [-x] *)
Definition neg (x : float) : float :=
  match x with
  | Finite q => Finite (Qopp q)
  | Infinite negative => Infinite (negb negative)
  end.

(** The binary64 value nearest to a rational. *)
Definition round (q : Q) : float :=
  match Qnum q with
  | Z0 => Finite 0
  | Zpos n => round_positive n (Qden q)
  | Zneg n => neg (round_positive n (Qden q))
  end.

(** [x <= y] *)
Definition leb (x y : float) : bool :=
  match x, y with
  | Finite a, Finite b => Qle_bool a b
  | Infinite true, _ => true
  | _, Infinite false => true
  | _, _ => false
  end.

(** [math.isfinite(x)] *)
Definition isfinite (x : float) : bool :=
  match x with
  | Finite _ => true
  | Infinite _ => false
  end.

End PyFloat.

(** ** Python strings and the regular expression of [_extract_last_number] *)

Module PyStr.

Definition nl : string := String "010" "".
Definition dq : string := String "034" "".

(** [c.isspace()] for a code point below 256. *)
Definition is_space (c : ascii) : bool :=
  let n := nat_of_ascii c in
  (((9 <=? n) && (n <=? 13)) || ((28 <=? n) && (n <=? 32)) || (n =? 133) || (n =? 160))%nat.

(** [\d] on 8-bit characters. *)
Definition is_digit (c : ascii) : bool :=
  let n := nat_of_ascii c in ((48 <=? n) && (n <=? 57))%nat.

Fixpoint lstrip (s : string) : string :=
  match s with
  | String c s' => if is_space c then lstrip s' else s
  | EmptyString => EmptyString
  end.

Fixpoint rstrip (s : string) : string :=
  match s with
  | String c s' =>
      match rstrip s' with
      | EmptyString => if is_space c then EmptyString else String c EmptyString
      | r => String c r
      end
  | EmptyString => EmptyString
  end.

Definition strip (s : string) : string := rstrip (lstrip s).

(** The characters the validation library trims: the code points below 256
    that have the Unicode property White_Space. *)
Definition is_white_space (c : ascii) : bool :=
  let n := nat_of_ascii c in
  (((9 <=? n) && (n <=? 13)) || (n =? 32) || (n =? 133) || (n =? 160))%nat.

Fixpoint ltrim (s : string) : string :=
  match s with
  | String c s' => if is_white_space c then ltrim s' else s
  | EmptyString => EmptyString
  end.

Fixpoint rtrim (s : string) : string :=
  match s with
  | String c s' =>
      match rtrim s' with
      | EmptyString => if is_white_space c then EmptyString else String c EmptyString
      | r => String c r
      end
  | EmptyString => EmptyString
  end.

Definition trim (s : string) : string := rtrim (ltrim s).

(** [s.startswith(p)] *)
Fixpoint startswith (p s : string) : bool :=
  match p, s with
  | EmptyString, _ => true
  | String a p', String b s' => Ascii.eqb a b && startswith p' s'
  | String _ _, EmptyString => false
  end.

(** [needle in hay] *)
Fixpoint contains (needle hay : string) : bool :=
  startswith needle hay ||
  match hay with
  | String _ hay' => contains needle hay'
  | EmptyString => false
  end.

(** The longest run of digits at the head of [s], and what follows it. *)
Fixpoint take_digits (s : string) : string * string :=
  match s with
  | String c s' =>
      if is_digit c
      then let (d, r) := take_digits s' in (String c d, r)
      else (EmptyString, s)
  | EmptyString => (EmptyString, EmptyString)
  end.

(** [(?:\.\d+)?] at the head of [s]: greedy, and empty when the group fails. *)
Definition match_fraction (s : string) : string * string :=
  match s with
  | String c s' =>
      if Ascii.eqb c "." then
        match take_digits s' with
        | (EmptyString, _) => (EmptyString, s)
        | (d, r) => (String "." d, r)
        end
      else (EmptyString, s)
  | EmptyString => (EmptyString, s)
  end.

(** [\d+(?:\.\d+)?] at the head of [s]. *)
Definition match_unsigned (s : string) : option (string * string) :=
  match take_digits s with
  | (EmptyString, _) => None
  | (d, r) => let (f, r') := match_fraction r in Some (d ++ f, r')
  end.

(** [-?\d+(?:\.\d+)?] at the head of [s]: the sign is tried first, and the
    matcher backtracks to the empty sign when no digit follows it. *)
Definition match_number (s : string) : option (string * string) :=
  match s with
  | String c s' =>
      if Ascii.eqb c "-" then
        match match_unsigned s' with
        | Some (m, r) => Some (String "-" m, r)
        | None => match_unsigned s
        end
      else match_unsigned s
  | EmptyString => match_unsigned s
  end.

Lemma take_digits_app (s : string) :
  s = fst (take_digits s) ++ snd (take_digits s).
Proof.
  induction s as [|c s IH]; simpl; [reflexivity|].
  destruct (is_digit c); [|reflexivity].
  destruct (take_digits s) as [d r]; simpl in *. now f_equal.
Qed.

Lemma match_fraction_app (s : string) :
  s = fst (match_fraction s) ++ snd (match_fraction s).
Proof.
  unfold match_fraction. destruct s as [|c s]; [reflexivity|].
  destruct (Ascii.eqb_spec c "."%char) as [->|Hc]; [|reflexivity].
  pose proof (take_digits_app s) as H.
  destruct (take_digits s) as [[|d0 d] r]; simpl in *; [reflexivity|].
  now f_equal.
Qed.

Lemma append_assoc (a b c : string) : (a ++ b) ++ c = a ++ (b ++ c).
Proof. induction a as [|x a IH]; simpl; [reflexivity|now rewrite IH]. Qed.

Lemma append_nil_r (a : string) : a ++ "" = a.
Proof. induction a as [|x a IH]; simpl; [reflexivity|now rewrite IH]. Qed.

Lemma length_append (a b : string) :
  String.length (a ++ b) = String.length a + String.length b.
Proof. induction a as [|x a IH]; simpl; [reflexivity|now rewrite IH]. Qed.

Lemma match_unsigned_app (s m r : string) :
  match_unsigned s = Some (m, r) -> s = m ++ r /\ m <> "".
Proof.
  unfold match_unsigned. intros H.
  pose proof (take_digits_app s) as Hs.
  destruct (take_digits s) as [[|d0 d] r0]; [discriminate|].
  pose proof (match_fraction_app r0) as Hr.
  destruct (match_fraction r0) as [f r']. injection H as <- <-.
  simpl in *. split; [|discriminate].
  rewrite Hs, Hr. simpl. now rewrite append_assoc.
Qed.

Lemma match_number_app (s m r : string) :
  match_number s = Some (m, r) -> s = m ++ r /\ m <> "".
Proof.
  unfold match_number. intros H.
  destruct s as [|c s]; [now apply match_unsigned_app|].
  destruct (Ascii.eqb_spec c "-"%char) as [->|_]; [|now apply match_unsigned_app].
  destruct (match_unsigned s) as [[m' r']|] eqn:Hu.
  - injection H as <- <-. apply match_unsigned_app in Hu as [-> _].
    split; [reflexivity|discriminate].
  - now apply match_unsigned_app.
Qed.

Lemma match_number_shorter (s m r : string) :
  match_number s = Some (m, r) -> String.length r < String.length s.
Proof.
  intros H. apply match_number_app in H as [-> Hm].
  rewrite length_append. destruct m; [congruence|simpl; lia].
Qed.

Definition inspect {A : Type} (a : A) : {b : A | a = b} := exist _ a eq_refl.

(** [re.findall(r"-?\d+(?:\.\d+)?", s)]: scan from the left; a match is
    recorded and the scan resumes after it, otherwise one character is
    skipped. *)
Equations? findall (s : string) : list string by wf (String.length s) lt :=
  findall EmptyString := [];
  findall (String c s') with inspect (match_number (String c s')) := {
    | exist _ (Some (m, r)) H => m :: findall r;
    | exist _ None _ => findall s' }.
Proof.
  exact (match_number_shorter (String c s') m r H).
Qed.

End PyStr.

(** ** [textwrap.dedent] and [str.format] *)

Module PyText.
Import PyStr.

(** [s.split("\n")] *)
Fixpoint split_lines (s : string) : list string :=
  match s with
  | EmptyString => [EmptyString]
  | String c s' =>
      if Ascii.eqb c "010" then EmptyString :: split_lines s'
      else match split_lines s' with
           | l :: ls => String c l :: ls
           | [] => [String c EmptyString]
           end
  end.

Definition join_lines (ls : list string) : string := String.concat nl ls.

Definition is_blank (c : ascii) : bool := Ascii.eqb c " " || Ascii.eqb c "009".

Fixpoint all_blank (s : string) : bool :=
  match s with
  | EmptyString => true
  | String c s' => is_blank c && all_blank s'
  end.

Fixpoint leading_blanks (s : string) : string :=
  match s with
  | String c s' => if is_blank c then String c (leading_blanks s') else EmptyString
  | EmptyString => EmptyString
  end.

Fixpoint common_prefix (a b : string) : string :=
  match a, b with
  | String x a', String y b' =>
      if Ascii.eqb x y then String x (common_prefix a' b') else EmptyString
  | _, _ => EmptyString
  end.

Fixpoint remove_prefix (p s : string) : string :=
  match p, s with
  | String x p', String y s' => if Ascii.eqb x y then remove_prefix p' s' else s
  | _, _ => s
  end.

(** The margin of [dedent]: the longest run of blanks that starts every line
    holding something else than blanks. *)
Fixpoint margin_of (ls : list string) (margin : option string) : option string :=
  match ls with
  | [] => margin
  | l :: ls' =>
      if all_blank l then margin_of ls' margin
      else match margin with
           | None => margin_of ls' (Some (leading_blanks l))
           | Some m => margin_of ls' (Some (common_prefix m (leading_blanks l)))
           end
  end.

(** [textwrap.dedent(text)]: lines of blanks become empty, and the margin is
    taken off the head of every other line. *)
Definition dedent (text : string) : string :=
  let ls := map (fun l => if all_blank l then EmptyString else l) (split_lines text) in
  match margin_of ls None with
  | None => join_lines ls
  | Some m =>
      join_lines (map (fun l => if startswith m l then remove_prefix m l else l) ls)
  end.

(** A template is read once into literal runs and replacement fields. *)
Inductive segment : Type :=
| Literal (c : ascii)
| Field (name : string).

(** The scanner of [str.format]: [field] holds the name being read between
    braces; doubled braces stand for themselves, a lone closing brace and an
    unclosed field are errors.  Conversions and format specifications are
    not used by this package and are read as part of the name. *)
Fixpoint parse_template (s : string) (field : option string) : Result (list segment) :=
  match s with
  | EmptyString =>
      match field with
      | None => Ok []
      | Some _ => Raise (ValueError "expected '}' before end of string")
      end
  | String c s' =>
      match field with
      | Some name =>
          if Ascii.eqb c "}" then
            match parse_template s' None with
            | Ok segs => Ok (Field name :: segs)
            | Raise e => Raise e
            end
          else parse_template s' (Some (name ++ String c EmptyString))
      | None =>
          if Ascii.eqb c "{" then
            match s' with
            | String "{" s'' =>
                match parse_template s'' None with
                | Ok segs => Ok (Literal "{" :: segs)
                | Raise e => Raise e
                end
            | _ => parse_template s' (Some EmptyString)
            end
          else if Ascii.eqb c "}" then
            match s' with
            | String "}" s'' =>
                match parse_template s'' None with
                | Ok segs => Ok (Literal "}" :: segs)
                | Raise e => Raise e
                end
            | _ => Raise (ValueError "Single '}' encountered in format string")
            end
          else
            match parse_template s' None with
            | Ok segs => Ok (Literal c :: segs)
            | Raise e => Raise e
            end
      end
  end.

Definition kwargs : Type := list (string * string).

Fixpoint lookup (kw : kwargs) (name : string) : Result string :=
  match kw with
  | [] => Raise (KeyError name)
  | (k, v) :: kw' => if String.eqb k name then Ok v else lookup kw' name
  end.

Fixpoint render (kw : kwargs) (segs : list segment) : Result string :=
  match segs with
  | [] => Ok EmptyString
  | Literal c :: segs' =>
      match render kw segs' with
      | Ok rest => Ok (String c rest)
      | Raise e => Raise e
      end
  | Field name :: segs' =>
      match lookup kw name with
      | Ok v =>
          match render kw segs' with
          | Ok rest => Ok (v ++ rest)
          | Raise e => Raise e
          end
      | Raise e => Raise e
      end
  end.

(** [template.format(k1=v1, ...)] *)
Definition format (template : string) (kw : kwargs) : Result string :=
  match parse_template template None with
  | Ok segs => render kw segs
  | Raise e => Raise e
  end.

End PyText.

(** ** schemas.py *)

Module Schemas.
Import PyStr.

Inductive ScoringMethod : Type := GEMBA_DA | GEMBA_MQM | GEMBA_ESA | STRUCTURED_DA.

Definition value (m : ScoringMethod) : string :=
  match m with
  | GEMBA_DA => "GEMBA-DA"
  | GEMBA_MQM => "GEMBA-MQM"
  | GEMBA_ESA => "GEMBA-ESA"
  | STRUCTURED_DA => "STRUCTURED-DA"
  end.

(** [ScoringMethod(v)]: the member whose value is [v]. *)
Definition ScoringMethod_of (v : string) : Result ScoringMethod :=
  if String.eqb v "GEMBA-DA" then Ok GEMBA_DA
  else if String.eqb v "GEMBA-MQM" then Ok GEMBA_MQM
  else if String.eqb v "GEMBA-ESA" then Ok GEMBA_ESA
  else if String.eqb v "STRUCTURED-DA" then Ok STRUCTURED_DA
  else Raise (ValueError (v ++ " is not a valid ScoringMethod")).

(** What the [method] attribute of a payload holds.  Validation lets members
    of the enumeration through only; [Foreign v] is a plain [str] put there by
    a caller that built the payload without validation. *)
Inductive MethodValue : Type :=
| Member (m : ScoringMethod)
| Foreign (v : string).

(** [x == m] for a member [m]: the enumeration mixes in [str], so equality is
    equality of the values. *)
Definition method_eq (x : MethodValue) (m : ScoringMethod) : bool :=
  match x with
  | Member m' => String.eqb (value m') (value m)
  | Foreign v => String.eqb v (value m)
  end.

(** [str(x)] as interpolated in an f-string. *)
Definition method_str (x : MethodValue) : string :=
  match x with
  | Member m => value m
  | Foreign v => v
  end.

(** [x.value] *)
Definition method_value (x : MethodValue) : Result string :=
  match x with
  | Member m => Ok (value m)
  | Foreign _ => Raise (AttributeError "'str' object has no attribute 'value'")
  end.

Module ScoreRequest.
Record t : Type := Build {
    source_lang : string;
    target_lang : string;
    source_text : string;
    target_text : string;
    method : MethodValue
  }.
End ScoreRequest.

(** The request body before validation: the five JSON members as sent. *)
Module ScoreRequestBody.
Record t : Type := Build {
    source_lang : string;
    target_lang : string;
    source_text : string;
    target_text : string;
    method : string
  }.
End ScoreRequestBody.

(** [constr(strip_whitespace=True, min_length=1)] *)
Definition constr (v : string) : Result string :=
  match trim v with
  | EmptyString => Raise (RequestValidationError "String should have at least 1 character")
  | s => Ok s
  end.

(** Validation of the body into a [ScoreRequest]. *)
Definition validate (b : ScoreRequestBody.t) : Result ScoreRequest.t :=
  match constr (ScoreRequestBody.source_lang b),
        constr (ScoreRequestBody.target_lang b),
        constr (ScoreRequestBody.source_text b),
        constr (ScoreRequestBody.target_text b),
        ScoringMethod_of (ScoreRequestBody.method b) with
  | Ok slang, Ok tlang, Ok stext, Ok ttext, Ok m =>
      Ok (ScoreRequest.Build slang tlang stext ttext (Member m))
  | Raise e, _, _, _, _ => Raise e
  | _, Raise e, _, _, _ => Raise e
  | _, _, Raise e, _, _ => Raise e
  | _, _, _, Raise e, _ => Raise e
  | _, _, _, _, Raise _ => Raise (RequestValidationError "Input should be a valid ScoringMethod")
  end.

(** A well-formed request is one that validation produces. *)
Definition well_formed (p : ScoreRequest.t) : Prop :=
  exists b, validate b = Ok p.

Definition UUID : Type := N.
Definition datetime : Type := Z.

Module ScoreResponse.
Record t : Type := Build {
    score : float;
    method_used : MethodValue;
    request_id : UUID;
    adequacy : option float;
    fluency : option float;
    rationale : option string
  }.
End ScoreResponse.

Module TranslationScoreRecord.
Record t : Type := Build {
    id : UUID;
    app_id : string;
    source_lang : string;
    target_lang : string;
    scoring_method : ScoringMethod;
    llm_model : string;
    score : float;
    adequacy_score : option float;
    fluency_score : option float;
    rationale : option string;
    created_at : datetime;
    target_text : string
  }.
End TranslationScoreRecord.

End Schemas.

(** ** prompts.py *)

Module Prompts.
Import PyStr PyText Schemas.

Definition payload_kwargs (payload : ScoreRequest.t) : kwargs :=
  [ ("source_lang", ScoreRequest.source_lang payload);
    ("target_lang", ScoreRequest.target_lang payload);
    ("source_text", ScoreRequest.source_text payload);
    ("target_text", ScoreRequest.target_text payload) ].

Definition gemba_da_prompt_template : string :=
  strip (dedent (
  "
        Score the following translation from {source_lang} to {target_lang} on a continuous
        scale from 0 to 100, where a score of zero means " ++ dq ++ "no meaning preserved" ++ dq ++ " and score of one
        hundred means " ++ dq ++ "perfect meaning and grammar" ++ dq ++ ".

        {source_lang} source: " ++ dq ++ "{source_text}" ++ dq ++ "
        {target_lang} translation: " ++ dq ++ "{target_text}" ++ dq ++ "
        Score:
        ")).

Definition gemba_da_prompt (payload : ScoreRequest.t) : Result string :=
  format gemba_da_prompt_template (payload_kwargs payload).

Definition gemba_mqm_final_user_template : string :=
  strip (dedent (
  "
        {source_lang} source:
        ```{source_text}```
        {target_lang} translation:
        ```{target_text}```

        Based on the source segment and machine translation surrounded with triple backticks,
        identify error types in the translation and classify them. The categories of errors are:
        accuracy (addition, mistranslation, omission, untranslated text), fluency (character
        encoding, grammar, inconsistency, punctuation, register, spelling), style (awkward),
        terminology (inappropriate for context, inconsistent use), non-translation, other, or
        no-error. Each error is classified as one of three categories: critical, major, and minor.
        Critical errors inhibit comprehension of the text. Major errors disrupt the flow, but what
        the text is trying to say is still understandable. Minor errors are technically errors, but
        do not disrupt the flow or hinder comprehension.
        ")).

Definition gemba_mqm_final_user (payload : ScoreRequest.t) : Result string :=
  format gemba_mqm_final_user_template (payload_kwargs payload).

Definition gemba_esa_error_prompt_template : string :=
  strip (dedent (
  "
        {source_lang} source:
        ```{source_text}```
        {target_lang} translation:
        ```{target_text}```

        Based on the source segment and machine translation surrounded with triple backticks,
        identify error types in the translation and classify them. The categories of errors are:
        accuracy (addition, mistranslation, omission, untranslated text), fluency (character
        encoding, grammar, inconsistency, punctuation, register, spelling), style (awkward),
        terminology (inappropriate for context, inconsistent use), non-translation, other, or
        no-error. Each error is classified as one of two categories: major or minor. Major errors
        disrupt the flow and make the understandability of text difficult or impossible. Minor
        errors are errors that do not disrupt the flow significantly and what the text is trying to
        say is still understandable.
        ")).

Definition gemba_esa_error_prompt (payload : ScoreRequest.t) : Result string :=
  format gemba_esa_error_prompt_template (payload_kwargs payload).

Definition structured_da_user_message_template : string :=
  strip (dedent (
  "
        Evaluate the quality of the following machine translation from {source_lang} to
        {target_lang}.
        Return ONLY a JSON object with these fields:
        score: holistic quality 0-100 (float)
        adequacy: semantic accuracy and completeness 0-5 (float, where 5 = perfect meaning
        preservation)
        fluency: grammatical correctness and naturalness 0-5 (float, where 5 = perfect native
        fluency)
        rationale: brief explanation of the score (1-2 sentences)

        {source_lang} source: {source_text}
        {target_lang} hypothesis: {target_text}

        IMPORTANT: Output valid JSON only, no markdown fences or extra text.
        ")).

Definition structured_da_user_message (payload : ScoreRequest.t) : Result string :=
  format structured_da_user_message_template (payload_kwargs payload).

Definition gemba_esa_scoring_prompt_template : string :=
  strip (dedent (
  "
        Given the translation from {source_lang} to {target_lang} and the annotated error spans,
        assign a score on a continuous scale from 0 to 100. The scale has following reference
        points:
        0=" ++ dq ++ "No meaning preserved" ++ dq ++ ", 33=" ++ dq ++ "Some meaning preserved" ++ dq ++ ", 66=" ++ dq ++ "Most meaning preserved and few
        grammar mistakes" ++ dq ++ ", up to 100=" ++ dq ++ "Perfect meaning and grammar" ++ dq ++ ".

        Score the following translation from {source_lang} source:
        ```{source_text}```
        {target_lang} translation:
        ```{target_text}```
        Annotated error spans:
        ```{errors}```
        Score (0-100):
        ")).

Definition gemba_esa_scoring_prompt (payload : ScoreRequest.t) (errors : string) : Result string :=
  format gemba_esa_scoring_prompt_template (payload_kwargs payload ++ [("errors", errors)])%list.

Definition gemba_mqm_system_prompt : string :=
  strip (dedent (
  "
        You are an expert MQM evaluator. Identify translation errors and output a holistic quality
        score on a 0-100 scale (0 = unusable, 100 = perfect). Return ONLY JSON: {" ++ dq ++ "score" ++ dq ++ ": number,
        " ++ dq ++ "analysis" ++ dq ++ ": string describing notable errors}.
        ")).

Definition gemba_mqm_few_shot_user : string :=
  strip (dedent (
  "
        English source:
        ```Hello world.```
        German translation:
        ```Hallo Welt.```

        Based on the source segment and machine translation surrounded with triple backticks,
        identify error types in the translation and classify them.
        ")).

Definition structured_da_system_message : string :=
  "You are an expert bilingual evaluator of machine translation quality. Be strict but fair.".

End Prompts.

(** ** services/llm.py: the client protocol *)

(** The two structured-output models of [services/scoring.py]; they are
    declared here because the protocol's [parse] is typed by them. *)
Module MQMEval.
Record t : Type := Build {
    score : float;
    analysis : string
  }.
End MQMEval.

Module StructuredDAReturn.
Record t : Type := Build {
    score : float;
    adequacy : float;
    fluency : float;
    rationale : string
  }.
End StructuredDAReturn.

Module LLM.

Record ChatMessage : Type := { role : string; content : string }.

(** The classes that may be passed as [response_model]. *)
Inductive ResponseModel : Type := MQMEval_model | StructuredDAReturn_model.

Definition model_type (M : ResponseModel) : Type :=
  match M with
  | MQMEval_model => MQMEval.t
  | StructuredDAReturn_model => StructuredDAReturn.t
  end.

Definition model_name (M : ResponseModel) : string :=
  match M with
  | MQMEval_model => "MQMEval"
  | StructuredDAReturn_model => "StructuredDAReturn"
  end.

(** What [parse] hands back: an object read as
    [response.choices[0].message.parsed]. *)
Record Message (T : Type) : Type := { parsed : option T }.
Record Choice (T : Type) : Type := { message : Message T }.
Record Completion (T : Type) : Type := { choices : list (Choice T) }.

Arguments parsed {T} _.
Arguments message {T} _.
Arguments choices {T} _.

(** [LLMClientProtocol]: a client with some private state [S].  Both
    operations may raise; the temperature is left at its default by every
    caller and is not a parameter here. *)
Class LLMClientProtocol (S : Type) : Type := {
  complete : S -> list ChatMessage -> Result string * S;
  parse : forall M : ResponseModel,
      S -> list ChatMessage -> Result (Completion (model_type M)) * S
}.

(** A computation that awaits the client: the orchestrator is written against
    these two requests only. *)
Inductive Await (A : Type) : Type :=
| Ret (a : A)
| Throw (e : exn)
| Complete (messages : list ChatMessage) (k : string -> Await A)
| Parse (M : ResponseModel) (messages : list ChatMessage)
        (k : Completion (model_type M) -> Await A).

Arguments Ret {A} a.
Arguments Throw {A} e.
Arguments Complete {A} messages k.
Arguments Parse {A} M messages k.

Fixpoint bind {A B : Type} (m : Await A) (f : A -> Await B) : Await B :=
  match m with
  | Ret a => f a
  | Throw e => Throw e
  | Complete messages k => Complete messages (fun r => bind (k r) f)
  | Parse M messages k => Parse M messages (fun r => bind (k r) f)
  end.

Definition lift {A : Type} (r : Result A) : Await A :=
  match r with
  | Ok a => Ret a
  | Raise e => Throw e
  end.

Definition await_complete (messages : list ChatMessage) : Await string :=
  Complete messages Ret.

Definition await_parse (M : ResponseModel) (messages : list ChatMessage)
  : Await (Completion (model_type M)) :=
  Parse M messages Ret.

(** The requests a computation made, oldest first. *)
Inductive Call : Type :=
| CompleteCall (messages : list ChatMessage)
| ParseCall (M : ResponseModel) (messages : list ChatMessage).

(** Running a computation against a client. *)
Fixpoint run {S : Type} {client : LLMClientProtocol S} {A : Type}
    (m : Await A) (s : S) : Result A * S * list Call :=
  match m with
  | Ret a => (Ok a, s, [])
  | Throw e => (Raise e, s, [])
  | Complete messages k =>
      match complete s messages with
      | (Ok r, s') =>
          let '(res, s'', calls) := run (k r) s' in
          (res, s'', CompleteCall messages :: calls)
      | (Raise e, s') => (Raise e, s', [CompleteCall messages])
      end
  | Parse M messages k =>
      match parse M s messages with
      | (Ok r, s') =>
          let '(res, s'', calls) := run (k r) s' in
          (res, s'', ParseCall M messages :: calls)
      | (Raise e, s') => (Raise e, s', [ParseCall M messages])
      end
  end.

End LLM.

Declare Scope await_scope.
Delimit Scope await_scope with await.
Notation "x <- m ;; k" := (LLM.bind m (fun x => k))
  (at level 61, m at next level, right associativity) : await_scope.

(** ** tests/conftest.py: the test double *)

Module FakeLLMClient.
Import PyStr LLM.

(** [self.calls] *)
Definition t : Type := list string.

Definition init : t := [].

Definition complete (self : t) (messages : list ChatMessage) : Result string * t :=
  match rev messages with
  | [] => (Raise IndexError, self)
  | m :: _ =>
      let last := content m in
      let self' := (self ++ [last])%list in
      if contains "IMPORTANT: Output valid JSON only" last then
        (Ok ("{" ++ dq ++ "score" ++ dq ++ ": 93.0, " ++ dq ++ "adequacy" ++ dq
             ++ ": 4.5, " ++ dq ++ "fluency" ++ dq ++ ": 4.0, " ++ dq ++ "rationale"
             ++ dq ++ ": " ++ dq ++ "Strong translation" ++ dq ++ "}"), self')
      else if contains "Annotated error spans" last then
        (Ok "Score (0-100): 87.0", self')
      else if contains "Each error is classified as one of two categories" last then
        (Ok "no-error", self')
      else if contains "Each error is classified as one of three categories" last then
        (Ok ("{" ++ dq ++ "score" ++ dq ++ ": -5, " ++ dq ++ "analysis" ++ dq ++ ": "
             ++ dq ++ "Major fluency issue" ++ dq ++ "}"), self')
      else if contains "Score the following translation" last then
        (Ok "98.5", self')
      else (Ok "42", self')
  end.

Definition wrap {T : Type} (p : T) : Completion T :=
  {| choices := [ {| message := {| parsed := Some p |} |} ] |}.

Definition parse (M : ResponseModel) (self : t) (messages : list ChatMessage)
  : Result (Completion (model_type M)) * t :=
  match M with
  | MQMEval_model =>
      (Ok (wrap (MQMEval.Build (Finite 95) "Stub MQM response")), self)
  | StructuredDAReturn_model =>
      (Ok (wrap (StructuredDAReturn.Build (Finite 93) (Finite 4.5) (Finite 4)
                   "Stub structured response")), self)
  end.

#[export] Instance client : LLMClientProtocol t :=
  {| LLM.complete := complete; LLM.parse := parse |}.

End FakeLLMClient.

(** ** services/scoring.py *)

Module Scoring.
Import PyStr PyText Schemas Prompts LLM.
Local Open Scope await_scope.

Module ScoreComputation.
Record t : Type := Build {
    method : MethodValue;
    score : float;
    llm_model : string;
    raw_response : string;
    adequacy : option float;
    fluency : option float;
    rationale : option string
  }.
End ScoreComputation.

(** [model_dump_json()] of the two structured models.  Printing a float as
    JSON text is outside the model, so the serialiser is an interface. *)
Class Serializer : Type :=
  model_dump_json : forall M : ResponseModel, model_type M -> string.

(** Digits of a string read in base ten, most significant first. *)
Fixpoint decimal_value (s : string) (acc : N) : option N :=
  match s with
  | EmptyString => Some acc
  | String c s' =>
      if is_digit c
      then decimal_value s' (10 * acc + (N_of_ascii c - 48))%N
      else None
  end.

(** Cut at the first dot: the part before it, and the part after it when
    there is a dot. *)
Fixpoint split_dot (s : string) : string * option string :=
  match s with
  | EmptyString => (EmptyString, None)
  | String c s' =>
      if Ascii.eqb c "." then (EmptyString, Some s')
      else let (a, b) := split_dot s' in (String c a, b)
  end.

(** [float(s)] on signed positional decimals, the only texts it is given
    here; anything else is a [ValueError].  The decimal is read exactly and
    then rounded to the nearest binary64 value. *)
Definition python_float (s : string) : Result float :=
  let (negative, body) :=
    match s with
    | String c b =>
        if Ascii.eqb c "-" then (true, b)
        else if Ascii.eqb c "+" then (false, b)
        else (false, s)
    | EmptyString => (false, s)
    end in
  let (int_part, frac_part) :=
    match split_dot body with
    | (a, Some b) => (a, b)
    | (a, None) => (a, EmptyString)
    end in
  match int_part ++ frac_part with
  | EmptyString => Raise (ValueError "could not convert string to float")
  | digits =>
      match decimal_value digits 0 with
      | Some n =>
          let num := Z.of_N n in
          Ok (PyFloat.round
                (Qmake (if negative then Z.opp num else num)
                       (Z.to_pos (10 ^ Z.of_nat (String.length frac_part)))))
      | None => Raise (ValueError "could not convert string to float")
      end
  end.

Definition last_of {A : Type} (l : list A) : option A :=
  match rev l with
  | [] => None
  | x :: _ => Some x
  end.

Definition _extract_last_number (text : string) : Result float :=
  match last_of (findall text) with
  | None => Raise (ScoringServiceError "Could not parse numeric score from LLM response")
  | Some m => python_float m
  end.

Definition _expect_parsed {T : Type} (response : Completion T) : Result T :=
  match choices response with
  | [] => Raise IndexError
  | c :: _ =>
      match parsed (message c) with
      | None => Raise (ScoringServiceError "LLM response missing structured payload")
      | Some p => Ok p
      end
  end.

Module ScoringService.

  (** The service object: [_llm] is the client the computation is run
      against, [_llm_model_name] the name it records. *)
Record t : Type := Build { _llm_model_name : string }.

Section Methods.
Context {serializer : Serializer}.
Variable self : t.

Definition user (text : string) : ChatMessage := {| role := "user"; content := text |}.
Definition system (text : string) : ChatMessage := {| role := "system"; content := text |}.
Definition assistant (text : string) : ChatMessage :=
    {| role := "assistant"; content := text |}.

Definition _score_gemba_da (payload : ScoreRequest.t) : Await ScoreComputation.t :=
    prompt <- lift (gemba_da_prompt payload) ;;
    response <- await_complete [user prompt] ;;
    score <- lift (_extract_last_number response) ;;
    Ret (ScoreComputation.Build (ScoreRequest.method payload) score
           (_llm_model_name self) response None None None).

Definition few_shot_assistant : string :=
    "{" ++ dq ++ "score" ++ dq ++ ": 100, " ++ dq ++ "analysis" ++ dq ++ ": " ++ dq
    ++ "No errors detected; translation is perfect." ++ dq ++ "}".

Definition _score_gemba_mqm (payload : ScoreRequest.t) : Await ScoreComputation.t :=
    final <- lift (gemba_mqm_final_user payload) ;;
    raw <- await_parse MQMEval_model
             [ system gemba_mqm_system_prompt;
               user gemba_mqm_few_shot_user;
               assistant few_shot_assistant;
               user final ] ;;
    parsed <- lift (_expect_parsed raw) ;;
    Ret (ScoreComputation.Build (ScoreRequest.method payload) (MQMEval.score parsed)
           (_llm_model_name self) (model_dump_json MQMEval_model parsed)
           None None (Some (MQMEval.analysis parsed))).

Definition _score_gemba_esa (payload : ScoreRequest.t) : Await ScoreComputation.t :=
    error_prompt <- lift (gemba_esa_error_prompt payload) ;;
    error_analysis <- await_complete [user error_prompt] ;;
    score_prompt <- lift (gemba_esa_scoring_prompt payload error_analysis) ;;
    score_response <- await_complete [user score_prompt] ;;
    score <- lift (_extract_last_number score_response) ;;
    let combined_raw :=
      "Errors:" ++ nl ++ error_analysis ++ nl ++ "---" ++ nl ++ "Score:" ++ nl
      ++ score_response in
    Ret (ScoreComputation.Build (ScoreRequest.method payload) score
           (_llm_model_name self) combined_raw None None None).

Definition _score_structured_da (payload : ScoreRequest.t) : Await ScoreComputation.t :=
    message <- lift (structured_da_user_message payload) ;;
    raw <- await_parse StructuredDAReturn_model
             [ system structured_da_system_message; user message ] ;;
    parsed <- lift (_expect_parsed raw) ;;
    Ret (ScoreComputation.Build (ScoreRequest.method payload)
           (StructuredDAReturn.score parsed)
           (_llm_model_name self) (model_dump_json StructuredDAReturn_model parsed)
           (Some (StructuredDAReturn.adequacy parsed))
           (Some (StructuredDAReturn.fluency parsed))
           (Some (StructuredDAReturn.rationale parsed))).

Definition score (payload : ScoreRequest.t) : Await ScoreComputation.t :=
    let method := ScoreRequest.method payload in
    if method_eq method GEMBA_DA then _score_gemba_da payload
    else if method_eq method GEMBA_MQM then _score_gemba_mqm payload
    else if method_eq method GEMBA_ESA then _score_gemba_esa payload
    else if method_eq method STRUCTURED_DA then _score_structured_da payload
    else Throw (ScoringServiceError ("Unsupported scoring method: " ++ method_str method)).

End Methods.
End ScoringService.

End Scoring.

(** ** models.py *)

Module Models.
Import Schemas.

Module TranslationScore.
Record t : Type := Build {
    id : UUID;
    app_id : string;
    source_lang : string;
    target_lang : string;
    source_text : string;
    target_text : string;
    scoring_method : string;
    llm_model : string;
    score : float;
    adequacy_score : option float;
    fluency_score : option float;
    rationale : option string;
    raw_llm_response : option string;
    created_at : datetime
  }.
End TranslationScore.

(** The table [TranslationScores], rows in the order they were written. *)
Definition Table : Type := list TranslationScore.t.

End Models.

(** ** dependencies.py *)

Module Dependencies.
Import PyStr.

Definition require_app_id (x_app_id : option string) : Result string :=
  match x_app_id with
  | None => Raise (HTTPException 401 "Missing X-APP-ID header")
  | Some h =>
      if String.eqb h "" || String.eqb (strip h) ""
      then Raise (HTTPException 401 "Missing X-APP-ID header")
      else Ok (strip h)
  end.

End Dependencies.

(** ** api.py *)

Module Api.
Import PyStr Schemas LLM Scoring Models Dependencies.

(** [session.add(record); commit(); refresh(record)]: the row is written with
    the identifier and the timestamp its column defaults produce. *)
Definition add_and_commit (db : Table) (record : TranslationScore.t) : Table :=
  (db ++ [record])%list.

(** The handler of [POST /score], run against a client in state [s] and a
    table [db]; [new_id] and [now] are what [uuid4()] and the server clock
    give for the row it writes. *)
Definition score_translation {S : Type} {client : LLMClientProtocol S}
    {serializer : Serializer}
    (payload : ScoreRequest.t) (app_id : string)
    (scoring_service : ScoringService.t)
    (new_id : UUID) (now : datetime) (s : S) (db : Table)
  : Result ScoreResponse.t * S * Table * list Call :=
  match run (ScoringService.score scoring_service payload) s with
  | (Raise (ScoringServiceError msg), s', calls) =>
      (Raise (HTTPException 500 msg), s', db, calls)
  | (Raise e, s', calls) => (Raise e, s', db, calls)
  | (Ok result, s', calls) =>
      match method_value (ScoreRequest.method payload) with
      | Raise e => (Raise e, s', db, calls)
      | Ok method_text =>
          let record :=
            TranslationScore.Build new_id app_id
              (ScoreRequest.source_lang payload)
              (ScoreRequest.target_lang payload)
              (ScoreRequest.source_text payload)
              (ScoreRequest.target_text payload)
              method_text
              (ScoreComputation.llm_model result)
              (ScoreComputation.score result)
              (ScoreComputation.adequacy result)
              (ScoreComputation.fluency result)
              (ScoreComputation.rationale result)
              (Some (ScoreComputation.raw_response result))
              now in
          (Ok (ScoreResponse.Build
                 (ScoreComputation.score result)
                 (ScoreRequest.method payload)
                 (TranslationScore.id record)
                 (ScoreComputation.adequacy result)
                 (ScoreComputation.fluency result)
                 (ScoreComputation.rationale result)),
           s', add_and_commit db record, calls)
      end
  end.

(** The handler as the framework calls it: the header dependency is
    resolved first, then the body is validated, then the handler runs.  The
    result is what the handler returned or what was raised on the way; what
    the framework makes of a returned value is [serve_post_score] below. *)
Definition post_score {S : Type} {client : LLMClientProtocol S}
    {serializer : Serializer}
    (x_app_id : option string) (body : ScoreRequestBody.t)
    (scoring_service : ScoringService.t)
    (new_id : UUID) (now : datetime) (s : S) (db : Table)
  : Result ScoreResponse.t * S * Table * list Call :=
  match require_app_id x_app_id with
  | Raise e => (Raise e, s, db, [])
  | Ok app_id =>
      match validate body with
      | Raise e => (Raise e, s, db, [])
      | Ok payload => score_translation payload app_id scoring_service new_id now s db
      end
  end.

(** The status line the framework answers with: a returned value is 200, an
    [HTTPException] carries its own code, a validation error is 422, and
    any other exception leaving a handler is 500. *)
Definition status_code {A : Type} (r : Result A) : Z :=
  match r with
  | Ok _ => 200
  | Raise (HTTPException code _) => code
  | Raise (RequestValidationError _) => 422
  | Raise _ => 500
  end.

(** The [where] clauses of [list_scores]. *)
Definition row_selected (threshold : option float) (app_id : option string)
    (row : TranslationScore.t) : bool :=
  (match threshold with
   | Some th => PyFloat.leb (TranslationScore.score row) th
   | None => true
   end)
  &&
  (match app_id with
   | Some a => if String.eqb a "" then true else String.eqb (TranslationScore.app_id row) a
   | None => true
   end).

(** [order_by(created_at.desc())]: rows written at the same instant keep the
    order of the table. *)
Fixpoint insert_desc (r : TranslationScore.t) (l : list TranslationScore.t)
  : list TranslationScore.t :=
  match l with
  | [] => [r]
  | x :: l' =>
      if (TranslationScore.created_at x <=? TranslationScore.created_at r)%Z
      then r :: l
      else x :: insert_desc r l'
  end.

Definition order_by_created_at_desc (l : list TranslationScore.t)
  : list TranslationScore.t :=
  fold_right insert_desc [] l.

(** [select(...).where(...).order_by(...).limit(limit)] run on the table. *)
Definition execute (limit : Z) (threshold : option float) (app_id : option string)
    (db : Table) : list TranslationScore.t :=
  firstn (Z.to_nat limit)
    (order_by_created_at_desc (filter (row_selected threshold app_id) db)).

Definition to_record (row : TranslationScore.t) : Result TranslationScoreRecord.t :=
  match ScoringMethod_of (TranslationScore.scoring_method row) with
  | Raise e => Raise e
  | Ok m =>
      Ok (TranslationScoreRecord.Build
            (TranslationScore.id row)
            (TranslationScore.app_id row)
            (TranslationScore.source_lang row)
            (TranslationScore.target_lang row)
            m
            (TranslationScore.llm_model row)
            (TranslationScore.score row)
            (TranslationScore.adequacy_score row)
            (TranslationScore.fluency_score row)
            (TranslationScore.rationale row)
            (TranslationScore.created_at row)
            (TranslationScore.target_text row))
  end.

Fixpoint to_records (rows : list TranslationScore.t)
  : Result (list TranslationScoreRecord.t) :=
  match rows with
  | [] => Ok []
  | row :: rows' =>
      match to_record row with
      | Raise e => Raise e
      | Ok r =>
          match to_records rows' with
          | Raise e => Raise e
          | Ok rs => Ok (r :: rs)
          end
      end
  end.

(** The handler of [GET /scores]. *)
Definition list_scores (limit : Z) (threshold : option float) (app_id : option string)
    (db : Table) : Result (list TranslationScoreRecord.t) :=
  to_records (execute limit threshold app_id db).

(** The declared bounds of the three query parameters. *)
Definition query_limit (limit : option Z) : Result Z :=
  match limit with
  | None => Ok 25%Z
  | Some n =>
      if ((1 <=? n) && (n <=? 200))%Z then Ok n
      else Raise (RequestValidationError "limit")
  end.

Definition query_threshold (threshold : option float) : Result (option float) :=
  match threshold with
  | None => Ok None
  | Some th =>
      if PyFloat.leb (Finite 0) th && PyFloat.leb th (Finite 100) then Ok (Some th)
      else Raise (RequestValidationError "threshold")
  end.

Definition query_app_id (app_id : option string) : Result (option string) :=
  match app_id with
  | None => Ok None
  | Some a =>
      if (1 <=? String.length a)%nat then Ok (Some a)
      else Raise (RequestValidationError "app_id")
  end.

(** The handler of [GET /scores] as the framework calls it, with the query
    parameters it was sent: the result is what the handler returned or what
    was raised on the way; what the framework makes of a returned value is
    [serve_get_scores] below. *)
Definition get_scores (limit : option Z) (threshold : option float)
    (app_id : option string) (db : Table)
  : Result (list TranslationScoreRecord.t) :=
  match query_limit limit, query_threshold threshold, query_app_id app_id with
  | Ok n, Ok th, Ok a => list_scores n th a db
  | Raise e, _, _ => Raise e
  | _, Raise e, _ => Raise e
  | _, _, Raise e => Raise e
  end.

(** *** The response

    The framework writes the value a handler returned as JSON, and the
    writer refuses a float that is not finite: the exception leaves the
    route after the handler has returned, and so after it has committed. *)

Definition optional_isfinite (x : option float) : bool :=
  match x with
  | Some v => PyFloat.isfinite v
  | None => true
  end.

(** The floats of a [ScoreResponse] and of a [TranslationScoreRecord]. *)
Definition response_compliant (r : ScoreResponse.t) : bool :=
  PyFloat.isfinite (ScoreResponse.score r)
  && optional_isfinite (ScoreResponse.adequacy r)
  && optional_isfinite (ScoreResponse.fluency r).

Definition record_compliant (r : TranslationScoreRecord.t) : bool :=
  PyFloat.isfinite (TranslationScoreRecord.score r)
  && optional_isfinite (TranslationScoreRecord.adequacy_score r)
  && optional_isfinite (TranslationScoreRecord.fluency_score r).

Definition serialize_response {A : Type} (compliant : A -> bool) (r : Result A)
  : Result A :=
  match r with
  | Ok a =>
      if compliant a then Ok a
      else Raise (ValueError "Out of range float values are not JSON compliant")
  | Raise e => Raise e
  end.

(** The two routes as they are served. *)
Definition serve_post_score {S : Type} {client : LLMClientProtocol S}
    {serializer : Serializer}
    (x_app_id : option string) (body : ScoreRequestBody.t)
    (scoring_service : ScoringService.t)
    (new_id : UUID) (now : datetime) (s : S) (db : Table)
  : Result ScoreResponse.t * S * Table * list Call :=
  let '(res, s', db', calls) :=
    post_score x_app_id body scoring_service new_id now s db in
  (serialize_response response_compliant res, s', db', calls).

Definition serve_get_scores (limit : option Z) (threshold : option float)
    (app_id : option string) (db : Table)
  : Result (list TranslationScoreRecord.t) :=
  serialize_response (forallb record_compliant) (get_scores limit threshold app_id db).

End Api.

(** ** config.py *)

Module Config.

Module Settings.
Record t : Type := Build {
  app_name : string;
  app_env : string;
  api_v1_prefix : string;
  log_level : string;
  database_url : string;
  azure_openai_endpoint : string;
  azure_openai_api_key : string;
  azure_openai_api_version : string;
  azure_openai_deployment : string;
  default_llm_model : string
}.
End Settings.

End Config.

(** ** The vendor SDK, as far as [services/llm.py] looks at it *)

Module OpenAI.
Import LLM.

(** How a call to the SDK ends: it returns, it raises [APIError], or it
    raises something else. *)
Inductive outcome (A : Type) : Type :=
| Returned (a : A)
| RaisedAPIError (msg : string)
| RaisedOther (e : exn).

Arguments Returned {A} a.
Arguments RaisedAPIError {A} msg.
Arguments RaisedOther {A} e.

Record ChatCompletionMessage : Type := { content : option string }.
Record Choice : Type := { message : ChatCompletionMessage }.
Record ChatCompletion : Type := { choices : list Choice }.

(** [chat.completions.create] and [chat.completions.parse] of a remote
    service in state [R]; both take the model, the messages and the
    temperature. *)
Class Service (R : Type) : Type := {
  create : R -> string -> list ChatMessage -> float -> outcome ChatCompletion * R;
  parse : forall M : ResponseModel,
      R -> string -> list ChatMessage -> float -> outcome (Completion (model_type M)) * R
}.

End OpenAI.

(** ** services/llm.py: the wrapper and its cache *)

Module AzureOpenAIClient.
Import PyStr LLM Config.

Record t : Type := Build {
  settings : Settings.t;
  _deployment : string
}.

(** [AzureOpenAIClient(settings=settings)], with [__post_init__]. *)
Definition new (settings : Settings.t) : t :=
  Build settings (Settings.azure_openai_deployment settings).

Definition complete {R : Type} {service : OpenAI.Service R}
    (self : t) (r : R) (messages : list ChatMessage) : Result string * R :=
  match OpenAI.create r (_deployment self) messages (Finite 0) with
  | (OpenAI.RaisedAPIError msg, r') => (Raise (LLMClientError msg), r')
  | (OpenAI.RaisedOther e, r') => (Raise e, r')
  | (OpenAI.Returned response, r') =>
      match OpenAI.choices response with
      | [] => (Raise IndexError, r')
      | choice :: _ =>
          let content :=
            match OpenAI.content (OpenAI.message choice) with
            | Some c => c
            | None => EmptyString
            end in
          (Ok (strip content), r')
      end
  end.

Definition parse {R : Type} {service : OpenAI.Service R}
    (self : t) (M : ResponseModel) (r : R) (messages : list ChatMessage)
  : Result (Completion (model_type M)) * R :=
  match OpenAI.parse M r (_deployment self) messages (Finite 0) with
  | (OpenAI.RaisedAPIError msg, r') => (Raise (LLMClientError msg), r')
  | (OpenAI.RaisedOther e, r') => (Raise e, r')
  | (OpenAI.Returned response, r') => (Ok response, r')
  end.

(** The wrapper is a client of the protocol; its state is the remote
    service's. *)
Definition protocol {R : Type} {service : OpenAI.Service R} (self : t)
  : LLMClientProtocol R :=
  {| LLM.complete := complete self; LLM.parse := parse self |}.

End AzureOpenAIClient.

(** ** db.py *)

Module Db.

(** A [Database]: the engine and the session factory made from a URL. *)
Module Database.
Record t : Type := Build { url : string }.
End Database.

End Db.

(** ** The module-level state: [get_settings], [get_llm_client],
    [get_database], [reset_database] *)

Module Process.
Import Config Db.

(** The cache of [get_settings] and the globals [_cached_client] and
    [_database]. *)
Record t : Type := Build {
  settings_cache : option Settings.t;
  _cached_client : option AzureOpenAIClient.t;
  _database : option Database.t
}.

Definition start : t := Build None None None.

Section Environment.

(** [Settings()]: what reading the environment gives, a settings object or a
    validation error. *)
Variable load : Result Settings.t.

(** [create_async_engine(url)]: the exception it raises for a URL it cannot
    use, if any. *)
Variable engine_error : string -> option exn.

(** [Database(url)] *)
Definition new_database (url : string) : Result Database.t :=
  match engine_error url with
  | Some e => Raise e
  | None => Ok (Database.Build url)
  end.

(** [get_settings()] under [lru_cache]: a returned value is kept, an
    exception is not. *)
Definition get_settings (g : t) : Result Settings.t * t :=
  match settings_cache g with
  | Some s => (Ok s, g)
  | None =>
      match load with
      | Ok s => (Ok s, Build (Some s) (_cached_client g) (_database g))
      | Raise e => (Raise e, g)
      end
  end.

(** [settings or get_settings()] *)
Definition settings_or (settings : option Settings.t) (g : t) : Result Settings.t * t :=
  match settings with
  | Some s => (Ok s, g)
  | None => get_settings g
  end.

Definition get_llm_client (settings : option Settings.t) (g : t)
  : Result AzureOpenAIClient.t * t :=
  match settings_or settings g with
  | (Raise e, g') => (Raise e, g')
  | (Ok s, g') =>
      match _cached_client g' with
      | Some c => (Ok c, g')
      | None =>
          let c := AzureOpenAIClient.new s in
          (Ok c, Build (settings_cache g') (Some c) (_database g'))
      end
  end.

Definition get_database (settings : option Settings.t) (g : t)
  : Result Database.t * t :=
  match settings_or settings g with
  | (Raise e, g') => (Raise e, g')
  | (Ok s, g') =>
      match _database g' with
      | Some d => (Ok d, g')
      | None =>
          match new_database (Settings.database_url s) with
          | Ok d => (Ok d, Build (settings_cache g') (_cached_client g') (Some d))
          | Raise e => (Raise e, g')
          end
      end
  end.

Definition reset_database (g : t) : t :=
  Build (settings_cache g) (_cached_client g) None.

(** [get_settings.cache_clear()] *)
Definition cache_clear (g : t) : t :=
  Build None (_cached_client g) (_database g).

(** dependencies.py: the three providers. *)
Definition provide_settings (g : t) : Result Settings.t * t := get_settings g.

Definition provide_llm_client (settings : Settings.t) (g : t)
  : Result AzureOpenAIClient.t * t :=
  get_llm_client (Some settings) g.

Definition provide_scoring_service (settings : Settings.t)
  : Scoring.ScoringService.t :=
  Scoring.ScoringService.Build (Settings.default_llm_model settings).

End Environment.

End Process.

Import PyStr PyText Schemas Prompts LLM Scoring Models Dependencies Api.

(** * Fixtures *)

Module Fixtures.

#[export] Instance serializer : Serializer := fun M _ => "<" ++ model_name M ++ ">".

Definition service : ScoringService.t := ScoringService.Build "gpt-4o-mini".

Definition request (m : MethodValue) : ScoreRequest.t :=
  ScoreRequest.Build "English" "German" "Hello" "Hallo" m.

Definition body (method : string) : ScoreRequestBody.t :=
  ScoreRequestBody.Build "English" "German" "Hello" "Hallo" method.

(** A client whose answers hold no number and no structured payload. *)
#[export] Instance mute_client : LLMClientProtocol unit :=
  {| complete := fun s _ => (Ok "no-error", s);
     parse := fun M s _ => (Ok {| choices := [ {| message := {| parsed := None |} |} ] |}, s) |}.

(** A client whose transport fails. *)
#[export] Instance down_client : LLMClientProtocol unit :=
  {| complete := fun s _ => (Raise (LLMClientError "connection refused"), s);
     parse := fun M s _ => (Raise (LLMClientError "connection refused"), s) |}.

(** The two rows of the threshold test, and a third from another caller. *)
Definition high : TranslationScore.t :=
  TranslationScore.Build 1%N "ui-test" "English" "German" "hi" "Hallo"
    "GEMBA-DA" "fake" (Finite 90) None None None None 100%Z.

Definition low : TranslationScore.t :=
  TranslationScore.Build 2%N "ui-test" "English" "German" "bad" "schlecht"
    "GEMBA-DA" "fake" (Finite 40) None None None None 200%Z.

Definition other : TranslationScore.t :=
  TranslationScore.Build 3%N "widget-b" "English" "French" "Hi" "Salut"
    "GEMBA-DA" "fake" (Finite 70) None None None None 300%Z.

Definition table : Table := [high; low; other].

End Fixtures.

Import Fixtures.

(** * Specification vocabulary *)

(** ** Texts *)

(** [needle] occurs in [hay] as a contiguous run of characters. *)
Definition substring_of (needle hay : string) : Prop :=
  exists pre suf, hay = pre ++ needle ++ suf.

Fixpoint all_digits (s : string) : bool :=
  match s with
  | EmptyString => true
  | String c s' => is_digit c && all_digits s'
  end.

Fixpoint has_digit (s : string) : bool :=
  match s with
  | EmptyString => false
  | String c s' => is_digit c || has_digit s'
  end.

Definition head_digit (s : string) : bool :=
  match s with
  | EmptyString => false
  | String c _ => is_digit c
  end.

(** The language of [-?\d+(?:\.\d+)?]: an optional minus sign, one digit or
    more, and optionally a dot followed by one digit or more. *)
Definition numeric_token (tok : string) : Prop :=
  exists sign ds frac,
    tok = sign ++ ds ++ frac /\
    (sign = "" \/ sign = "-") /\
    ds <> "" /\ all_digits ds = true /\
    (frac = "" \/ exists fs, frac = String "." fs /\ fs <> "" /\ all_digits fs = true).

(** [Scan text toks]: [text] is cut into the tokens [toks], in order, with
    digit-free gaps around them, and no token is followed by a digit. *)
Inductive Scan : string -> list string -> Prop :=
| Scan_done (gap : string) :
    has_digit gap = false -> Scan gap []
| Scan_token (gap tok rest : string) (toks : list string) :
    has_digit gap = false -> numeric_token tok -> head_digit rest = false ->
    Scan rest toks -> Scan (gap ++ tok ++ rest) (tok :: toks).

(** ** Templates *)

Fixpoint segment_fields (segs : list segment) : list string :=
  match segs with
  | [] => []
  | Literal _ :: segs' => segment_fields segs'
  | Field name :: segs' => name :: segment_fields segs'
  end.

Definition mem (name : string) (names : list string) : bool :=
  existsb (String.eqb name) names.

(** The replacement fields of [template] are exactly [names]. *)
Definition uses_exactly (template : string) (names : list string) : bool :=
  match parse_template template None with
  | Ok segs =>
      forallb (fun n => mem n (segment_fields segs)) names
      && forallb (fun f => mem f names) (segment_fields segs)
  | Raise _ => false
  end.

(** The four texts of a request all occur in [out]. *)
Definition carries (payload : ScoreRequest.t) (out : string) : Prop :=
  substring_of (ScoreRequest.source_lang payload) out /\
  substring_of (ScoreRequest.target_lang payload) out /\
  substring_of (ScoreRequest.source_text payload) out /\
  substring_of (ScoreRequest.target_text payload) out.

Definition request_fields : list string :=
  ["source_lang"; "target_lang"; "source_text"; "target_text"].

(** ** Exceptions *)

(** The class an exception is an instance of. *)
Definition exn_class (e : exn) : string :=
  match e with
  | ScoringServiceError _ => "ScoringServiceError"
  | LLMClientError _ => "LLMClientError"
  | HTTPException _ _ => "HTTPException"
  | ValueError _ => "ValueError"
  | KeyError _ => "KeyError"
  | AttributeError _ => "AttributeError"
  | RequestValidationError _ => "RequestValidationError"
  | IndexError => "IndexError"
  end.

(** Exceptions that the framework answers with status 500 when they leave a
    handler. *)
Definition server_error (e : exn) : bool :=
  match e with
  | HTTPException _ _ | RequestValidationError _ => false
  | _ => true
  end.

(** [v] is the value of no member of the enumeration. *)
Definition outside_enumeration (v : string) : Prop :=
  forall m : ScoringMethod, v <> value m.

(** ** Header values *)

Fixpoint all_space (s : string) : bool :=
  match s with
  | EmptyString => true
  | String c s' => is_space c && all_space s'
  end.

Definition head_space (s : string) : bool :=
  match s with
  | EmptyString => false
  | String c _ => is_space c
  end.

Fixpoint last_space (s : string) : bool :=
  match s with
  | EmptyString => false
  | String c EmptyString => is_space c
  | String _ s' => last_space s'
  end.

(** [t] is [h] without the whitespace around it. *)
Definition trimmed (h t : string) : Prop :=
  (exists pre suf,
     h = pre ++ t ++ suf /\ all_space pre = true /\ all_space suf = true) /\
  head_space t = false /\ last_space t = false.

(** ** Rows and records *)

(** The stored method is the value of a member of the enumeration, as it is
    for every row the scoring route writes. *)
Definition stored_method_valid (row : TranslationScore.t) : Prop :=
  exists m, TranslationScore.scoring_method row = value m.

(** [rec] shows [row]: the twelve members of the record are those of the row. *)
Definition represents (row : TranslationScore.t) (rec : TranslationScoreRecord.t) : Prop :=
  TranslationScoreRecord.id rec = TranslationScore.id row /\
  TranslationScoreRecord.app_id rec = TranslationScore.app_id row /\
  TranslationScoreRecord.source_lang rec = TranslationScore.source_lang row /\
  TranslationScoreRecord.target_lang rec = TranslationScore.target_lang row /\
  TranslationScoreRecord.target_text rec = TranslationScore.target_text row /\
  value (TranslationScoreRecord.scoring_method rec) = TranslationScore.scoring_method row /\
  TranslationScoreRecord.llm_model rec = TranslationScore.llm_model row /\
  TranslationScoreRecord.score rec = TranslationScore.score row /\
  TranslationScoreRecord.adequacy_score rec = TranslationScore.adequacy_score row /\
  TranslationScoreRecord.fluency_score rec = TranslationScore.fluency_score row /\
  TranslationScoreRecord.rationale rec = TranslationScore.rationale row /\
  TranslationScoreRecord.created_at rec = TranslationScore.created_at row.

(** The order of floats: that of the rationals, with the two infinities
    below and above them. *)
Definition float_le (x y : float) : Prop :=
  match x, y with
  | Finite a, Finite b => (a <= b)%Q
  | Infinite true, _ => True
  | _, Infinite false => True
  | _, _ => False
  end.

Definition float_lt (x y : float) : Prop := ~ float_le y x.

Declare Scope float_scope.
Delimit Scope float_scope with float.
Notation "x <= y" := (float_le x y) : float_scope.
Notation "x < y" := (float_lt x y) : float_scope.

(** The query parameters are within their declared bounds. *)
Definition in_bounds (limit : option Z) (threshold : option float)
    (app_id : option string) : Prop :=
  (forall n, limit = Some n -> (1 <= n <= 200)%Z) /\
  (forall th, threshold = Some th -> (Finite 0 <= th)%float /\ (th <= Finite 100)%float) /\
  (forall a, app_id = Some a -> a <> "").

Definition limit_of (limit : option Z) : nat :=
  match limit with
  | Some n => Z.to_nat n
  | None => 25
  end.

(** [row] passes the filters that were supplied. *)
Definition passes (threshold : option float) (app_id : option string)
    (row : TranslationScore.t) : Prop :=
  (forall th, threshold = Some th -> (TranslationScore.score row <= th)%float) /\
  (forall a, app_id = Some a -> TranslationScore.app_id row = a).

Definition newer_first (r1 r2 : TranslationScore.t) : Prop :=
  (TranslationScore.created_at r2 <= TranslationScore.created_at r1)%Z.

Definition record_newer_first (r1 r2 : TranslationScoreRecord.t) : Prop :=
  (TranslationScoreRecord.created_at r2 <= TranslationScoreRecord.created_at r1)%Z.

Definition record_passes (threshold : option float) (app_id : option string)
    (rec : TranslationScoreRecord.t) : Prop :=
  (forall th, threshold = Some th -> (TranslationScoreRecord.score rec <= th)%float) /\
  (forall a, app_id = Some a -> TranslationScoreRecord.app_id rec = a).

(** [row] with another source text and another raw response. *)
Definition with_unlisted (row : TranslationScore.t) (source_text : string)
    (raw_llm_response : option string) : TranslationScore.t :=
  TranslationScore.Build
    (TranslationScore.id row) (TranslationScore.app_id row)
    (TranslationScore.source_lang row) (TranslationScore.target_lang row)
    source_text
    (TranslationScore.target_text row) (TranslationScore.scoring_method row)
    (TranslationScore.llm_model row) (TranslationScore.score row)
    (TranslationScore.adequacy_score row) (TranslationScore.fluency_score row)
    (TranslationScore.rationale row)
    raw_llm_response
    (TranslationScore.created_at row).

(** ** Scanning a text in two parts *)

(** [t] begins neither with a digit nor with a dot that a digit follows. *)
Definition apart (t : string) : bool :=
  negb (head_digit t) &&
  negb (match t with
        | String c t' => Ascii.eqb c "." && head_digit t'
        | EmptyString => false
        end).

(** A match and what follows it, when [t] is put after the text. *)
Definition extend (t : string) (mr : string * string) : string * string :=
  (fst mr, snd mr ++ t).

(** ** Messages of the structured methods *)

(** The messages of the GEMBA-MQM request, given the final user message. *)
Definition mqm_messages (final : string) : list ChatMessage :=
  [ ScoringService.system gemba_mqm_system_prompt;
    ScoringService.user gemba_mqm_few_shot_user;
    ScoringService.assistant ScoringService.few_shot_assistant;
    ScoringService.user final ].

Definition structured_da_messages (message : string) : list ChatMessage :=
  [ ScoringService.system structured_da_system_message;
    ScoringService.user message ].

(** ** Requests served in sequence *)

(** One [POST /score] as the server receives it: the header, the body, and
    the identifier and the time the row would be given. *)
Module PostRequest.
Record t : Type := Build {
  x_app_id : option string;
  body : ScoreRequestBody.t;
  new_id : UUID;
  now : datetime
}.
End PostRequest.

(** The requests of a list served one after the other: the answers, in
    order, and the state and the table they leave. *)
Fixpoint post_scores {S : Type} {client : LLMClientProtocol S}
    {serializer : Serializer} (scoring_service : ScoringService.t)
    (requests : list PostRequest.t) (s : S) (db : Table)
  : list (Result ScoreResponse.t) * S * Table :=
  match requests with
  | [] => ([], s, db)
  | q :: requests' =>
      let '(answer, s', db', _) :=
        serve_post_score (PostRequest.x_app_id q) (PostRequest.body q) scoring_service
          (PostRequest.new_id q) (PostRequest.now q) s db in
      let '(answers, s'', db'') := post_scores scoring_service requests' s' db' in
      (answer :: answers, s'', db'')
  end.

(** The floats of a row are finite. *)
Definition row_compliant (row : TranslationScore.t) : bool :=
  PyFloat.isfinite (TranslationScore.score row)
  && optional_isfinite (TranslationScore.adequacy_score row)
  && optional_isfinite (TranslationScore.fluency_score row).

(** The answer is none the framework gives status 500. *)
Definition no_server_error {A : Type} (r : Result A) : Prop :=
  status_code r <> 500%Z.

(** The row the handler writes for a request and its result. *)
Definition row_of (new_id : UUID) (now : datetime) (app_id : string)
    (payload : ScoreRequest.t) (method_text : string) (result : ScoreComputation.t)
  : TranslationScore.t :=
  TranslationScore.Build new_id app_id
    (ScoreRequest.source_lang payload) (ScoreRequest.target_lang payload)
    (ScoreRequest.source_text payload) (ScoreRequest.target_text payload)
    method_text
    (ScoreComputation.llm_model result) (ScoreComputation.score result)
    (ScoreComputation.adequacy result) (ScoreComputation.fluency result)
    (ScoreComputation.rationale result)
    (Some (ScoreComputation.raw_response result)) now.

Definition response_of (new_id : UUID) (payload : ScoreRequest.t)
    (result : ScoreComputation.t) : ScoreResponse.t :=
  ScoreResponse.Build (ScoreComputation.score result) (ScoreRequest.method payload)
    new_id (ScoreComputation.adequacy result) (ScoreComputation.fluency result)
    (ScoreComputation.rationale result).

(** ** Stripping in general *)

(** Stripping by any class [p] of characters; [strip] is the case of
    [is_space] and [trim] the case of [is_white_space]. *)
Fixpoint lstrip_by (p : ascii -> bool) (s : string) : string :=
  match s with
  | String c s' => if p c then lstrip_by p s' else s
  | EmptyString => EmptyString
  end.

Fixpoint rstrip_by (p : ascii -> bool) (s : string) : string :=
  match s with
  | String c s' =>
      match rstrip_by p s' with
      | EmptyString => if p c then EmptyString else String c EmptyString
      | r => String c r
      end
  | EmptyString => EmptyString
  end.

Definition head_by (p : ascii -> bool) (s : string) : bool :=
  match s with
  | EmptyString => false
  | String c _ => p c
  end.

Fixpoint last_by (p : ascii -> bool) (s : string) : bool :=
  match s with
  | EmptyString => false
  | String c EmptyString => p c
  | String _ s' => last_by p s'
  end.

(** The body a validated request would be sent as. *)
Definition body_of (p : ScoreRequest.t) : ScoreRequestBody.t :=
  ScoreRequestBody.Build
    (ScoreRequest.source_lang p) (ScoreRequest.target_lang p)
    (ScoreRequest.source_text p) (ScoreRequest.target_text p)
    (method_str (ScoreRequest.method p)).

(** ** Caches, the log of the test double, sizes of templates *)

(** Successive calls of [get_llm_client], each with the settings it is
    given, and what each returns. *)
Fixpoint get_llm_clients (load : Result Config.Settings.t)
    (calls : list (option Config.Settings.t)) (g : Process.t)
  : list (Result AzureOpenAIClient.t) :=
  match calls with
  | [] => []
  | settings :: calls' =>
      let (r, g') := Process.get_llm_client load settings g in
      r :: get_llm_clients load calls' g'
  end.

Fixpoint get_databases (load : Result Config.Settings.t) (engine_error : string -> option exn)
    (calls : list (option Config.Settings.t)) (g : Process.t)
  : list (Result Db.Database.t) :=
  match calls with
  | [] => []
  | settings :: calls' =>
      let (r, g') := Process.get_database load engine_error settings g in
      r :: get_databases load engine_error calls' g'
  end.

(** What the test double writes to [self.calls] for the calls of a run. *)
Fixpoint logged (calls : list Call) : list string :=
  match calls with
  | [] => []
  | CompleteCall messages :: calls' =>
      match rev messages with
      | m :: _ => content m :: logged calls'
      | [] => logged calls'
      end
  | ParseCall _ _ :: calls' => logged calls'
  end.

Fixpoint literal_count (segs : list segment) : nat :=
  match segs with
  | [] => 0
  | Literal _ :: segs' => Datatypes.S (literal_count segs')
  | Field _ :: segs' => literal_count segs'
  end.

(** The number of literal characters of a template. *)
Definition template_literals (template : string) : option nat :=
  match parse_template template None with
  | Ok segs => Some (literal_count segs)
  | Raise _ => None
  end.

Definition template_fields (template : string) : option (list string) :=
  match parse_template template None with
  | Ok segs => Some (segment_fields segs)
  | Raise _ => None
  end.

Fixpoint fields_length (kw : kwargs) (names : list string) : nat :=
  match names with
  | [] => 0
  | n :: names' =>
      match lookup kw n with
      | Ok v => String.length v + fields_length kw names'
      | Raise _ => fields_length kw names'
      end
  end.

(** * Further instances *)

Module Samples.
Import Config Db.

Definition settings : Settings.t :=
  Settings.Build "GEMBA-Score API" "development" "/api/v1" "INFO"
    "sqlite+aiosqlite:///./.data/dev.db"
    "https://example.openai.azure.com/" "secret" "2024-08-01-preview"
    "gpt-4o" "gpt-4o-mini".

Definition other_settings : Settings.t :=
  Settings.Build "GEMBA-Score API" "production" "/api/v1" "INFO"
    "sqlite+aiosqlite:///./.data/other.db"
    "https://other.openai.azure.com/" "secret" "2024-08-01-preview"
    "gpt-4.1" "gpt-4.1".

Definition wrapper : AzureOpenAIClient.t := AzureOpenAIClient.new settings.

(** Every URL but the empty one makes an engine. *)
Definition engine_error (url : string) : option exn :=
  match url with
  | EmptyString => Some (ValueError "Could not parse SQLAlchemy URL")
  | _ => None
  end.

Definition padded_body : ScoreRequestBody.t :=
  ScoreRequestBody.Build "  English " "German" " Hello" "Hallo  " "GEMBA-DA".

(** A row whose method no member of the enumeration has. *)
Definition unreadable : TranslationScore.t :=
  TranslationScore.Build 9%N "ui-test" "English" "German" "hi" "Hallo"
    "BLEU" "fake" (Finite 50) None None None None 50%Z.

Definition requests : list PostRequest.t :=
  [ PostRequest.Build (Some "widget-a") (Fixtures.body "GEMBA-DA") 11%N 400%Z;
    PostRequest.Build None (Fixtures.body "GEMBA-ESA") 12%N 500%Z;
    PostRequest.Build (Some "widget-b") (Fixtures.body "STRUCTURED-DA") 13%N 600%Z ].

Definition perfect : Completion MQMEval.t :=
  FakeLLMClient.wrap (MQMEval.Build (Finite 100) "No errors").

(** A service that answers every completion with a padded number. *)
Definition padding_service : OpenAI.Service unit :=
  {| OpenAI.create := fun r _ _ _ =>
       (OpenAI.Returned
          {| OpenAI.choices :=
               [ {| OpenAI.message := {| OpenAI.content := Some "  87  " |} |} ] |}, r);
     OpenAI.parse := fun M r _ _ _ => (OpenAI.RaisedOther IndexError, r) |}.

(** A service whose completions carry no content. *)
Definition silent_service : OpenAI.Service unit :=
  {| OpenAI.create := fun r _ _ _ =>
       (OpenAI.Returned
          {| OpenAI.choices :=
               [ {| OpenAI.message := {| OpenAI.content := None |} |} ] |}, r);
     OpenAI.parse := fun M r _ _ _ => (OpenAI.RaisedOther IndexError, r) |}.

(** A run of [n] nines. *)
Fixpoint nines (n : nat) : string :=
  match n with
  | O => EmptyString
  | Datatypes.S n' => String "9" (nines n')
  end.

(** A client whose completions are a number of four hundred digits. *)
Definition overflowing_client : LLMClientProtocol unit :=
  {| complete := fun s _ => (Ok (nines 400), s);
     parse := fun M s _ => (Raise (LLMClientError "connection refused"), s) |}.

(** A service that is out of quota. *)
Definition failing_service : OpenAI.Service unit :=
  {| OpenAI.create := fun r _ _ _ => (OpenAI.RaisedAPIError "quota exceeded", r);
     OpenAI.parse := fun M r _ _ _ => (OpenAI.RaisedAPIError "quota exceeded", r) |}.

End Samples.

(** * Lemmas and theorems *)


(** * The regular expression scan *)

Section FindAll.

Lemma take_digits_spec (s : string) :
  s = fst (take_digits s) ++ snd (take_digits s) /\
  all_digits (fst (take_digits s)) = true /\
  head_digit (snd (take_digits s)) = false.
Proof.
  induction s as [|c s (IH1 & IH2 & IH3)]; simpl; [easy|].
  destruct (is_digit c) eqn:Hc.
  - destruct (take_digits s) as [d r]; simpl in *.
    rewrite Hc, IH2. repeat split; [now f_equal | assumption].
  - simpl. now rewrite Hc.
Qed.

Lemma match_fraction_spec (s : string) (Hs : head_digit s = false) :
  let f := fst (match_fraction s) in
  let r := snd (match_fraction s) in
  s = f ++ r /\ head_digit r = false /\
  (f = "" \/ exists fs, f = String "." fs /\ fs <> "" /\ all_digits fs = true).
Proof.
  unfold match_fraction. destruct s as [|c s]; simpl; [auto|].
  destruct (Ascii.eqb_spec c "."%char) as [->|Hc]; simpl; [|auto].
  destruct (take_digits_spec s) as (H1 & H2 & H3).
  destruct (take_digits s) as [[|d0 d] r]; simpl in *; [auto|].
  repeat split; [now f_equal | assumption |].
  right. exists (String d0 d). repeat split; [discriminate | assumption].
Qed.

Lemma match_unsigned_spec (s m r : string) :
  match_unsigned s = Some (m, r) ->
  s = m ++ r /\ head_digit r = false /\
  exists ds frac,
    m = ds ++ frac /\ ds <> "" /\ all_digits ds = true /\
    (frac = "" \/ exists fs, frac = String "." fs /\ fs <> "" /\ all_digits fs = true).
Proof.
  unfold match_unsigned. intros H.
  destruct (take_digits_spec s) as (H1 & H2 & H3).
  destruct (take_digits s) as [[|d0 d] r0]; [discriminate|].
  destruct (match_fraction_spec r0 H3) as (F1 & F2 & F3).
  destruct (match_fraction r0) as [f r']. injection H as <- <-.
  cbn [fst snd] in *. repeat split.
  - rewrite H1 at 1. rewrite F1 at 1. simpl. now rewrite append_assoc.
  - assumption.
  - exists (String d0 d), f. repeat split; [discriminate | assumption | assumption].
Qed.

Lemma match_number_spec (s m r : string) :
  match_number s = Some (m, r) ->
  s = m ++ r /\ head_digit r = false /\ numeric_token m.
Proof.
  unfold match_number. intros H.
  assert (U : forall s0, match_unsigned s0 = Some (m, r) ->
              s0 = m ++ r /\ head_digit r = false /\ numeric_token m).
  { intros s0 H0. apply match_unsigned_spec in H0 as (E & Hr & ds & frac & Em & D1 & D2 & D3).
    repeat split; [assumption..|]. exists "", ds, frac. simpl. auto. }
  destruct s as [|c s]; [now apply U|].
  destruct (Ascii.eqb_spec c "-"%char) as [->|_]; [|now apply U].
  destruct (match_unsigned s) as [[m' r']|] eqn:Hu; [|now apply U].
  injection H as <- <-.
  apply match_unsigned_spec in Hu as (E & Hr & ds & frac & Em & D1 & D2 & D3).
  repeat split; [now rewrite E | assumption |].
  exists "-", ds, frac. simpl. rewrite Em. auto.
Qed.

Lemma take_digits_head (c : ascii) (s : string) :
  is_digit c = true -> fst (take_digits (String c s)) <> "".
Proof.
  intros Hc. simpl. rewrite Hc. destruct (take_digits s). discriminate.
Qed.

Lemma match_unsigned_digit (c : ascii) (s : string) :
  is_digit c = true -> match_unsigned (String c s) <> None.
Proof.
  intros Hc. unfold match_unsigned.
  pose proof (take_digits_head c s Hc) as H.
  destruct (take_digits (String c s)) as [[|d0 d] r]; [now elim H|].
  destruct (match_fraction r). discriminate.
Qed.

Lemma match_number_none (c : ascii) (s : string) :
  match_number (String c s) = None -> is_digit c = false.
Proof.
  unfold match_number. intros H.
  destruct (is_digit c) eqn:Hc; [|reflexivity].
  exfalso. apply (match_unsigned_digit c s Hc).
  destruct (Ascii.eqb c "-"); [|assumption].
  now destruct (match_unsigned s) as [[? ?]|].
Qed.

Lemma Scan_skip (c : ascii) (s : string) (toks : list string) :
  is_digit c = false -> Scan s toks -> Scan (String c s) toks.
Proof.
  intros Hc H. destruct H as [gap Hg | gap tok rest toks Hg Ht Hr Hs].
  - apply Scan_done. simpl. now rewrite Hc.
  - apply (Scan_token (String c gap)); try assumption. simpl. now rewrite Hc.
Qed.

Lemma findall_Scan (s : string) : Scan s (findall s).
Proof.
  funelim (findall s).
  - now apply Scan_done.
  - match goal with
    | Hm : match_number _ = Some _ |- _ =>
        destruct (match_number_spec _ _ _ Hm) as (E & Hr & Ht)
    end.
    rewrite E. now apply (Scan_token "").
  - apply Scan_skip; [|assumption].
    match goal with
    | Hm : match_number _ = None |- _ => exact (match_number_none _ _ Hm)
    end.
Qed.

Lemma findall_cons (c : ascii) (s' : string) :
  findall (String c s') =
  match match_number (String c s') with
  | Some (m, r) => m :: findall r
  | None => findall s'
  end.
Proof.
  funelim (findall (String c s')); try discriminate;
    match goal with E : String _ _ = String _ _ |- _ => injection E as -> -> end;
    match goal with Hm : match_number _ = _ |- _ => now rewrite Hm end.
Qed.

End FindAll.

(** * Rounding to binary64 *)

Section Rounding.

Lemma exponent_integer (n : positive) : PyFloat.exponent n 1 = Z.log2 (Zpos n).
Proof.
  unfold PyFloat.exponent. change (Z.log2 1) with 0%Z. rewrite Z.sub_0_r.
  pose proof (Z.log2_nonneg (Zpos n)) as H0.
  pose proof (Z.log2_spec (Zpos n) (Pos2Z.is_pos n)) as [H1 _].
  destruct (Z.leb_spec 0 (Z.log2 (Zpos n))); [|lia].
  destruct (Z.leb_spec (1 * 2 ^ Z.log2 (Zpos n)) (Zpos n)); [reflexivity|lia].
Qed.

Lemma nearest_even_exact (a b : Z) : (0 < b)%Z -> PyFloat.nearest_even (a * b) b = a.
Proof.
  intros Hb. unfold PyFloat.nearest_even.
  rewrite Z.div_mul, Z.mod_mul by lia.
  destruct (Z.compare_spec (2 * 0) b); lia.
Qed.

Lemma nearest_even_floor (num den : Z) :
  (num / den <= PyFloat.nearest_even num den)%Z.
Proof.
  unfold PyFloat.nearest_even.
  destruct (2 * (num mod den) ?= den)%Z; [destruct (Z.even (num / den))|..]; lia.
Qed.

Lemma Qred_integer (z : Z) : Qred (Qmake z 1) = Qmake z 1.
Proof.
  unfold Qred.
  pose proof (Z.ggcd_gcd z 1) as Hg.
  pose proof (Z.ggcd_correct_divisors z 1) as Hd.
  destruct (Z.ggcd z 1) as [g [a b]]. simpl in *.
  rewrite Z.gcd_1_r in Hg. subst g. destruct Hd as [Ha Hb].
  rewrite Z.mul_1_l in Ha, Hb. now subst.
Qed.

(** An integer of 53 bits at most is a binary64 value: it is read as it is. *)
Lemma round_positive_integer (n : positive) :
  (Zpos n <= 2 ^ 53)%Z -> PyFloat.round_positive n 1 = Finite (Qmake (Zpos n) 1).
Proof.
  intros Hn. unfold PyFloat.round_positive. rewrite exponent_integer.
  pose proof (Z.log2_nonneg (Zpos n)) as H0.
  assert (H53 : (Z.log2 (Zpos n) <= 53)%Z).
  { change 53%Z with (Z.log2 (2 ^ 53)). now apply Z.log2_le_mono. }
  pose proof (Z.log2_spec (Zpos n) (Pos2Z.is_pos n)) as [Hlo Hhi].
  unfold PyFloat.precision, PyFloat.emin.
  rewrite Z.max_l by lia.
  set (e := Z.log2 (Zpos n)) in *.
  destruct (Z.leb_spec 0 (e - (53 - 1))) as [Hu | Hu].
  - assert (He : e = 52%Z \/ e = 53%Z) by lia. destruct He as [He | He]; rewrite He in *.
    + change (52 - (53 - 1))%Z with 0%Z. change (2 ^ 0)%Z with 1%Z.
      rewrite !Z.mul_1_r.
      replace (PyFloat.nearest_even (Zpos n) 1) with (Zpos n)
        by (rewrite <- (Z.mul_1_r (Zpos n)) at 2; now rewrite nearest_even_exact).
      destruct (Z.leb_spec (2 ^ PyFloat.emax) (Zpos n)) as [Hbig|_]; [|reflexivity].
      exfalso. assert ((2 ^ 53 < 2 ^ PyFloat.emax)%Z) by reflexivity. lia.
    + assert (E : Zpos n = (2 ^ 53)%Z) by lia.
      rewrite E. vm_compute. reflexivity.
  - set (k := (- (e - (53 - 1)))%Z).
    assert (Hk : (0 < 2 ^ k)%Z) by (apply Z.pow_pos_nonneg; lia).
    replace (PyFloat.nearest_even (Zpos n * 2 ^ k) 1) with (Zpos n * 2 ^ k)%Z
      by (rewrite <- (Z.mul_1_r (Zpos n * 2 ^ k)) at 2; now rewrite nearest_even_exact).
    f_equal. rewrite <- (Qred_integer (Zpos n)). apply Qred_complete.
    unfold Qeq. cbn [Qnum Qden]. rewrite Z2Pos.id by exact Hk. lia.
Qed.

Lemma round_integer (z : Z) :
  (0 <= z <= 2 ^ 53)%Z -> PyFloat.round (Qmake z 1) = Finite (Qmake z 1).
Proof.
  intros [H0 H1]. unfold PyFloat.round. cbn [Qnum Qden].
  destruct z as [|n|n]; [reflexivity | now apply round_positive_integer | lia].
Qed.

Lemma round_opp_integer (z : Z) :
  (0 <= z)%Z -> PyFloat.round (Qmake (- z) 1) = PyFloat.neg (PyFloat.round (Qmake z 1)).
Proof.
  intros H. destruct z as [|n|n]; [reflexivity | reflexivity | lia].
Qed.

(** An integer that reaches [2 ^ 1024] is beyond the range: it is read as
    the infinity. *)
Lemma round_positive_overflow (n : positive) :
  (2 ^ 1024 <= Zpos n)%Z -> PyFloat.round_positive n 1 = Infinite false.
Proof.
  intros Hn. unfold PyFloat.round_positive. rewrite exponent_integer.
  assert (He : (1024 <= Z.log2 (Zpos n))%Z).
  { change 1024%Z with (Z.log2 (2 ^ 1024)) at 1. now apply Z.log2_le_mono. }
  pose proof (Z.log2_spec (Zpos n) (Pos2Z.is_pos n)) as [Hlo _].
  unfold PyFloat.precision, PyFloat.emin, PyFloat.emax.
  set (e := Z.log2 (Zpos n)) in *.
  rewrite Z.max_l by lia.
  set (u := (e - (53 - 1))%Z).
  assert (Hu : (972 <= u)%Z) by (unfold u; lia).
  destruct (Z.leb_spec 0 u) as [_|]; [|lia].
  rewrite Z.mul_1_l.
  assert (Hpu : (0 < 2 ^ u)%Z) by (apply Z.pow_pos_nonneg; lia).
  pose proof (nearest_even_floor (Zpos n) (2 ^ u)) as Hm.
  assert (Hq : (2 ^ 52 <= Zpos n / 2 ^ u)%Z).
  { apply Z.div_le_lower_bound; [exact Hpu|].
    rewrite <- Z.pow_add_r by lia. replace (u + 52)%Z with e by (unfold u; lia).
    exact Hlo. }
  assert (Hbig : (2 ^ 1024 <= PyFloat.nearest_even (Zpos n) (2 ^ u) * 2 ^ u)%Z).
  { apply Z.le_trans with (2 ^ 52 * 2 ^ u)%Z.
    - rewrite <- Z.pow_add_r by lia. apply Z.pow_le_mono_r; lia.
    - apply Z.mul_le_mono_nonneg_r; lia. }
  destruct (Z.leb_spec (2 ^ 1024) (PyFloat.nearest_even (Zpos n) (2 ^ u) * 2 ^ u));
    [reflexivity | lia].
Qed.

Lemma round_overflow (z : Z) :
  (2 ^ 1024 <= z)%Z -> PyFloat.round (Qmake z 1) = Infinite false.
Proof.
  intros H. unfold PyFloat.round. cbn [Qnum Qden].
  assert (H0 : (0 < 2 ^ 1024)%Z) by reflexivity.
  destruct z as [|n|n]; [lia | now apply round_positive_overflow | lia].
Qed.

Lemma leb_le (x y : float) : PyFloat.leb x y = true <-> float_le x y.
Proof.
  destruct x as [a | [|]], y as [b | [|]]; simpl;
    try (split; [intros _; exact I | reflexivity]);
    try (split; [discriminate | contradiction]).
  apply Qle_bool_iff.
Qed.

End Rounding.

(** * [_extract_last_number] *)

Section ExtractLastNumber.

Lemma has_digit_app (a b : string) :
  has_digit (a ++ b) = has_digit a || has_digit b.
Proof.
  induction a as [|c a IH]; simpl; [reflexivity|].
  now rewrite IH, orb_assoc.
Qed.

Lemma all_digits_app (a b : string) :
  all_digits (a ++ b) = all_digits a && all_digits b.
Proof.
  induction a as [|c a IH]; simpl; [reflexivity|].
  now rewrite IH, andb_assoc.
Qed.

Lemma all_digits_has_digit (s : string) :
  s <> "" -> all_digits s = true -> has_digit s = true.
Proof.
  destruct s as [|c s]; [congruence|]. simpl. intros _ H.
  apply andb_true_iff in H as [-> _]. reflexivity.
Qed.

Lemma numeric_token_has_digit (tok : string) :
  numeric_token tok -> has_digit tok = true.
Proof.
  intros (sign & ds & frac & -> & _ & Hne & Hds & _).
  rewrite !has_digit_app, (all_digits_has_digit ds Hne Hds).
  now rewrite orb_true_r.
Qed.

Lemma Scan_has_digit (s : string) (toks : list string) :
  Scan s toks -> has_digit s = match toks with [] => false | _ :: _ => true end.
Proof.
  intros [gap Hg | gap tok rest toks' Hg Ht Hr Hs]; [assumption|].
  rewrite !has_digit_app, (numeric_token_has_digit tok Ht).
  now rewrite orb_true_r.
Qed.

Lemma findall_nil (s : string) : findall s = [] <-> has_digit s = false.
Proof.
  pose proof (Scan_has_digit s _ (findall_Scan s)) as H.
  destruct (findall s); rewrite H; split; congruence.
Qed.

Lemma last_of_cons {A : Type} (x : A) (l : list A) :
  last_of (x :: l) = match last_of l with None => Some x | Some y => Some y end.
Proof.
  unfold last_of. simpl. destruct (rev l); reflexivity.
Qed.

Lemma last_of_none {A : Type} (l : list A) : last_of l = None -> l = [].
Proof.
  unfold last_of. intros H. destruct (rev l) eqn:E; [|discriminate].
  rewrite <- (rev_involutive l), E. reflexivity.
Qed.

Lemma Scan_last (s : string) (toks : list string) (tok : string) :
  Scan s toks -> last_of toks = Some tok ->
  exists pre suf,
    s = pre ++ tok ++ suf /\ numeric_token tok /\ has_digit suf = false.
Proof.
  induction 1 as [gap Hg | gap t rest toks Hg Ht Hr Hs IH]; [discriminate|].
  rewrite last_of_cons. destruct (last_of toks) as [y|] eqn:El.
  - intros [= ->]. destruct (IH eq_refl) as (pre & suf & -> & Hn & Hd).
    exists (gap ++ t ++ pre), suf. repeat split; [|assumption..].
    now rewrite !append_assoc.
  - intros [= ->]. apply last_of_none in El. subst toks.
    exists gap, rest. repeat split; [assumption|].
    now rewrite (Scan_has_digit _ _ Hs).
Qed.

Lemma digit_not_dot (c : ascii) : is_digit c = true -> Ascii.eqb c "." = false.
Proof. destruct (Ascii.eqb_spec c "."%char) as [->|]; [discriminate|reflexivity]. Qed.

Lemma digit_not_minus (c : ascii) : is_digit c = true -> Ascii.eqb c "-" = false.
Proof. destruct (Ascii.eqb_spec c "-"%char) as [->|]; [discriminate|reflexivity]. Qed.

Lemma digit_not_plus (c : ascii) : is_digit c = true -> Ascii.eqb c "+" = false.
Proof. destruct (Ascii.eqb_spec c "+"%char) as [->|]; [discriminate|reflexivity]. Qed.

Lemma split_dot_digits (ds frac : string) :
  all_digits ds = true ->
  (frac = "" \/ exists fs, frac = String "." fs /\ fs <> "" /\ all_digits fs = true) ->
  exists fs,
    all_digits fs = true /\
    (split_dot (ds ++ frac) = (ds, None) /\ fs = ""
     \/ split_dot (ds ++ frac) = (ds, Some fs)).
Proof.
  intros Hds Hfrac. induction ds as [|c ds IH].
  - destruct Hfrac as [-> | (fs & -> & _ & Hfs)].
    + exists "". simpl. auto.
    + exists fs. simpl. auto.
  - simpl in Hds. apply andb_true_iff in Hds as [Hc Hds].
    destruct (IH Hds) as (fs & Hfs & [[E ->] | E]).
    + exists "". simpl. rewrite (digit_not_dot c Hc), E. auto.
    + exists fs. simpl. rewrite (digit_not_dot c Hc), E. auto.
Qed.

Lemma decimal_value_digits (s : string) :
  all_digits s = true -> forall acc, exists n, decimal_value s acc = Some n.
Proof.
  induction s as [|c s IH]; simpl; intros H acc; [eauto|].
  apply andb_true_iff in H as [-> H]. now apply IH.
Qed.

(** [float()] accepts the digits of a token, with or without a fraction. *)
Lemma float_body (negative : bool) (ds frac : string) :
  ds <> "" -> all_digits ds = true ->
  (frac = "" \/ exists fs, frac = String "." fs /\ fs <> "" /\ all_digits fs = true) ->
  exists x : float,
    (let (int_part, frac_part) :=
       match split_dot (ds ++ frac) with
       | (a, Some b) => (a, b)
       | (a, None) => (a, EmptyString)
       end in
     match int_part ++ frac_part with
     | EmptyString => Raise (ValueError "could not convert string to float")
     | digits =>
         match decimal_value digits 0 with
         | Some n =>
             let num := Z.of_N n in
             Ok (PyFloat.round
                   (Qmake (if negative then Z.opp num else num)
                          (Z.to_pos (10 ^ Z.of_nat (String.length frac_part)))))
         | None => Raise (ValueError "could not convert string to float")
         end
     end) = Ok x.
Proof.
  intros Hne Hds Hfrac.
  destruct (split_dot_digits ds frac Hds Hfrac) as (fs & Hfs & [[E ->] | E]);
    rewrite E.
  - rewrite append_nil_r. destruct ds as [|d0 ds]; [congruence|].
    destruct (decimal_value_digits _ Hds 0%N) as [n ->]. eauto.
  - assert (Hall : all_digits (ds ++ fs) = true)
      by now rewrite all_digits_app, Hds, Hfs.
    destruct (decimal_value_digits _ Hall 0%N) as [n Hn].
    destruct ds as [|d0 ds]; [congruence|].
    cbv beta iota. simpl append in *. cbv beta iota. rewrite Hn. eauto.
Qed.

Lemma python_float_token (tok : string) :
  numeric_token tok -> exists q, python_float tok = Ok q.
Proof.
  intros (sign & ds & frac & -> & [-> | ->] & Hne & Hds & Hfrac).
  - destruct ds as [|d0 ds]; [congruence|].
    pose proof Hds as Hd0. simpl in Hd0. apply andb_true_iff in Hd0 as [Hd0 _].
    change ("" ++ String d0 ds ++ frac) with (String d0 (ds ++ frac)).
    unfold python_float.
    rewrite (digit_not_minus d0 Hd0), (digit_not_plus d0 Hd0).
    exact (float_body false (String d0 ds) frac Hne Hds Hfrac).
  - change ("-" ++ ds ++ frac) with (String "-" (ds ++ frac)).
    unfold python_float. rewrite Ascii.eqb_refl.
    exact (float_body true ds frac Hne Hds Hfrac).
Qed.

Lemma take_digits_all (ds : string) :
  all_digits ds = true -> take_digits ds = (ds, "").
Proof.
  induction ds as [|c ds IH]; simpl; [reflexivity|]. intros H.
  apply andb_true_iff in H as [-> H]. now rewrite (IH H).
Qed.

Lemma match_unsigned_all (ds : string) :
  ds <> "" -> all_digits ds = true -> match_unsigned ds = Some (ds, "").
Proof.
  intros Hne H. unfold match_unsigned. rewrite (take_digits_all ds H).
  destruct ds as [|c ds]; [congruence|]. simpl. now rewrite append_nil_r.
Qed.

Lemma findall_integer (ds : string) :
  ds <> "" -> all_digits ds = true ->
  findall ds = [ds] /\ findall (String "-" ds) = [String "-" ds].
Proof.
  intros Hne H. pose proof (match_unsigned_all ds Hne H) as Hu. split.
  - destruct ds as [|c ds]; [congruence|]. rewrite findall_cons.
    unfold match_number. simpl in H. apply andb_true_iff in H as [Hc _].
    rewrite (digit_not_minus c Hc), Hu. now simp findall.
  - rewrite findall_cons. unfold match_number. rewrite Ascii.eqb_refl, Hu.
    now simp findall.
Qed.

Lemma split_dot_all (ds : string) :
  all_digits ds = true -> split_dot ds = (ds, None).
Proof.
  induction ds as [|c ds IH]; simpl; [reflexivity|]. intros H.
  apply andb_true_iff in H as [Hc H]. now rewrite (digit_not_dot c Hc), (IH H).
Qed.

Lemma python_float_integer (ds : string) (n : N) :
  ds <> "" -> all_digits ds = true -> decimal_value ds 0 = Some n ->
  python_float ds = Ok (PyFloat.round (Qmake (Z.of_N n) 1)) /\
  python_float (String "-" ds) = Ok (PyFloat.neg (PyFloat.round (Qmake (Z.of_N n) 1))).
Proof.
  intros Hne H Hn. split.
  - destruct ds as [|c ds]; [congruence|].
    pose proof H as Hc. simpl in Hc. apply andb_true_iff in Hc as [Hc _].
    unfold python_float. rewrite (digit_not_minus c Hc), (digit_not_plus c Hc).
    rewrite (split_dot_all _ H), append_nil_r, Hn. reflexivity.
  - destruct ds as [|c ds]; [congruence|].
    unfold python_float. rewrite Ascii.eqb_refl.
    rewrite (split_dot_all _ H), append_nil_r, Hn.
    rewrite <- round_opp_integer by lia. reflexivity.
Qed.

Lemma extract_integer (ds : string) :
  ds <> "" -> all_digits ds = true ->
  exists n : N,
    decimal_value ds 0 = Some n /\
    _extract_last_number ds = Ok (PyFloat.round (Qmake (Z.of_N n) 1)) /\
    _extract_last_number (String "-" ds)
    = Ok (PyFloat.neg (PyFloat.round (Qmake (Z.of_N n) 1))) /\
    ((Z.of_N n <= 2 ^ 53)%Z ->
     _extract_last_number ds = Ok (Finite (Qmake (Z.of_N n) 1)) /\
     _extract_last_number (String "-" ds) = Ok (Finite (Qmake (- Z.of_N n) 1))) /\
    ((2 ^ 1024 <= Z.of_N n)%Z ->
     _extract_last_number ds = Ok (Infinite false) /\
     _extract_last_number (String "-" ds) = Ok (Infinite true)).
Proof.
  intros Hne H.
  destruct (decimal_value_digits ds H 0%N) as [n Hn]. exists n.
  assert (E : _extract_last_number ds = Ok (PyFloat.round (Qmake (Z.of_N n) 1)) /\
              _extract_last_number (String "-" ds)
              = Ok (PyFloat.neg (PyFloat.round (Qmake (Z.of_N n) 1)))).
  { unfold _extract_last_number.
    rewrite (proj1 (findall_integer ds Hne H)), (proj2 (findall_integer ds Hne H)).
    unfold last_of. simpl rev.
    exact (python_float_integer ds n Hne H Hn). }
  destruct E as [E1 E2]. split; [exact Hn|]. split; [exact E1|]. split; [exact E2|].
  rewrite E1, E2. split; intros Hb.
  - rewrite round_integer by lia. split; reflexivity.
  - rewrite round_overflow by exact Hb. split; reflexivity.
Qed.

Lemma extract_examples :
  _extract_last_number "Reasoning... intermediate 12 steps... Score: 98.5"
  = Ok (Finite (197 # 2))
  /\ _extract_last_number "Score: -5" = Ok (Finite (-5))
  /\ _extract_last_number "250" = Ok (Finite 250)
  /\ _extract_last_number "9007199254740993" = Ok (Finite 9007199254740992)
  /\ _extract_last_number "98.50000000000000001" = Ok (Finite (197 # 2)).
Proof. repeat split; vm_compute; reflexivity. Qed.

(** C2. [_extract_last_number] scans the text for the tokens of
    [-?\d+(?:\.\d+)?].  A text without a digit has no token and the call
    raises the parse error.  A text with a digit is cut as [pre ++ tok ++ suf]
    where [tok] is the last token found and no digit follows it, and the call
    returns [float(tok)] as it is, whatever its sign or size.  The scan cuts
    the whole text into tokens and digit-free gaps.  On the text of the
    specification the result is 98.5; a negative number and a number above
    100 come back unchanged.  No bound is applied and nothing is rejected: a
    run of digits that reads as [n] comes back as the binary64 value nearest
    to [n], and as its opposite with a minus sign before it; this is [n]
    itself up to [2 ^ 53], and the infinity from [2 ^ 1024] on.  Between
    the two the value is rounded: 9007199254740993 comes back as
    9007199254740992, and 98.50000000000000001 as 98.5. *)
Theorem extract_last_number_spec :
  (forall text, has_digit text = false ->
     _extract_last_number text
     = Raise (ScoringServiceError "Could not parse numeric score from LLM response"))
  /\
  (forall text, has_digit text = true ->
     exists pre tok suf x,
       text = pre ++ tok ++ suf /\ numeric_token tok /\ has_digit suf = false /\
       last_of (findall text) = Some tok /\
       python_float tok = Ok x /\
       _extract_last_number text = Ok x)
  /\
  (forall text, Scan text (findall text))
  /\
  (_extract_last_number "Reasoning... intermediate 12 steps... Score: 98.5"
   = Ok (Finite (197 # 2)) /\ (197 # 2 == 98.5)%Q)
  /\
  _extract_last_number "Score: -5" = Ok (Finite (-5))
  /\
  _extract_last_number "250" = Ok (Finite 250)
  /\
  (forall ds, ds <> "" -> all_digits ds = true ->
     exists n : N,
       decimal_value ds 0 = Some n /\
       _extract_last_number ds = Ok (PyFloat.round (Qmake (Z.of_N n) 1)) /\
       _extract_last_number (String "-" ds)
       = Ok (PyFloat.neg (PyFloat.round (Qmake (Z.of_N n) 1))) /\
       ((Z.of_N n <= 2 ^ 53)%Z ->
        _extract_last_number ds = Ok (Finite (Qmake (Z.of_N n) 1)) /\
        _extract_last_number (String "-" ds) = Ok (Finite (Qmake (- Z.of_N n) 1))) /\
       ((2 ^ 1024 <= Z.of_N n)%Z ->
        _extract_last_number ds = Ok (Infinite false) /\
        _extract_last_number (String "-" ds) = Ok (Infinite true)))
  /\
  _extract_last_number "9007199254740993" = Ok (Finite 9007199254740992)
  /\
  _extract_last_number "98.50000000000000001" = Ok (Finite (197 # 2)).
Proof.
  split; [|split; [|split; [|split; [|split; [|split; [|split; [|split]]]]]]].
  - intros text H. unfold _extract_last_number.
    apply findall_nil in H. now rewrite H.
  - intros text H. unfold _extract_last_number.
    destruct (last_of (findall text)) as [tok|] eqn:El.
    + destruct (Scan_last _ _ _ (findall_Scan text) El) as (pre & suf & E & Hn & Hd).
      destruct (python_float_token tok Hn) as [q Hq].
      exists pre, tok, suf, q. rewrite Hq. repeat split; assumption.
    + apply last_of_none, findall_nil in El. congruence.
  - exact findall_Scan.
  - split; [exact (proj1 extract_examples) | reflexivity].
  - exact (proj1 (proj2 extract_examples)).
  - exact (proj1 (proj2 (proj2 extract_examples))).
  - exact extract_integer.
  - exact (proj1 (proj2 (proj2 (proj2 extract_examples)))).
  - exact (proj2 (proj2 (proj2 (proj2 extract_examples)))).
Qed.

Lemma extract_last_number_spec_witness :
  has_digit "about 7 errors, score 61.5 of 100." = true /\
  exists pre tok suf q,
    "about 7 errors, score 61.5 of 100." = pre ++ tok ++ suf /\
    numeric_token tok /\ has_digit suf = false /\
    last_of (findall "about 7 errors, score 61.5 of 100.") = Some tok /\
    python_float tok = Ok q /\
    _extract_last_number "about 7 errors, score 61.5 of 100." = Ok q.
Proof.
  split; [reflexivity|].
  apply (proj1 (proj2 extract_last_number_spec)). reflexivity.
Defined.

End ExtractLastNumber.

(** * Prompt builders *)


Section Format.

Lemma substring_here (v rest : string) : substring_of v (v ++ rest).
Proof. now exists "", rest. Qed.

Lemma substring_cons (c : ascii) (v s : string) :
  substring_of v s -> substring_of v (String c s).
Proof. intros (pre & suf & ->). now exists (String c pre), suf. Qed.

Lemma substring_skip (a v s : string) :
  substring_of v s -> substring_of v (a ++ s).
Proof.
  intros (pre & suf & ->). exists (a ++ pre), suf. now rewrite append_assoc.
Qed.

Lemma mem_In (name : string) (names : list string) :
  mem name names = true <-> In name names.
Proof.
  unfold mem. rewrite existsb_exists. split.
  - intros (x & Hx & E). apply String.eqb_eq in E. now subst.
  - intros H. exists name. split; [assumption|apply String.eqb_refl].
Qed.

Lemma render_total (kw : kwargs) (segs : list segment) :
  (forall name, In name (segment_fields segs) -> exists v, lookup kw name = Ok v) ->
  exists out, render kw segs = Ok out.
Proof.
  induction segs as [|[c|name] segs IH]; simpl; intros H.
  - eauto.
  - destruct (IH H) as [out ->]. eauto.
  - destruct (H name (or_introl eq_refl)) as [v ->].
    destruct (IH (fun n Hn => H n (or_intror Hn))) as [out ->]. eauto.
Qed.

Lemma render_field (kw : kwargs) (segs : list segment) (name v out : string) :
  In name (segment_fields segs) -> lookup kw name = Ok v ->
  render kw segs = Ok out -> substring_of v out.
Proof.
  revert out. induction segs as [|[c|n] segs IH]; simpl; intros out Hin Hv Hr.
  - contradiction.
  - destruct (render kw segs) as [rest|]; [|discriminate].
    injection Hr as <-. apply substring_cons. now apply IH.
  - destruct (lookup kw n) as [w|] eqn:Hw; [|discriminate].
    destruct (render kw segs) as [rest|]; [|discriminate].
    injection Hr as <-. destruct Hin as [-> | Hin].
    + rewrite Hv in Hw. injection Hw as <-. apply substring_here.
    + apply substring_skip. now apply IH.
Qed.

(** A template whose fields are all supplied is rendered, and every supplied
    value that the template names occurs in the result as it was given. *)
Lemma format_carries (template : string) (names : list string) (kw : kwargs) :
  uses_exactly template names = true ->
  (forall n, In n names -> exists v, lookup kw n = Ok v) ->
  exists out,
    format template kw = Ok out /\
    forall n v, In n names -> lookup kw n = Ok v -> substring_of v out.
Proof.
  unfold uses_exactly, format. intros Hu Hkw.
  destruct (parse_template template None) as [segs|]; [|discriminate].
  apply andb_true_iff in Hu as [Hall Hsub].
  rewrite forallb_forall in Hall, Hsub.
  destruct (render_total kw segs) as [out Hout].
  { intros name Hn. apply Hkw, mem_In, Hsub, Hn. }
  exists out. split; [assumption|].
  intros n v Hn Hv. apply (render_field kw segs n v out); try assumption.
  now apply mem_In, Hall.
Qed.


Lemma payload_kwargs_total (payload : ScoreRequest.t) (extra : kwargs) (n : string) :
  In n request_fields -> exists v, lookup (payload_kwargs payload ++ extra)%list n = Ok v.
Proof.
  intros [<- | [<- | [<- | [<- | []]]]]; simpl; eauto.
Qed.

Lemma request_template_carries (template : string) (payload : ScoreRequest.t) :
  uses_exactly template request_fields = true ->
  exists out, format template (payload_kwargs payload) = Ok out /\ carries payload out.
Proof.
  intros Hu.
  destruct (format_carries template request_fields (payload_kwargs payload) Hu)
    as (out & Hout & Hc).
  { intros n Hn. destruct (payload_kwargs_total payload [] n Hn) as [v Hv].
    rewrite app_nil_r in Hv. eauto. }
  exists out. split; [assumption|].
  unfold carries. repeat split;
    [ apply (Hc "source_lang") | apply (Hc "target_lang")
    | apply (Hc "source_text") | apply (Hc "target_text") ];
    simpl; auto.
Qed.

Lemma gemba_da_prompt_fields :
  uses_exactly gemba_da_prompt_template request_fields = true.
Proof. vm_compute. reflexivity. Qed.

Lemma gemba_mqm_final_user_fields :
  uses_exactly gemba_mqm_final_user_template request_fields = true.
Proof. vm_compute. reflexivity. Qed.

Lemma gemba_esa_error_prompt_fields :
  uses_exactly gemba_esa_error_prompt_template request_fields = true.
Proof. vm_compute. reflexivity. Qed.

Lemma structured_da_user_message_fields :
  uses_exactly structured_da_user_message_template request_fields = true.
Proof. vm_compute. reflexivity. Qed.

Lemma gemba_esa_scoring_prompt_fields :
  uses_exactly gemba_esa_scoring_prompt_template (request_fields ++ ["errors"])%list = true.
Proof. vm_compute. reflexivity. Qed.

Lemma gemba_esa_scoring_prompt_carries (payload : ScoreRequest.t) (errors : string) :
  exists out,
    gemba_esa_scoring_prompt payload errors = Ok out /\
    carries payload out /\ substring_of errors out.
Proof.
  destruct (format_carries gemba_esa_scoring_prompt_template
              (request_fields ++ ["errors"])%list
              (payload_kwargs payload ++ [("errors", errors)])%list
              gemba_esa_scoring_prompt_fields)
    as (out & Hout & Hc).
  { intros n Hn. apply in_app_or in Hn as [Hn | [<- | []]].
    - now apply payload_kwargs_total.
    - simpl. eauto. }
  exists out. split; [exact Hout|].
  unfold carries. repeat split;
    [ apply (Hc "source_lang") | apply (Hc "target_lang")
    | apply (Hc "source_text") | apply (Hc "target_text")
    | apply (Hc "errors") ];
    simpl; auto 10.
Qed.

(** C9. Each of the five builders that take a request is a function of its
    arguments alone: it asks nothing of the client, and for every request it
    returns a prompt, never an exception.  The prompt holds the source
    language, the target language, the source text and the target text as
    contiguous substrings, exactly as they stand in the request; the second
    ESA prompt holds the error annotation it is given in the same way. *)
Theorem prompt_builders_carry_request (payload : ScoreRequest.t) (errors : string) :
  (exists out, gemba_da_prompt payload = Ok out /\ carries payload out) /\
  (exists out, gemba_mqm_final_user payload = Ok out /\ carries payload out) /\
  (exists out, gemba_esa_error_prompt payload = Ok out /\ carries payload out) /\
  (exists out, gemba_esa_scoring_prompt payload errors = Ok out /\
               carries payload out /\ substring_of errors out) /\
  (exists out, structured_da_user_message payload = Ok out /\ carries payload out).
Proof.
  repeat split.
  - exact (request_template_carries _ payload gemba_da_prompt_fields).
  - exact (request_template_carries _ payload gemba_mqm_final_user_fields).
  - exact (request_template_carries _ payload gemba_esa_error_prompt_fields).
  - exact (gemba_esa_scoring_prompt_carries payload errors).
  - exact (request_template_carries _ payload structured_da_user_message_fields).
Qed.

End Format.

(** * The orchestrator *)

Section Orchestrator.

Context {S : Type} {client : LLMClientProtocol S} {serializer : Serializer}.
Variable self : ScoringService.t.

Local Open Scope await_scope.

Lemma run_bind {A B : Type} (m : Await A) (f : A -> Await B) (s : S) :
  run (LLM.bind m f) s =
  match run m s with
  | (Ok a, s', calls) =>
      let '(res, s'', calls') := run (f a) s' in (res, s'', (calls ++ calls')%list)
  | (Raise e, s', calls) => (Raise e, s', calls)
  end.
Proof.
  revert s. induction m as [a | e | messages k IH | M messages k IH]; intros s; simpl.
  - now destruct (run (f a) s) as [[res s''] calls'].
  - reflexivity.
  - destruct (complete s messages) as [[r | e] s']; [|reflexivity].
    rewrite IH. destruct (run (k r) s') as [[[a | e] s''] calls]; [|reflexivity].
    now destruct (run (f a) s'') as [[res s3] calls'].
  - destruct (parse M s messages) as [[r | e] s']; [|reflexivity].
    rewrite IH. destruct (run (k r) s') as [[[a | e] s''] calls]; [|reflexivity].
    now destruct (run (f a) s'') as [[res s3] calls'].
Qed.

Lemma run_lift {A : Type} (r : Result A) (s : S) : run (lift r) s = (r, s, []).
Proof. now destruct r. Qed.

Lemma run_complete (messages : list ChatMessage) (s : S) :
  run (await_complete messages) s =
  (fst (complete s messages), snd (complete s messages), [CompleteCall messages]).
Proof.
  unfold await_complete. simpl. now destruct (complete s messages) as [[r | e] s'].
Qed.

Lemma run_parse (M : ResponseModel) (messages : list ChatMessage) (s : S) :
  run (await_parse M messages) s =
  (fst (parse M s messages), snd (parse M s messages), [ParseCall M messages]).
Proof.
  unfold await_parse. simpl. now destruct (parse M s messages) as [[r | e] s'].
Qed.

Lemma score_member (payload : ScoreRequest.t) (m : ScoringMethod) :
  ScoreRequest.method payload = Member m ->
  ScoringService.score self payload =
  match m with
  | GEMBA_DA => ScoringService._score_gemba_da self payload
  | GEMBA_MQM => ScoringService._score_gemba_mqm self payload
  | GEMBA_ESA => ScoringService._score_gemba_esa self payload
  | STRUCTURED_DA => ScoringService._score_structured_da self payload
  end.
Proof.
  unfold ScoringService.score. intros ->. now destruct m.
Qed.

(** C3. For a request whose method is GEMBA-ESA the orchestrator builds the
    error prompt and sends it; when the client answers [r1] it builds the
    scoring prompt, which holds [r1] as a contiguous substring, and sends it
    from the state the first call left; when the client answers [r2] the run
    is over.  The run made these two [complete] calls and no other, in this
    order; the score is [_extract_last_number r2]; and the raw response is
    [r1] and [r2] joined under the two headings. *)
Theorem gemba_esa_two_calls (payload : ScoreRequest.t) (s0 : S) :
  ScoreRequest.method payload = Member GEMBA_ESA ->
  exists p1,
    gemba_esa_error_prompt payload = Ok p1 /\
    forall r1 s1,
      complete s0 [ScoringService.user p1] = (Ok r1, s1) ->
      exists p2,
        gemba_esa_scoring_prompt payload r1 = Ok p2 /\
        substring_of r1 p2 /\
        forall r2 s2,
          complete s1 [ScoringService.user p2] = (Ok r2, s2) ->
          run (ScoringService.score self payload) s0 =
          (match _extract_last_number r2 with
           | Ok sc =>
               Ok (ScoreComputation.Build (Member GEMBA_ESA) sc
                     (ScoringService._llm_model_name self)
                     ("Errors:" ++ nl ++ r1 ++ nl ++ "---" ++ nl ++ "Score:" ++ nl ++ r2)
                     None None None)
           | Raise e => Raise e
           end,
           s2,
           [CompleteCall [ScoringService.user p1];
            CompleteCall [ScoringService.user p2]]).
Proof.
  intros Hm.
  destruct (request_template_carries _ payload gemba_esa_error_prompt_fields)
    as (p1 & Hp1 & _).
  exists p1. split; [exact Hp1|]. intros r1 s1 H1.
  destruct (gemba_esa_scoring_prompt_carries payload r1) as (p2 & Hp2 & _ & Hsub).
  exists p2. split; [exact Hp2|]. split; [exact Hsub|]. intros r2 s2 H2.
  rewrite (score_member payload GEMBA_ESA Hm).
  unfold ScoringService._score_gemba_esa.
  fold (gemba_esa_error_prompt payload) in Hp1.
  rewrite Hp1, Hm. cbn [lift LLM.bind await_complete run]. rewrite H1.
  rewrite Hp2. cbn [lift LLM.bind await_complete run]. rewrite H2.
  destruct (_extract_last_number r2); reflexivity.
Qed.

End Orchestrator.



Section Failures.

Context {S : Type} {client : LLMClientProtocol S} {serializer : Serializer}.
Variable self : ScoringService.t.

Lemma score_foreign (payload : ScoreRequest.t) (v : string) :
  ScoreRequest.method payload = Foreign v -> outside_enumeration v ->
  ScoringService.score self payload
  = Throw (ScoringServiceError ("Unsupported scoring method: " ++ v)).
Proof.
  unfold ScoringService.score, outside_enumeration. intros -> H. simpl.
  destruct (String.eqb_spec v "GEMBA-DA") as [E|_]; [now elim (H GEMBA_DA)|].
  destruct (String.eqb_spec v "GEMBA-MQM") as [E|_]; [now elim (H GEMBA_MQM)|].
  destruct (String.eqb_spec v "GEMBA-ESA") as [E|_]; [now elim (H GEMBA_ESA)|].
  destruct (String.eqb_spec v "STRUCTURED-DA") as [E|_]; [now elim (H STRUCTURED_DA)|].
  reflexivity.
Qed.

(** C4, as the code has it.  A method value outside the enumeration makes
    [score] raise [ScoringServiceError] with the message
    "Unsupported scoring method: " followed by the value, before any request
    to the client; the handler answers it with status 500 and writes no row. *)
Theorem unsupported_method_raises_scoring_error
    (payload : ScoreRequest.t) (v app_id : string)
    (new_id : UUID) (now : datetime) (s : S) (db : Table) :
  ScoreRequest.method payload = Foreign v -> outside_enumeration v ->
  run (ScoringService.score self payload) s
  = (Raise (ScoringServiceError ("Unsupported scoring method: " ++ v)), s, [])
  /\
  score_translation payload app_id self new_id now s db
  = (Raise (HTTPException 500 ("Unsupported scoring method: " ++ v)), s, db, []).
Proof.
  intros Hm Hv. unfold score_translation.
  rewrite (score_foreign payload v Hm Hv). split; reflexivity.
Qed.

(** The three causes of a scoring failure. *)
Lemma response_without_number (payload : ScoreRequest.t) (prompt response : string)
    (s s1 : S) :
  ScoreRequest.method payload = Member GEMBA_DA ->
  gemba_da_prompt payload = Ok prompt ->
  complete s [ScoringService.user prompt] = (Ok response, s1) ->
  has_digit response = false ->
  run (ScoringService.score self payload) s
  = (Raise (ScoringServiceError "Could not parse numeric score from LLM response"),
     s1, [CompleteCall [ScoringService.user prompt]]).
Proof.
  intros Hm Hp Hc Hd. rewrite (score_member self payload GEMBA_DA Hm).
  unfold ScoringService._score_gemba_da. rewrite Hp.
  cbn [lift LLM.bind await_complete run]. rewrite Hc.
  unfold _extract_last_number. rewrite (proj2 (findall_nil response) Hd).
  reflexivity.
Qed.

Lemma response_without_payload (payload : ScoreRequest.t) (message : string)
    (c : Choice StructuredDAReturn.t) (cs : list (Choice StructuredDAReturn.t))
    (s s1 : S) :
  ScoreRequest.method payload = Member STRUCTURED_DA ->
  structured_da_user_message payload = Ok message ->
  parse StructuredDAReturn_model s
    [ScoringService.system structured_da_system_message; ScoringService.user message]
  = (Ok {| choices := c :: cs |}, s1) ->
  parsed (LLM.message c) = None ->
  exists calls,
    run (ScoringService.score self payload) s
    = (Raise (ScoringServiceError "LLM response missing structured payload"), s1, calls).
Proof.
  intros Hm Hp Hc Hd. rewrite (score_member self payload STRUCTURED_DA Hm).
  unfold ScoringService._score_structured_da. rewrite Hp.
  cbn [lift LLM.bind await_parse run]. rewrite Hc.
  unfold _expect_parsed. simpl. rewrite Hd. eexists. reflexivity.
Qed.

Lemma client_failure (payload : ScoreRequest.t) (prompt : string) (e : exn) (s s1 : S) :
  ScoreRequest.method payload = Member GEMBA_DA ->
  gemba_da_prompt payload = Ok prompt ->
  complete s [ScoringService.user prompt] = (Raise e, s1) ->
  run (ScoringService.score self payload) s
  = (Raise e, s1, [CompleteCall [ScoringService.user prompt]]).
Proof.
  intros Hm Hp Hc. rewrite (score_member self payload GEMBA_DA Hm).
  unfold ScoringService._score_gemba_da. rewrite Hp.
  cbn [lift LLM.bind await_complete run]. now rewrite Hc.
Qed.

(** C5. When the scoring of a validated request raises, whether for want of
    a number, for want of a structured payload or because the client
    failed, the route returns no response body: it raises, the status is
    500, and the table is the one it started from. *)
Theorem scoring_failure_persists_nothing
    (x_app_id : option string) (body : ScoreRequestBody.t)
    (app_id : string) (payload : ScoreRequest.t)
    (new_id : UUID) (now : datetime) (s s' : S) (db : Table)
    (e : exn) (calls : list Call) :
  require_app_id x_app_id = Ok app_id ->
  validate body = Ok payload ->
  run (ScoringService.score self payload) s = (Raise e, s', calls) ->
  server_error e = true ->
  exists e',
    post_score x_app_id body self new_id now s db = (Raise e', s', db, calls) /\
    status_code (Raise e' : Result ScoreResponse.t) = 500%Z.
Proof.
  intros Ha Hb Hr He. unfold post_score, score_translation.
  rewrite Ha, Hb, Hr.
  destruct e; try discriminate He; eauto.
Qed.

End Failures.

Lemma fake_scores :
  _extract_last_number "Score (0-100): 87.0" = Ok (Finite 87) /\
  _extract_last_number "98.5" = Ok (Finite (197 # 2)).
Proof. split; vm_compute; reflexivity. Qed.

Lemma gemba_esa_two_calls_witness :
  exists p1 p2 res,
    substring_of "no-error" p2 /\
    ScoreComputation.score res = Finite 87 /\
    run (client := FakeLLMClient.client)
        (ScoringService.score Fixtures.service (Fixtures.request (Member GEMBA_ESA)))
        FakeLLMClient.init
    = (Ok res, [p1; p2],
       [CompleteCall [ScoringService.user p1]; CompleteCall [ScoringService.user p2]]).
Proof.
  destruct (gemba_esa_two_calls (client := FakeLLMClient.client)
              (serializer := Fixtures.serializer) Fixtures.service
              (Fixtures.request (Member GEMBA_ESA)) FakeLLMClient.init eq_refl)
    as (p1 & Hp1 & K).
  vm_compute in Hp1. injection Hp1 as <-.
  destruct (K "no-error" [_] eq_refl) as (p2 & Hp2 & Hsub & K2).
  vm_compute in Hp2. injection Hp2 as <-.
  specialize (K2 "Score (0-100): 87.0" [_; _] eq_refl).
  rewrite (proj1 fake_scores) in K2.
  eexists _, _, _. split; [exact Hsub|]. split; [|exact K2]. reflexivity.
Defined.

Lemma unsupported_method_raises_scoring_error_witness :
  run (client := FakeLLMClient.client)
      (ScoringService.score Fixtures.service (Fixtures.request (Foreign "BLEU")))
      FakeLLMClient.init
  = (Raise (ScoringServiceError "Unsupported scoring method: BLEU"), FakeLLMClient.init, [])
  /\
  score_translation (client := FakeLLMClient.client) (serializer := Fixtures.serializer)
      (Fixtures.request (Foreign "BLEU")) "unit-test" Fixtures.service 1%N 0%Z
      FakeLLMClient.init []
  = (Raise (HTTPException 500 "Unsupported scoring method: BLEU"),
     FakeLLMClient.init, [], []).
Proof.
  apply (unsupported_method_raises_scoring_error (client := FakeLLMClient.client)
           (serializer := Fixtures.serializer) Fixtures.service
           (Fixtures.request (Foreign "BLEU")) "BLEU" "unit-test" 1%N 0%Z
           FakeLLMClient.init [] eq_refl).
  intros m. destruct m; discriminate.
Defined.

(** C4, as it is written, fails: the exception raised for the unknown method
    "BLEU" is an instance of the class that a response without a number
    raises, it is no [UnsupportedMethodError], and the handler answers both
    with the same status. *)
Lemma unsupported_method_error_not_distinct :
  exists e1 e2 s calls,
    run (client := FakeLLMClient.client)
        (ScoringService.score Fixtures.service (Fixtures.request (Foreign "BLEU")))
        FakeLLMClient.init
    = (Raise e1, s, calls) /\
    _extract_last_number "no-error" = Raise e2 /\
    exn_class e1 = exn_class e2 /\
    exn_class e1 <> "UnsupportedMethodError".
Proof.
  exists (ScoringServiceError "Unsupported scoring method: BLEU"),
         (ScoringServiceError "Could not parse numeric score from LLM response"),
         FakeLLMClient.init, [].
  repeat split; discriminate.
Qed.

Lemma scoring_failure_persists_nothing_witness :
  exists e' calls,
    post_score (client := Fixtures.mute_client) (serializer := Fixtures.serializer)
      (Some "unit-test") (Fixtures.body "GEMBA-DA") Fixtures.service 1%N 0%Z tt []
    = (Raise e', tt, [], calls) /\
    status_code (Raise e' : Result ScoreResponse.t) = 500%Z.
Proof.
  edestruct (scoring_failure_persists_nothing (client := Fixtures.mute_client)
               (serializer := Fixtures.serializer) Fixtures.service
               (Some "unit-test") (Fixtures.body "GEMBA-DA") "unit-test"
               (Fixtures.request (Member GEMBA_DA)) 1%N 0%Z tt tt [])
    as (e' & H1 & H2).
  - reflexivity.
  - reflexivity.
  - lazy. reflexivity.
  - reflexivity.
  - exists e'. eexists. split; [exact H1 | exact H2].
Defined.

(** The three causes of a scoring failure, on the fixtures: a response
    without a number, a response without a structured payload, and a client
    that fails. *)
Example failure_without_number :
  fst (fst (run (client := Fixtures.mute_client)
         (ScoringService.score Fixtures.service (Fixtures.request (Member GEMBA_ESA))) tt))
  = Raise (ScoringServiceError "Could not parse numeric score from LLM response").
Proof. vm_compute. reflexivity. Qed.

Example failure_without_payload :
  fst (fst (run (client := Fixtures.mute_client)
         (ScoringService.score Fixtures.service (Fixtures.request (Member GEMBA_MQM))) tt))
  = Raise (ScoringServiceError "LLM response missing structured payload").
Proof. vm_compute. reflexivity. Qed.

Example failure_of_client :
  fst (fst (run (client := Fixtures.down_client)
         (ScoringService.score Fixtures.service (Fixtures.request (Member STRUCTURED_DA))) tt))
  = Raise (LLMClientError "connection refused").
Proof. vm_compute. reflexivity. Qed.

Section Results.

Context {S : Type} {client : LLMClientProtocol S} {serializer : Serializer}.
Variable self : ScoringService.t.

(** C6. A result of STRUCTURED-DA holds an adequacy, a fluency and a
    rationale; a result of GEMBA-MQM holds a rationale and neither adequacy
    nor fluency; a result of GEMBA-DA or GEMBA-ESA holds none of the three. *)
Theorem result_fields_by_method
    (payload : ScoreRequest.t) (m : ScoringMethod) (s s' : S)
    (res : ScoreComputation.t) (calls : list Call) :
  ScoreRequest.method payload = Member m ->
  run (ScoringService.score self payload) s = (Ok res, s', calls) ->
  match m with
  | STRUCTURED_DA =>
      (exists a, ScoreComputation.adequacy res = Some a) /\
      (exists f, ScoreComputation.fluency res = Some f) /\
      (exists r, ScoreComputation.rationale res = Some r)
  | GEMBA_MQM =>
      (exists r, ScoreComputation.rationale res = Some r) /\
      ScoreComputation.adequacy res = None /\
      ScoreComputation.fluency res = None
  | GEMBA_DA | GEMBA_ESA =>
      ScoreComputation.adequacy res = None /\
      ScoreComputation.fluency res = None /\
      ScoreComputation.rationale res = None
  end.
Proof.
  intros Hm. rewrite (score_member self payload m Hm).
  destruct m.
  - unfold ScoringService._score_gemba_da.
    destruct (gemba_da_prompt payload) as [prompt|]; cbn [lift LLM.bind await_complete run];
      [|discriminate].
    destruct (complete s _) as [[response|] s1]; [|discriminate].
    destruct (_extract_last_number response); cbn [lift LLM.bind run]; [|discriminate].
    intros [= <- _ _]; simpl; repeat split; eauto.
  - unfold ScoringService._score_gemba_mqm.
    destruct (gemba_mqm_final_user payload) as [final|];
      cbn [lift LLM.bind await_parse run]; [|discriminate].
    destruct (parse _ s _) as [[raw|] s1]; [|discriminate].
    destruct (_expect_parsed raw) as [parsed|]; cbn [lift LLM.bind run]; [|discriminate].
    intros [= <- _ _]; simpl; repeat split; eauto.
  - unfold ScoringService._score_gemba_esa.
    destruct (gemba_esa_error_prompt payload) as [p1|];
      cbn [lift LLM.bind await_complete run]; [|discriminate].
    destruct (complete s _) as [[r1|] s1]; [|discriminate].
    destruct (gemba_esa_scoring_prompt payload r1) as [p2|];
      cbn [lift LLM.bind await_complete run]; [|discriminate].
    destruct (complete s1 _) as [[r2|] s2]; [|discriminate].
    destruct (_extract_last_number r2); cbn [lift LLM.bind run]; [|discriminate].
    intros [= <- _ _]; simpl; repeat split; eauto.
  - unfold ScoringService._score_structured_da.
    destruct (structured_da_user_message payload) as [message|];
      cbn [lift LLM.bind await_parse run]; [|discriminate].
    destruct (parse _ s _) as [[raw|] s1]; [|discriminate].
    destruct (_expect_parsed raw) as [parsed|]; cbn [lift LLM.bind run]; [|discriminate].
    intros [= <- _ _]; simpl; repeat split; eauto.
Qed.

End Results.

Lemma result_fields_by_method_witness :
  exists res s' calls,
    run (client := FakeLLMClient.client)
        (ScoringService.score Fixtures.service (Fixtures.request (Member STRUCTURED_DA)))
        FakeLLMClient.init
    = (Ok res, s', calls) /\
    (exists a, ScoreComputation.adequacy res = Some a) /\
    (exists f, ScoreComputation.fluency res = Some f) /\
    (exists r, ScoreComputation.rationale res = Some r).
Proof.
  eexists _, _, _. split.
  - lazy. reflexivity.
  - eapply (result_fields_by_method (client := FakeLLMClient.client)
              (serializer := Fixtures.serializer) Fixtures.service
              (Fixtures.request (Member STRUCTURED_DA)) STRUCTURED_DA
              FakeLLMClient.init _ _ _ eq_refl).
    lazy. reflexivity.
Defined.

(** * The header check *)


Section Strip.

Lemma lstrip_spec (s : string) :
  exists pre, s = pre ++ lstrip s /\ all_space pre = true /\ head_space (lstrip s) = false.
Proof.
  induction s as [|c s (pre & E & Hp & Hh)]; simpl.
  - now exists "".
  - destruct (is_space c) eqn:Hc.
    + exists (String c pre). simpl. rewrite Hc, Hp. repeat split; [now f_equal | assumption].
    + exists "". simpl. auto.
Qed.

Lemma rstrip_spec (s : string) :
  exists suf, s = rstrip s ++ suf /\ all_space suf = true /\ last_space (rstrip s) = false.
Proof.
  induction s as [|c s (suf & E & Hs & Hl)]; simpl.
  - now exists "".
  - destruct (rstrip s) as [|d r] eqn:Er.
    + destruct (is_space c) eqn:Hc.
      * exists (String c s). simpl in E. subst suf. simpl. rewrite Hc, Hs. auto.
      * exists s. simpl in *. subst suf. rewrite Hc. auto.
    + exists suf. repeat split; [simpl in *; now f_equal | assumption | exact Hl].
Qed.

Lemma rstrip_head (s : string) :
  head_space s = false -> head_space (rstrip s) = false.
Proof.
  destruct s as [|c s]; simpl; [reflexivity|]. intros Hc.
  destruct (rstrip s); [now rewrite Hc | exact Hc].
Qed.

Lemma strip_trimmed (h : string) : trimmed h (strip h).
Proof.
  unfold trimmed, strip.
  destruct (lstrip_spec h) as (pre & E1 & Hpre & Hh).
  destruct (rstrip_spec (lstrip h)) as (suf & E2 & Hsuf & Hl).
  repeat split; [|now apply rstrip_head | assumption].
  exists pre, suf. repeat split; [|assumption..].
  rewrite E1 at 1. now rewrite E2 at 1.
Qed.

Lemma strip_empty (h : string) : strip h = "" <-> all_space h = true.
Proof.
  destruct (strip_trimmed h) as ((pre & suf & E & Hp & Hs) & _ & _). split.
  - intros H0. rewrite H0 in E. simpl in E. rewrite E.
    clear E H0. induction pre as [|c pre IH]; simpl in *; [assumption|].
    apply andb_true_iff in Hp as [-> Hp]. now apply IH.
  - intros Hall. destruct (strip h) as [|c t] eqn:Et; [reflexivity|]. exfalso.
    destruct (strip_trimmed h) as (_ & Hh & _). rewrite Et in Hh. simpl in Hh.
    assert (Hin : forall a b, all_space (a ++ b) = true -> all_space b = true).
    { induction a as [|x a IH]; simpl; intros b Hb; [assumption|].
      apply andb_true_iff in Hb as [_ Hb]. now apply IH. }
    rewrite E in Hall. apply Hin in Hall. simpl in Hall.
    apply andb_true_iff in Hall as [Hc _]. congruence.
Qed.


Lemma require_app_id_present (h : string) :
  strip h <> "" -> require_app_id (Some h) = Ok (strip h).
Proof.
  intros Hh. unfold require_app_id.
  destruct (String.eqb_spec h "") as [-> | _]; [now elim Hh|].
  destruct (String.eqb_spec (strip h) "") as [E | _]; [now elim Hh|].
  reflexivity.
Qed.

End Strip.

Section HeaderCheck.

Context {S : Type} {client : LLMClientProtocol S} {serializer : Serializer}.
Variable scoring_service : ScoringService.t.


(** C10. A header that is not empty once stripped is accepted, and the
    application identifier is the header without the whitespace around it.
    When the request is then scored, the route appends one row whose
    [app_id] is that stripped value, and the [app_id] filter of the listing
    selects the row for that value and for no other. *)
Theorem stored_app_id_is_stripped_header
    (h : string) (body : ScoreRequestBody.t)
    (new_id : UUID) (now : datetime) (s : S) (db : Table) :
  strip h <> "" ->
  require_app_id (Some h) = Ok (strip h)
  /\
  trimmed h (strip h)
  /\
  forall resp s' db' calls,
    post_score (Some h) body scoring_service new_id now s db = (Ok resp, s', db', calls) ->
    exists row,
      db' = (db ++ [row])%list /\
      TranslationScore.app_id row = strip h /\
      TranslationScore.id row = ScoreResponse.request_id resp /\
      forall a, a <> "" -> (row_selected None (Some a) row = true <-> a = strip h).
Proof.
  intros Hh. split; [now apply require_app_id_present|].
  split; [apply strip_trimmed|].
  intros resp s' db' calls. unfold post_score.
  rewrite (require_app_id_present h Hh).
  destruct (validate body) as [payload|]; [|discriminate].
  unfold score_translation.
  destruct (run (ScoringService.score scoring_service payload) s) as [[[result | e] s1] calls1].
  - destruct (method_value (ScoreRequest.method payload)) as [method_text|];
      [|discriminate].
    intros [= <- <- <- <-]. eexists. split; [reflexivity|].
    split; [reflexivity|]. split; [reflexivity|].
    intros a Ha. unfold row_selected. simpl.
    destruct (String.eqb_spec a "") as [E|_]; [now elim Ha|].
    rewrite String.eqb_eq. split; congruence.
  - destruct e; discriminate.
Qed.

End HeaderCheck.


Lemma fake_post_score_widget :
  exists resp s' row calls,
    post_score (client := FakeLLMClient.client) (Some "  widget-a ")
      (Fixtures.body "GEMBA-DA") Fixtures.service 1%N 0%Z FakeLLMClient.init []
    = (Ok resp, s', [row], calls).
Proof. vm_compute. eexists _, _, _, _. reflexivity. Qed.

Lemma stored_app_id_is_stripped_header_witness :
  require_app_id (Some "  widget-a ") = Ok "widget-a" /\
  exists resp s' row calls,
    post_score (client := FakeLLMClient.client) (Some "  widget-a ")
      (Fixtures.body "GEMBA-DA") Fixtures.service 1%N 0%Z FakeLLMClient.init []
    = (Ok resp, s', [row], calls) /\
    TranslationScore.app_id row = "widget-a".
Proof.
  destruct (stored_app_id_is_stripped_header (client := FakeLLMClient.client)
              Fixtures.service "  widget-a " (Fixtures.body "GEMBA-DA") 1%N 0%Z
              FakeLLMClient.init [])
    as (H1 & _ & H3).
  - discriminate.
  - split; [exact H1|].
    destruct fake_post_score_widget as (resp & s' & row & calls & E).
    destruct (H3 resp s' [row] calls E) as (row' & Erow & Ha & _).
    injection Erow as ->.
    exists resp, s', row', calls. split; [exact E | exact Ha].
Defined.

(** * The listing *)


Section Listing.

Lemma in_firstn {A : Type} (n : nat) (l : list A) (x : A) :
  In x (firstn n l) -> In x l.
Proof.
  intros H. rewrite <- (firstn_skipn n l). apply in_or_app. now left.
Qed.

Lemma ScoringMethod_of_value (m : ScoringMethod) : ScoringMethod_of (value m) = Ok m.
Proof. now destruct m. Qed.

Lemma to_record_represents (row : TranslationScore.t) :
  stored_method_valid row -> exists rec, to_record row = Ok rec /\ represents row rec.
Proof.
  intros [m Hm]. unfold to_record. rewrite Hm, ScoringMethod_of_value.
  eexists. split; [reflexivity|]. unfold represents. simpl. rewrite Hm. tauto.
Qed.

Lemma to_records_represents (rows : list TranslationScore.t) :
  Forall stored_method_valid rows ->
  exists recs, to_records rows = Ok recs /\ Forall2 represents rows recs.
Proof.
  induction 1 as [|row rows Hrow _ (recs & E & IH)]; simpl.
  - eauto.
  - destruct (to_record_represents row Hrow) as (rec & -> & Hrec).
    rewrite E. eauto.
Qed.

Lemma insert_desc_perm (r : TranslationScore.t) (l : list TranslationScore.t) :
  Permutation (insert_desc r l) (r :: l).
Proof.
  induction l as [|x l IH]; simpl; [reflexivity|].
  destruct (TranslationScore.created_at x <=? TranslationScore.created_at r)%Z;
    [reflexivity|].
  rewrite IH. apply perm_swap.
Qed.

Lemma order_perm (l : list TranslationScore.t) :
  Permutation (order_by_created_at_desc l) l.
Proof.
  induction l as [|x l IH]; simpl; [reflexivity|].
  rewrite insert_desc_perm. now constructor.
Qed.

Lemma insert_desc_sorted (r : TranslationScore.t) (l : list TranslationScore.t) :
  StronglySorted newer_first l -> StronglySorted newer_first (insert_desc r l).
Proof.
  induction 1 as [|x l Hs IH Hx]; simpl.
  - repeat constructor.
  - destruct (Z.leb_spec (TranslationScore.created_at x) (TranslationScore.created_at r))
      as [Hle | Hlt].
    + constructor; [now constructor|]. constructor; [exact Hle|].
      eapply Forall_impl; [|exact Hx]. unfold newer_first. intros y Hy. lia.
    + constructor; [exact IH|].
      eapply Permutation_Forall; [symmetry; apply insert_desc_perm|].
      constructor; [unfold newer_first; lia | exact Hx].
Qed.

Lemma order_sorted (l : list TranslationScore.t) :
  StronglySorted newer_first (order_by_created_at_desc l).
Proof.
  induction l as [|x l IH]; simpl; [constructor|]. now apply insert_desc_sorted.
Qed.

Lemma row_selected_passes (threshold : option float) (app_id : option string)
    (row : TranslationScore.t) :
  (forall a, app_id = Some a -> a <> "") ->
  row_selected threshold app_id row = true <-> passes threshold app_id row.
Proof.
  intros Ha. unfold row_selected, passes. rewrite andb_true_iff. split.
  - intros [Ht Hi]. split.
    + intros th ->. now apply leb_le.
    + intros a ->. destruct (String.eqb_spec a "") as [E|_]; [now elim (Ha a)|].
      now apply String.eqb_eq.
  - intros [Ht Hi]. split.
    + destruct threshold as [th|]; [|reflexivity]. now apply leb_le, Ht.
    + destruct app_id as [a|]; [|reflexivity].
      destruct (String.eqb a ""); [reflexivity|]. now apply String.eqb_eq, Hi.
Qed.

Lemma query_in_bounds (limit : option Z) (threshold : option float)
    (app_id : option string) :
  in_bounds limit threshold app_id ->
  query_limit limit = Ok (Z.of_nat (limit_of limit)) /\
  query_threshold threshold = Ok threshold /\
  query_app_id app_id = Ok app_id.
Proof.
  intros (Hl & Ht & Ha). repeat split.
  - destruct limit as [n|]; [|reflexivity]. simpl.
    destruct (Hl n eq_refl) as [H1 H2].
    rewrite (proj2 (Z.leb_le 1 n) H1), (proj2 (Z.leb_le n 200) H2). simpl.
    f_equal. lia.
  - destruct threshold as [th|]; [|reflexivity]. unfold query_threshold.
    destruct (Ht th eq_refl) as [H1 H2].
    now rewrite (proj2 (leb_le (Finite 0) th) H1), (proj2 (leb_le th (Finite 100)) H2).
  - destruct app_id as [a|]; [|reflexivity]. simpl.
    destruct a as [|c a]; [now elim (Ha "")|reflexivity].
Qed.

(** The listing returns, and what it returns shows the first rows of the
    selected ones put newest first. *)
Lemma get_scores_rows (limit : option Z) (threshold : option float)
    (app_id : option string) (db : Table) :
  Forall stored_method_valid db ->
  in_bounds limit threshold app_id ->
  exists rows recs,
    get_scores limit threshold app_id db = Ok recs /\
    Permutation rows (filter (row_selected threshold app_id) db) /\
    StronglySorted newer_first rows /\
    Forall2 represents (firstn (limit_of limit) rows) recs.
Proof.
  intros Hdb Hb.
  destruct (query_in_bounds limit threshold app_id Hb) as (El & Et & Ea).
  unfold get_scores. rewrite El, Et, Ea. unfold list_scores, execute.
  rewrite Nat2Z.id.
  set (rows := order_by_created_at_desc (filter (row_selected threshold app_id) db)).
  assert (Hperm : Permutation rows (filter (row_selected threshold app_id) db))
    by apply order_perm.
  destruct (to_records_represents (firstn (limit_of limit) rows)) as (recs & E & Hrep).
  { apply Forall_forall. intros row Hrow.
    apply in_firstn in Hrow. apply (Permutation_in _ Hperm) in Hrow.
    apply filter_In in Hrow as [Hrow _].
    now apply (proj1 (Forall_forall _ _) Hdb). }
  exists rows, recs. repeat split; [exact E | exact Hperm | apply order_sorted | exact Hrep].
Qed.

End Listing.

Section ListingOrder.

Lemma sorted_app_inv {A : Type} (R : A -> A -> Prop) (a b : list A) :
  StronglySorted R (a ++ b)%list ->
  StronglySorted R a /\ forall x y, In x a -> In y b -> R x y.
Proof.
  induction a as [|h a IH]; simpl; intros H.
  - split; [constructor | contradiction].
  - apply StronglySorted_inv in H as [Hs Hh].
    destruct (IH Hs) as [Ha Hab]. split.
    + constructor; [exact Ha|].
      apply Forall_forall. intros x Hx.
      apply (proj1 (Forall_forall _ _) Hh). apply in_or_app. now left.
    + intros x y [<- | Hx] Hy.
      * apply (proj1 (Forall_forall _ _) Hh). apply in_or_app. now right.
      * now apply Hab.
Qed.

Lemma represents_left (rows : list TranslationScore.t)
    (recs : list TranslationScoreRecord.t) (rec : TranslationScoreRecord.t) :
  Forall2 represents rows recs -> In rec recs ->
  exists row, In row rows /\ represents row rec.
Proof.
  induction 1 as [|row r rows recs Hr _ IH]; simpl; [contradiction|].
  intros [<- | Hin]; [eauto|].
  destruct (IH Hin) as (row' & H1 & H2). eauto.
Qed.

Lemma represents_right (rows : list TranslationScore.t)
    (recs : list TranslationScoreRecord.t) (row : TranslationScore.t) :
  Forall2 represents rows recs -> In row rows ->
  exists rec, In rec recs /\ represents row rec.
Proof.
  induction 1 as [|r rec rows recs Hr _ IH]; simpl; [contradiction|].
  intros [<- | Hin]; [eauto|].
  destruct (IH Hin) as (rec' & H1 & H2). eauto.
Qed.

Lemma represents_sorted (rows : list TranslationScore.t)
    (recs : list TranslationScoreRecord.t) :
  Forall2 represents rows recs -> StronglySorted newer_first rows ->
  StronglySorted record_newer_first recs.
Proof.
  induction 1 as [|row rec rows recs Hr Hrest IH]; intros Hs; [constructor|].
  apply StronglySorted_inv in Hs as [Hs Hh].
  constructor; [now apply IH|].
  apply Forall_forall. intros rec' Hin.
  destruct (represents_left rows recs rec' Hrest Hin) as (row' & Hin' & Hr').
  pose proof (proj1 (Forall_forall _ _) Hh row' Hin') as Hle.
  unfold newer_first in Hle. unfold record_newer_first.
  destruct Hr as (_ & _ & _ & _ & _ & _ & _ & _ & _ & _ & _ & ->).
  destruct Hr' as (_ & _ & _ & _ & _ & _ & _ & _ & _ & _ & _ & ->).
  exact Hle.
Qed.

Lemma represents_passes (threshold : option float) (app_id : option string)
    (row : TranslationScore.t) (rec : TranslationScoreRecord.t) :
  represents row rec -> passes threshold app_id row ->
  record_passes threshold app_id rec.
Proof.
  intros (_ & Ha & _ & _ & _ & _ & _ & Hs & _) [Ht Hi].
  unfold record_passes. rewrite Ha, Hs. now split.
Qed.

Lemma limit_rejected (n : Z) (threshold : option float) (app_id : option string)
    (db : Table) :
  (n < 1 \/ 200 < n)%Z ->
  get_scores (Some n) threshold app_id db = Raise (RequestValidationError "limit").
Proof.
  intros H. unfold get_scores, query_limit.
  destruct (Z.leb_spec 1 n), (Z.leb_spec n 200); simpl; try lia; reflexivity.
Qed.

Lemma threshold_rejected (limit : option Z) (th : float) (app_id : option string)
    (db : Table) :
  (th < Finite 0 \/ Finite 100 < th)%float ->
  status_code (get_scores limit (Some th) app_id db) = 422%Z.
Proof.
  intros H. unfold get_scores.
  destruct (query_limit limit) as [n | e] eqn:El.
  - assert (E : query_threshold (Some th) = Raise (RequestValidationError "threshold")).
    { unfold query_threshold.
      destruct (PyFloat.leb (Finite 0) th) eqn:H0; [|reflexivity].
      destruct (PyFloat.leb th (Finite 100)) eqn:H1; [|reflexivity].
      apply leb_le in H0, H1. exfalso.
      destruct H as [H | H]; [exact (H H0) | exact (H H1)]. }
    rewrite E. reflexivity.
  - unfold query_limit in El. destruct limit as [n|]; [|discriminate].
    destruct ((1 <=? n) && (n <=? 200))%Z; [discriminate|].
    injection El as <-. reflexivity.
Qed.

(** C7. With the three parameters within their bounds the listing returns.
    Its records are those of the first rows, [limit] at most and 25 at most
    when no limit is given, of the stored rows that pass the supplied
    filters, put newest first: record by record they show these rows, in
    this order.  So the records come newest first; there are as many as rows
    pass the filters, but [limit] at most; each passes the filters (score at
    most the threshold, [app_id] equal to the one asked for) and shows a
    stored row; and a stored row that passes and is not shown is no newer
    than any record returned.  A limit outside [1,200] and a threshold
    outside [0,100] are rejected. *)
Theorem list_scores_newest_first
    (limit : option Z) (threshold : option float) (app_id : option string)
    (db : Table) :
  Forall stored_method_valid db ->
  in_bounds limit threshold app_id ->
  (exists recs,
     get_scores limit threshold app_id db = Ok recs /\
     (exists rows,
        Permutation rows (filter (row_selected threshold app_id) db) /\
        StronglySorted newer_first rows /\
        Forall2 represents (firstn (limit_of limit) rows) recs) /\
     StronglySorted record_newer_first recs /\
     length recs
     = Nat.min (limit_of limit)
         (length (filter (row_selected threshold app_id) db)) /\
     Forall (record_passes threshold app_id) recs /\
     Forall (fun rec => exists row, In row db /\ represents row rec) recs /\
     (forall row, In row db -> passes threshold app_id row ->
        (exists rec, In rec recs /\ represents row rec) \/
        (forall rec, In rec recs ->
           (TranslationScore.created_at row <= TranslationScoreRecord.created_at rec)%Z)))
  /\ (forall row, row_selected threshold app_id row = true <-> passes threshold app_id row)
  /\ limit_of None = 25
  /\ (forall n, (n < 1 \/ 200 < n)%Z ->
        status_code (get_scores (Some n) threshold app_id db) = 422%Z)
  /\ (forall th, (th < Finite 0 \/ Finite 100 < th)%float ->
        status_code (get_scores limit (Some th) app_id db) = 422%Z).
Proof.
  intros Hdb Hb.
  split; [|split; [|split; [reflexivity|split]]].
  2: { intros row. apply row_selected_passes, Hb. }
  2: { intros n Hn. now rewrite limit_rejected. }
  2: { intros th Hth. now apply threshold_rejected. }
  destruct (get_scores_rows limit threshold app_id db Hdb Hb)
    as (rows & recs & E & Hperm & Hsorted & Hrep).
  assert (Hsel : forall row, In row rows <->
                   In row db /\ passes threshold app_id row).
  { intros row. split.
    - intros H. apply (Permutation_in _ Hperm), filter_In in H as [H1 H2].
      split; [exact H1|]. apply row_selected_passes; [apply Hb | exact H2].
    - intros [H1 H2]. apply (Permutation_in _ (Permutation_sym Hperm)), filter_In.
      split; [exact H1|]. apply row_selected_passes; [apply Hb | exact H2]. }
  exists recs. split; [exact E|].
  split; [exists rows; repeat split; assumption|].
  pose proof (firstn_skipn (limit_of limit) rows) as Hsplit.
  rewrite <- Hsplit in Hsorted.
  apply sorted_app_inv in Hsorted as [Htop Hcross].
  split; [now apply (represents_sorted _ _ Hrep)|].
  split.
  { rewrite <- (Forall2_length Hrep), length_firstn.
    now rewrite (Permutation_length Hperm). }
  split.
  { apply Forall_forall. intros rec Hin.
    destruct (represents_left _ _ rec Hrep Hin) as (row & Hrow & Hr).
    apply (represents_passes _ _ row rec Hr).
    now apply Hsel, (in_firstn (limit_of limit)). }
  split.
  { apply Forall_forall. intros rec Hin.
    destruct (represents_left _ _ rec Hrep Hin) as (row & Hrow & Hr).
    exists row. split; [|exact Hr].
    now apply Hsel, (in_firstn (limit_of limit)). }
  intros row Hin Hp.
  assert (Hrows : In row rows) by now apply Hsel.
  rewrite <- Hsplit in Hrows. apply in_app_or in Hrows as [Htopin | Hrest].
  - left. now apply (represents_right _ _ row Hrep).
  - right. intros rec Hrec.
    destruct (represents_left _ _ rec Hrep Hrec) as (row' & Hrow' & Hr').
    pose proof (Hcross row' row Hrow' Hrest) as Hle. unfold newer_first in Hle.
    destruct Hr' as (_ & _ & _ & _ & _ & _ & _ & _ & _ & _ & _ & ->).
    exact Hle.
Qed.

(** C1, as the code has it.  Each record the listing returns shows a stored
    row in twelve members: identifier, application identifier, source and
    target language, target text, scoring method, model, score, adequacy,
    fluency, rationale and creation time.  The source text and the raw
    response of the row are not among them: the record of a row does not
    change when they do. *)
Theorem listed_record_members
    (limit : option Z) (threshold : option float) (app_id : option string)
    (db : Table) :
  Forall stored_method_valid db ->
  in_bounds limit threshold app_id ->
  (exists recs,
     get_scores limit threshold app_id db = Ok recs /\
     Forall (fun rec => exists row, In row db /\ represents row rec) recs)
  /\
  (forall row source_text raw_llm_response,
     to_record (with_unlisted row source_text raw_llm_response) = to_record row).
Proof.
  intros Hdb Hb. split; [|reflexivity].
  destruct (get_scores_rows limit threshold app_id db Hdb Hb)
    as (rows & recs & E & Hperm & _ & Hrep).
  exists recs. split; [exact E|].
  apply Forall_forall. intros rec Hin.
  destruct (represents_left _ _ rec Hrep Hin) as (row & Hrow & Hr).
  exists row. split; [|exact Hr].
  apply in_firstn in Hrow. apply (Permutation_in _ Hperm) in Hrow.
  now apply filter_In in Hrow as [Hrow _].
Qed.

End ListingOrder.

Lemma fixture_table_valid : Forall stored_method_valid Fixtures.table.
Proof. repeat constructor; now exists GEMBA_DA. Qed.

Lemma fixture_query_in_bounds : in_bounds (Some 2%Z) (Some (Finite 75)) None.
Proof.
  split; [|split].
  - intros n [= <-]. lia.
  - intros th [= <-]. split; unfold float_le, Qle; simpl; lia.
  - discriminate.
Qed.

Lemma list_scores_newest_first_witness :
  exists recs,
    get_scores (Some 2%Z) (Some (Finite 75)) None Fixtures.table = Ok recs /\
    (exists rows,
       Permutation rows
         (filter (row_selected (Some (Finite 75)) None) Fixtures.table) /\
       StronglySorted newer_first rows /\
       Forall2 represents (firstn 2 rows) recs) /\
    StronglySorted record_newer_first recs /\
    length recs = 2 /\
    Forall (record_passes (Some (Finite 75)) None) recs.
Proof.
  destruct (list_scores_newest_first (Some 2%Z) (Some (Finite 75)) None Fixtures.table
              fixture_table_valid fixture_query_in_bounds)
    as ((recs & E & Hrows & Hs & Hl & Hp & _) & _).
  exists recs. repeat split; assumption.
Defined.

Lemma listed_record_members_witness :
  exists recs,
    get_scores (Some 2%Z) (Some (Finite 75)) None Fixtures.table = Ok recs /\
    Forall (fun rec => exists row, In row Fixtures.table /\ represents row rec) recs.
Proof.
  exact (proj1 (listed_record_members (Some 2%Z) (Some (Finite 75)) None Fixtures.table
                  fixture_table_valid fixture_query_in_bounds)).
Defined.

(** C1, as it is written, fails: two rows that differ in their source text
    and in their raw response are listed as one and the same record, so the
    record holds neither. *)
Lemma listing_omits_source_text_and_raw_response :
  exists row1 row2 rec,
    TranslationScore.source_text row1 <> TranslationScore.source_text row2 /\
    TranslationScore.raw_llm_response row1 <> TranslationScore.raw_llm_response row2 /\
    get_scores None None None [row1] = Ok [rec] /\
    get_scores None None None [row2] = Ok [rec].
Proof.
  exists Fixtures.high, (with_unlisted Fixtures.high "hello" (Some "90")).
  eexists. repeat split; try discriminate. 
Qed.

(** * Further properties *)

Import Config Db.

(** ** The scan of a text cut in two *)

Section Cut.

Lemma take_digits_ext (s t : string) :
  head_digit t = false ->
  take_digits (s ++ t) = extend t (take_digits s).
Proof.
  intros Ht. induction s as [|c s IH]; simpl.
  - destruct t as [|x t]; [reflexivity|]. simpl in Ht. cbn. now rewrite Ht.
  - destruct (is_digit c); [|reflexivity].
    rewrite IH. now destruct (take_digits s).
Qed.

Lemma apart_head (t : string) : apart t = true -> head_digit t = false.
Proof.
  unfold apart. intros H. apply andb_true_iff in H as [H _].
  now apply negb_true_iff in H.
Qed.

Lemma match_fraction_ext (r t : string) :
  apart t = true ->
  match_fraction (r ++ t) = extend t (match_fraction r).
Proof.
  intros Ht. pose proof (apart_head t Ht) as Hh.
  destruct r as [|c r]; simpl.
  - destruct t as [|x t]; [reflexivity|]. unfold match_fraction.
    destruct (Ascii.eqb x ".") eqn:Ex; [|reflexivity].
    unfold apart in Ht. simpl in Ht. rewrite Ex in Ht.
    apply andb_true_iff in Ht as [_ Ht]. apply negb_true_iff in Ht. simpl in Ht.
    destruct t as [|y t]; [reflexivity|]. simpl in *. now rewrite Ht.
  - destruct (Ascii.eqb c "."); [|reflexivity].
    rewrite (take_digits_ext r t Hh).
    now destruct (take_digits r) as [[|d0 d] r'].
Qed.

Lemma match_unsigned_ext (s t : string) :
  apart t = true ->
  match_unsigned (s ++ t) = option_map (extend t) (match_unsigned s).
Proof.
  intros Ht. unfold match_unsigned.
  rewrite (take_digits_ext s t (apart_head t Ht)).
  destruct (take_digits s) as [[|d0 d] r]; [reflexivity|]. simpl.
  rewrite (match_fraction_ext r t Ht).
  now destruct (match_fraction r).
Qed.

Lemma match_number_ext (c : ascii) (s t : string) :
  apart t = true ->
  match_number (String c s ++ t) = option_map (extend t) (match_number (String c s)).
Proof.
  intros Ht. change (String c s ++ t) with (String c (s ++ t)).
  unfold match_number.
  destruct (Ascii.eqb c "-").
  - rewrite (match_unsigned_ext s t Ht).
    destruct (match_unsigned s) as [[m r]|]; [reflexivity|].
    simpl. apply (match_unsigned_ext (String c s) t Ht).
  - apply (match_unsigned_ext (String c s) t Ht).
Qed.

Lemma findall_cut (a t : string) :
  apart t = true -> findall (a ++ t) = (findall a ++ findall t)%list.
Proof.
  intros Ht. funelim (findall a).
  - reflexivity.
  - change (String c s' ++ t) with (String c (s' ++ t)). rewrite findall_cons.
    change (String c (s' ++ t)) with (String c s' ++ t).
    rewrite (match_number_ext c s' t Ht).
    match goal with Hm : match_number _ = Some _ |- _ => rewrite Hm end.
    simpl. f_equal. auto.
  - change (String c s' ++ t) with (String c (s' ++ t)). rewrite findall_cons.
    change (String c (s' ++ t)) with (String c s' ++ t).
    rewrite (match_number_ext c s' t Ht).
    match goal with Hm : match_number _ = None |- _ => rewrite Hm end.
    simpl. auto.
Qed.

(** X1. A text cut where the second part begins neither with a digit nor
    with a dot that a digit follows is scanned part by part: the tokens of
    the whole are those of the first part, then those of the second. *)
Theorem findall_app_apart (a t : string) :
  apart t = true -> findall (a ++ t) = (findall a ++ findall t)%list.
Proof. exact (findall_cut a t). Qed.

Lemma no_digit_apart (t : string) : has_digit t = false -> apart t = true.
Proof.
  unfold apart. destruct t as [|c t]; [reflexivity|]. simpl. intros H.
  apply orb_false_iff in H as [-> H]. simpl.
  destruct t as [|d t]; simpl in *; [now rewrite andb_false_r|].
  apply orb_false_iff in H as [Hd _]. rewrite Hd. now rewrite andb_false_r.
Qed.

(** X2. Text without a digit after the last number does not change the result. *)
Theorem extract_ignores_trailing_text (text suf : string) :
  has_digit suf = false ->
  _extract_last_number (text ++ suf) = _extract_last_number text.
Proof.
  intros H. unfold _extract_last_number.
  rewrite (findall_cut text suf (no_digit_apart suf H)).
  rewrite (proj2 (findall_nil suf) H). now rewrite app_nil_r.
Qed.

Lemma match_number_token (tok : string) :
  numeric_token tok -> match_number tok = Some (tok, "").
Proof.
  intros (sign & ds & frac & -> & Hsign & Hne & Hds & Hfrac).
  assert (Hu : match_unsigned (ds ++ frac) = Some (ds ++ frac, "")).
  { unfold match_unsigned.
    assert (Hh : head_digit frac = false)
      by (destruct Hfrac as [-> | (fs & -> & _)]; reflexivity).
    rewrite (take_digits_ext ds frac Hh), (take_digits_all ds Hds).
    unfold extend. simpl fst. simpl snd.
    destruct ds as [|d0 ds]; [congruence|]. simpl append at 1.
    destruct Hfrac as [-> | (fs & -> & Hfs & Hall)]; [reflexivity|].
    unfold match_fraction. rewrite Ascii.eqb_refl, (take_digits_all fs Hall).
    destruct fs as [|f0 fs]; [congruence|]. reflexivity. }
  destruct Hsign as [-> | ->].
  - simpl append. destruct ds as [|d0 ds]; [congruence|].
    pose proof Hds as Hd0. simpl in Hd0. apply andb_true_iff in Hd0 as [Hd0 _].
    change (String d0 ds ++ frac) with (String d0 (ds ++ frac)).
    unfold match_number. rewrite (digit_not_minus d0 Hd0). exact Hu.
  - change ("-" ++ ds ++ frac) with (String "-" (ds ++ frac)).
    unfold match_number. rewrite Ascii.eqb_refl. now rewrite Hu.
Qed.

Lemma findall_token (tok : string) : numeric_token tok -> findall tok = [tok].
Proof.
  intros H. pose proof (match_number_token tok H) as Hm.
  destruct tok as [|c tok].
  - destruct H as (sign & ds & frac & E & _ & Hne & _).
    destruct sign, ds; simpl in E; congruence.
  - rewrite findall_cons, Hm. now simp findall.
Qed.

(** X3. The last number wins, whatever comes before it: a token that ends the
    text, set off by a character that is no digit, dot or minus sign, is the
    one that is read. *)
Theorem extract_last_token_wins (pre tok : string) (c : ascii) :
  numeric_token tok ->
  is_digit c = false -> c <> "."%char -> c <> "-"%char ->
  _extract_last_number (pre ++ String c tok) = python_float tok.
Proof.
  intros Ht Hc Hdot Hminus. unfold _extract_last_number.
  assert (Ha : apart (String c tok) = true).
  { unfold apart. simpl. rewrite Hc. simpl.
    destruct (Ascii.eqb_spec c "."%char); [contradiction|reflexivity]. }
  rewrite (findall_cut pre _ Ha), findall_cons.
  assert (Hn : match_number (String c tok) = None).
  { unfold match_number.
    destruct (Ascii.eqb_spec c "-"%char); [contradiction|].
    unfold match_unsigned. simpl. now rewrite Hc. }
  rewrite Hn, (findall_token tok Ht).
  unfold last_of. rewrite rev_app_distr. reflexivity.
Qed.

End Cut.

(** ** The four strategies *)

Section Strategies.

Context {S : Type} {client : LLMClientProtocol S} {serializer : Serializer}.
Variable self : ScoringService.t.

(** X5. GEMBA-DA: one [complete] call with the single prompt, whatever the
    outcome; the response is kept as the raw response and the score is read
    off it. *)
Theorem gemba_da_one_call (payload : ScoreRequest.t) (s : S) :
  ScoreRequest.method payload = Member GEMBA_DA ->
  exists prompt,
    gemba_da_prompt payload = Ok prompt /\
    forall out s1,
      complete s [ScoringService.user prompt] = (out, s1) ->
      run (ScoringService.score self payload) s =
      (match out with
       | Ok response =>
           match _extract_last_number response with
           | Ok sc =>
               Ok (ScoreComputation.Build (Member GEMBA_DA) sc
                     (ScoringService._llm_model_name self) response None None None)
           | Raise e => Raise e
           end
       | Raise e => Raise e
       end, s1, [CompleteCall [ScoringService.user prompt]]).
Proof.
  intros Hm.
  destruct (request_template_carries _ payload gemba_da_prompt_fields) as (p & Hp & _).
  exists p. split; [exact Hp|]. intros out s1 Hc.
  rewrite (score_member self payload GEMBA_DA Hm).
  unfold ScoringService._score_gemba_da.
  fold (gemba_da_prompt payload) in Hp. rewrite Hp, Hm.
  cbn [lift LLM.bind await_complete run]. rewrite Hc.
  destruct out as [response|e]; [|reflexivity].
  destruct (_extract_last_number response); reflexivity.
Qed.

(** X6. GEMBA-MQM: one [parse] call for [MQMEval] with the system prompt, the
    one-shot exchange and the final user message, in this order; the score
    and the analysis of the parsed object are returned as they are. *)
Theorem gemba_mqm_one_call (payload : ScoreRequest.t) (s : S) :
  ScoreRequest.method payload = Member GEMBA_MQM ->
  exists final,
    gemba_mqm_final_user payload = Ok final /\
    forall out s1,
      parse MQMEval_model s (mqm_messages final) = (out, s1) ->
      run (ScoringService.score self payload) s =
      (match out with
       | Ok raw =>
           match _expect_parsed raw with
           | Ok parsed =>
               Ok (ScoreComputation.Build (Member GEMBA_MQM) (MQMEval.score parsed)
                     (ScoringService._llm_model_name self)
                     (model_dump_json MQMEval_model parsed)
                     None None (Some (MQMEval.analysis parsed)))
           | Raise e => Raise e
           end
       | Raise e => Raise e
       end, s1, [ParseCall MQMEval_model (mqm_messages final)]).
Proof.
  intros Hm.
  destruct (request_template_carries _ payload gemba_mqm_final_user_fields)
    as (p & Hp & _).
  exists p. split; [exact Hp|]. intros out s1 Hc.
  rewrite (score_member self payload GEMBA_MQM Hm).
  unfold ScoringService._score_gemba_mqm.
  fold (gemba_mqm_final_user payload) in Hp. rewrite Hp, Hm.
  cbn [lift LLM.bind await_parse run]. fold (mqm_messages p). rewrite Hc.
  destruct out as [raw|e]; [|reflexivity].
  destruct (_expect_parsed raw); reflexivity.
Qed.

(** X7. STRUCTURED-DA: one [parse] call for [StructuredDAReturn] with the system
    and the user message; the four members of the parsed object are
    returned as they are. *)
Theorem structured_da_one_call (payload : ScoreRequest.t) (s : S) :
  ScoreRequest.method payload = Member STRUCTURED_DA ->
  exists message,
    structured_da_user_message payload = Ok message /\
    forall out s1,
      parse StructuredDAReturn_model s (structured_da_messages message) = (out, s1) ->
      run (ScoringService.score self payload) s =
      (match out with
       | Ok raw =>
           match _expect_parsed raw with
           | Ok parsed =>
               Ok (ScoreComputation.Build (Member STRUCTURED_DA)
                     (StructuredDAReturn.score parsed)
                     (ScoringService._llm_model_name self)
                     (model_dump_json StructuredDAReturn_model parsed)
                     (Some (StructuredDAReturn.adequacy parsed))
                     (Some (StructuredDAReturn.fluency parsed))
                     (Some (StructuredDAReturn.rationale parsed)))
           | Raise e => Raise e
           end
       | Raise e => Raise e
       end, s1, [ParseCall StructuredDAReturn_model (structured_da_messages message)]).
Proof.
  intros Hm.
  destruct (request_template_carries _ payload structured_da_user_message_fields)
    as (p & Hp & _).
  exists p. split; [exact Hp|]. intros out s1 Hc.
  rewrite (score_member self payload STRUCTURED_DA Hm).
  unfold ScoringService._score_structured_da.
  fold (structured_da_user_message payload) in Hp. rewrite Hp, Hm.
  cbn [lift LLM.bind await_parse run]. fold (structured_da_messages p). rewrite Hc.
  destruct out as [raw|e]; [|reflexivity].
  destruct (_expect_parsed raw); reflexivity.
Qed.

(** X4. Whatever the client answers, a request of one of the four methods
    makes one call or two, by the operation its method needs and no other. *)
Theorem calls_by_method (payload : ScoreRequest.t) (m : ScoringMethod) (s s' : S)
    (res : Result ScoreComputation.t) (calls : list Call) :
  ScoreRequest.method payload = Member m ->
  run (ScoringService.score self payload) s = (res, s', calls) ->
  match m with
  | GEMBA_DA => exists p, calls = [CompleteCall [ScoringService.user p]]
  | GEMBA_ESA =>
      exists p1,
        calls = [CompleteCall [ScoringService.user p1]] \/
        exists p2, calls = [CompleteCall [ScoringService.user p1];
                            CompleteCall [ScoringService.user p2]]
  | GEMBA_MQM => exists final, calls = [ParseCall MQMEval_model (mqm_messages final)]
  | STRUCTURED_DA =>
      exists message,
        calls = [ParseCall StructuredDAReturn_model (structured_da_messages message)]
  end.
Proof.
  intros Hm Hrun. rewrite (score_member self payload m Hm) in Hrun.
  destruct m.
  - unfold ScoringService._score_gemba_da in Hrun.
    destruct (request_template_carries _ payload gemba_da_prompt_fields)
      as (p & Hp & _).
    fold (gemba_da_prompt payload) in Hp. rewrite Hp in Hrun.
    cbn [lift LLM.bind await_complete run] in Hrun. exists p.
    destruct (complete s [ScoringService.user p]) as [[r|e] s1].
    + destruct (_extract_last_number r); cbn [lift LLM.bind run] in Hrun;
        now injection Hrun as _ _ <-.
    + now injection Hrun as _ _ <-.
  - unfold ScoringService._score_gemba_mqm in Hrun.
    destruct (request_template_carries _ payload gemba_mqm_final_user_fields)
      as (p & Hp & _).
    fold (gemba_mqm_final_user payload) in Hp. rewrite Hp in Hrun.
    cbn [lift LLM.bind await_parse run] in Hrun. fold (mqm_messages p) in Hrun.
    exists p.
    destruct (parse MQMEval_model s (mqm_messages p)) as [[raw|e] s1].
    + destruct (_expect_parsed raw); cbn [lift LLM.bind run] in Hrun;
        now injection Hrun as _ _ <-.
    + now injection Hrun as _ _ <-.
  - unfold ScoringService._score_gemba_esa in Hrun.
    destruct (request_template_carries _ payload gemba_esa_error_prompt_fields)
      as (p1 & Hp1 & _).
    fold (gemba_esa_error_prompt payload) in Hp1. rewrite Hp1 in Hrun.
    cbn [lift LLM.bind await_complete run] in Hrun. exists p1.
    destruct (complete s [ScoringService.user p1]) as [[r1|e] s1].
    + destruct (gemba_esa_scoring_prompt_carries payload r1) as (p2 & Hp2 & _).
      rewrite Hp2 in Hrun. cbn [lift LLM.bind await_complete run] in Hrun.
      right. exists p2.
      destruct (complete s1 [ScoringService.user p2]) as [[r2|e] s2].
      * destruct (_extract_last_number r2); cbn [lift LLM.bind run] in Hrun;
          now injection Hrun as _ _ <-.
      * now injection Hrun as _ _ <-.
    + left. now injection Hrun as _ _ <-.
  - unfold ScoringService._score_structured_da in Hrun.
    destruct (request_template_carries _ payload structured_da_user_message_fields)
      as (p & Hp & _).
    fold (structured_da_user_message payload) in Hp. rewrite Hp in Hrun.
    cbn [lift LLM.bind await_parse run] in Hrun.
    fold (structured_da_messages p) in Hrun. exists p.
    destruct (parse StructuredDAReturn_model s (structured_da_messages p))
      as [[raw|e] s1].
    + destruct (_expect_parsed raw); cbn [lift LLM.bind run] in Hrun;
        now injection Hrun as _ _ <-.
    + now injection Hrun as _ _ <-.
Qed.

(** X8. A result names the method of the request and the model of the service. *)
Theorem result_names_method_and_model (payload : ScoreRequest.t) (m : ScoringMethod)
    (s s' : S) (res : ScoreComputation.t) (calls : list Call) :
  ScoreRequest.method payload = Member m ->
  run (ScoringService.score self payload) s = (Ok res, s', calls) ->
  ScoreComputation.method res = ScoreRequest.method payload /\
  ScoreComputation.llm_model res = ScoringService._llm_model_name self.
Proof.
  intros Hm. rewrite (score_member self payload m Hm).
  destruct m.
  - unfold ScoringService._score_gemba_da.
    destruct (gemba_da_prompt payload) as [prompt|]; cbn [lift LLM.bind await_complete run];
      [|discriminate].
    destruct (complete s _) as [[response|] s1]; [|discriminate].
    destruct (_extract_last_number response); cbn [lift LLM.bind run]; [|discriminate].
    intros [= <- _ _]. now split.
  - unfold ScoringService._score_gemba_mqm.
    destruct (gemba_mqm_final_user payload) as [final|];
      cbn [lift LLM.bind await_parse run]; [|discriminate].
    destruct (parse _ s _) as [[raw|] s1]; [|discriminate].
    destruct (_expect_parsed raw) as [parsed|]; cbn [lift LLM.bind run]; [|discriminate].
    intros [= <- _ _]. now split.
  - unfold ScoringService._score_gemba_esa.
    destruct (gemba_esa_error_prompt payload) as [p1|];
      cbn [lift LLM.bind await_complete run]; [|discriminate].
    destruct (complete s _) as [[r1|] s1]; [|discriminate].
    destruct (gemba_esa_scoring_prompt payload r1) as [p2|];
      cbn [lift LLM.bind await_complete run]; [|discriminate].
    destruct (complete s1 _) as [[r2|] s2]; [|discriminate].
    destruct (_extract_last_number r2); cbn [lift LLM.bind run]; [|discriminate].
    intros [= <- _ _]. now split.
  - unfold ScoringService._score_structured_da.
    destruct (structured_da_user_message payload) as [message|];
      cbn [lift LLM.bind await_parse run]; [|discriminate].
    destruct (parse _ s _) as [[raw|] s1]; [|discriminate].
    destruct (_expect_parsed raw) as [parsed|]; cbn [lift LLM.bind run]; [|discriminate].
    intros [= <- _ _]. now split.
Qed.

End Strategies.

(** ** What the scoring route writes and what the listing reads *)

Section Persistence.

Context {S : Type} {client : LLMClientProtocol S} {serializer : Serializer}.
Variable scoring_service : ScoringService.t.

Lemma ScoringMethod_of_inv (v : string) (m : ScoringMethod) :
  ScoringMethod_of v = Ok m -> v = value m.
Proof.
  unfold ScoringMethod_of.
  destruct (String.eqb_spec v "GEMBA-DA"); [now intros [= <-]|].
  destruct (String.eqb_spec v "GEMBA-MQM"); [now intros [= <-]|].
  destruct (String.eqb_spec v "GEMBA-ESA"); [now intros [= <-]|].
  destruct (String.eqb_spec v "STRUCTURED-DA"); [now intros [= <-]|].
  discriminate.
Qed.

Lemma validate_inv (b : ScoreRequestBody.t) (p : ScoreRequest.t) :
  validate b = Ok p ->
  exists m,
    constr (ScoreRequestBody.source_lang b) = Ok (ScoreRequest.source_lang p) /\
    constr (ScoreRequestBody.target_lang b) = Ok (ScoreRequest.target_lang p) /\
    constr (ScoreRequestBody.source_text b) = Ok (ScoreRequest.source_text p) /\
    constr (ScoreRequestBody.target_text b) = Ok (ScoreRequest.target_text p) /\
    ScoreRequestBody.method b = value m /\
    ScoreRequest.method p = Member m.
Proof.
  unfold validate.
  destruct (constr (ScoreRequestBody.source_lang b)) as [a1|]; [|discriminate].
  destruct (constr (ScoreRequestBody.target_lang b)) as [a2|]; [|discriminate].
  destruct (constr (ScoreRequestBody.source_text b)) as [a3|]; [|discriminate].
  destruct (constr (ScoreRequestBody.target_text b)) as [a4|]; [|discriminate].
  destruct (ScoringMethod_of (ScoreRequestBody.method b)) as [m|] eqn:Em; [|discriminate].
  intros [= <-]. exists m. simpl. repeat split. now apply ScoringMethod_of_inv.
Qed.

(** What the handler did when it returned a response. *)
Lemma score_translation_ok (payload : ScoreRequest.t) (app_id : string)
    (new_id : UUID) (now : datetime) (s s' : S) (db db' : Table)
    (resp : ScoreResponse.t) (calls : list Call) :
  score_translation payload app_id scoring_service new_id now s db
  = (Ok resp, s', db', calls) ->
  exists res m,
    run (ScoringService.score scoring_service payload) s = (Ok res, s', calls) /\
    ScoreRequest.method payload = Member m /\
    db' = (db ++ [row_of new_id now app_id payload (value m) res])%list /\
    resp = response_of new_id payload res.
Proof.
  unfold score_translation.
  destruct (run (ScoringService.score scoring_service payload) s)
    as [[[res | e] s1] calls1]; [|destruct e; discriminate].
  destruct (ScoreRequest.method payload) as [m | v] eqn:Em; simpl; [|discriminate].
  intros [= <- <- <- <-]. exists res, m. repeat split.
  unfold response_of. now rewrite Em.
Qed.

Lemma score_translation_raise (payload : ScoreRequest.t) (app_id : string)
    (new_id : UUID) (now : datetime) (s s' : S) (db db' : Table)
    (e : exn) (calls : list Call) :
  score_translation payload app_id scoring_service new_id now s db
  = (Raise e, s', db', calls) ->
  db' = db.
Proof.
  unfold score_translation.
  destruct (run (ScoringService.score scoring_service payload) s)
    as [[[res | e0] s1] calls1].
  - destruct (method_value (ScoreRequest.method payload)); [discriminate|].
    now intros [= _ _ <- _].
  - destruct e0; now intros [= _ _ <- _].
Qed.

(** X9. A response is returned for a request only with a header, a valid body
    and a scoring that succeeded; the row then written holds the stripped
    header, the validated texts, the method as it was sent, the model of
    the service, the result, the identifier and the time; the response
    repeats the identifier and the result. *)
Theorem post_score_response
    (x_app_id : option string) (body : ScoreRequestBody.t)
    (new_id : UUID) (now : datetime) (s s' : S) (db db' : Table)
    (resp : ScoreResponse.t) (calls : list Call) :
  post_score x_app_id body scoring_service new_id now s db = (Ok resp, s', db', calls) ->
  exists h payload res,
    x_app_id = Some h /\ strip h <> "" /\
    validate body = Ok payload /\
    run (ScoringService.score scoring_service payload) s = (Ok res, s', calls) /\
    db' = (db ++ [row_of new_id now (strip h) payload (ScoreRequestBody.method body) res])%list /\
    resp = response_of new_id payload res.
Proof.
  unfold post_score, require_app_id.
  destruct x_app_id as [h|]; [|discriminate].
  destruct (String.eqb h "" || String.eqb (strip h) "") eqn:Eh; [discriminate|].
  apply orb_false_iff in Eh as [_ Eh]. apply String.eqb_neq in Eh.
  destruct (validate body) as [payload|] eqn:Ev; [|discriminate].
  intros H. apply score_translation_ok in H as (res & m & Hrun & Hm & -> & ->).
  destruct (validate_inv body payload Ev) as (m' & _ & _ & _ & _ & Hb & Hm').
  rewrite Hm in Hm'. injection Hm' as <-.
  exists h, payload, res. rewrite Hb. repeat split; assumption.
Qed.

(** What the route did by the time its answer was served: either the
    handler raised and nothing was written, or it returned a response and
    had written one row whose floats are those of the response. *)
Lemma serve_post_score_cases
    (x_app_id : option string) (body : ScoreRequestBody.t)
    (new_id : UUID) (now : datetime) (s s' : S) (db db' : Table)
    (res : Result ScoreResponse.t) (calls : list Call) :
  serve_post_score x_app_id body scoring_service new_id now s db = (res, s', db', calls) ->
  (exists e,
     post_score x_app_id body scoring_service new_id now s db = (Raise e, s', db', calls) /\
     res = Raise e /\ db' = db)
  \/
  (exists resp row,
     post_score x_app_id body scoring_service new_id now s db = (Ok resp, s', db', calls) /\
     res = serialize_response response_compliant (Ok resp) /\
     db' = (db ++ [row])%list /\
     TranslationScore.id row = new_id /\ ScoreResponse.request_id resp = new_id /\
     row_compliant row = response_compliant resp /\
     stored_method_valid row).
Proof.
  unfold serve_post_score.
  destruct (post_score x_app_id body scoring_service new_id now s db)
    as [[[r s1] db1] calls1] eqn:E.
  intros [= <- <- <- <-]. destruct r as [resp | e].
  - right. pose proof E as E'. unfold post_score in E'.
    destruct (require_app_id x_app_id) as [app_id|]; [|discriminate].
    destruct (validate body) as [payload|]; [|discriminate].
    apply score_translation_ok in E' as (r & m & _ & _ & -> & ->).
    eexists _, _. split; [reflexivity|]. split; [reflexivity|].
    split; [reflexivity|]. repeat split. now exists m.
  - left. exists e. split; [reflexivity|]. split; [reflexivity|].
    unfold post_score in E.
    destruct (require_app_id x_app_id) as [app_id|]; [|now injection E as _ _ <- _].
    destruct (validate body) as [payload|]; [|now injection E as _ _ <- _].
    now apply score_translation_raise in E.
Qed.

(** X10. The table only grows, and by one row at most.  When the route
    answers with a response, it has written one row, whose identifier is the
    one of the response and whose floats are finite.  When it answers with
    an error, either nothing was written, or the handler had returned and
    committed a row holding a float that is not finite, which the response
    could not be written with: the row stays and the status is 500. *)
Theorem post_score_appends_only
    (x_app_id : option string) (body : ScoreRequestBody.t)
    (new_id : UUID) (now : datetime) (s s' : S) (db db' : Table)
    (res : Result ScoreResponse.t) (calls : list Call) :
  serve_post_score x_app_id body scoring_service new_id now s db = (res, s', db', calls) ->
  match res with
  | Ok resp =>
      exists row, db' = (db ++ [row])%list /\ TranslationScore.id row = new_id /\
                  ScoreResponse.request_id resp = new_id /\
                  row_compliant row = true
  | Raise e =>
      db' = db \/
      exists row, db' = (db ++ [row])%list /\ TranslationScore.id row = new_id /\
                  row_compliant row = false /\
                  status_code (Raise e : Result ScoreResponse.t) = 500%Z
  end.
Proof.
  intros H.
  destruct (serve_post_score_cases _ _ _ _ _ _ _ _ _ _ H)
    as [(e & _ & -> & ->) | (resp & row & _ & -> & -> & Hid & Hrid & Hc & _)].
  - now left.
  - simpl. destruct (response_compliant resp) eqn:Ec.
    + exists row. repeat split; assumption.
    + right. exists row. repeat split; assumption.
Qed.

Lemma post_score_keeps_valid
    (x_app_id : option string) (body : ScoreRequestBody.t)
    (new_id : UUID) (now : datetime) (s s' : S) (db db' : Table)
    (res : Result ScoreResponse.t) (calls : list Call) :
  post_score x_app_id body scoring_service new_id now s db = (res, s', db', calls) ->
  Forall stored_method_valid db -> Forall stored_method_valid db'.
Proof.
  intros H Hdb. destruct res as [resp | e].
  - unfold post_score in H.
    destruct (require_app_id x_app_id) as [app_id|]; [|discriminate].
    destruct (validate body) as [payload|]; [|discriminate].
    apply score_translation_ok in H as (r & m & _ & _ & -> & _).
    apply Forall_app. split; [exact Hdb|]. constructor; [|constructor].
    now exists m.
  - unfold post_score in H.
    destruct (require_app_id x_app_id) as [app_id|]; [|now injection H as _ _ <- _].
    destruct (validate body) as [payload|]; [|now injection H as _ _ <- _].
    apply score_translation_raise in H. now subst.
Qed.

Lemma post_scores_invariant
    (requests : list PostRequest.t) (s s' : S) (db db' : Table)
    (answers : list (Result ScoreResponse.t)) :
  post_scores scoring_service requests s db = (answers, s', db') ->
  Forall stored_method_valid db ->
  Forall stored_method_valid db' /\
  (Forall (fun row => row_compliant row = true) db ->
   Forall no_server_error answers ->
   Forall (fun row => row_compliant row = true) db').
Proof.
  revert s s' db db' answers.
  induction requests as [|q requests IH]; intros s s' db db' answers; simpl.
  - intros [= <- <- <-] Hdb. split; [exact Hdb | intros Hc _; exact Hc].
  - destruct (serve_post_score (PostRequest.x_app_id q) (PostRequest.body q)
                scoring_service (PostRequest.new_id q) (PostRequest.now q) s db)
      as [[[answer s1] db1] calls] eqn:E.
    destruct (post_scores scoring_service requests s1 db1)
      as [[answers1 s2] db2] eqn:E1.
    intros [= <- <- <-] Hdb.
    destruct (serve_post_score_cases _ _ _ _ _ _ _ _ _ _ E)
      as [(e & _ & -> & ->) | (resp & row & _ & -> & -> & _ & _ & Hc & Hv)].
    + destruct (IH _ _ _ _ _ E1 Hdb) as [IH1 IH2]. split; [exact IH1|].
      intros Hfin Hans. apply IH2; [exact Hfin | now inversion Hans].
    + assert (Hdb1 : Forall stored_method_valid (db ++ [row])%list)
        by (apply Forall_app; split; [exact Hdb | now constructor]).
      destruct (IH _ _ _ _ _ E1 Hdb1) as [IH1 IH2]. split; [exact IH1|].
      intros Hfin Hans. inversion Hans as [|? ? Hhead Htail]; subst.
      apply IH2; [|exact Htail].
      apply Forall_app. split; [exact Hfin|]. constructor; [|constructor].
      rewrite Hc. simpl in Hhead.
      destruct (response_compliant resp); [reflexivity|].
      exfalso. apply Hhead. reflexivity.
Qed.

Lemma represents_compliant (row : TranslationScore.t) (rec : TranslationScoreRecord.t) :
  represents row rec -> record_compliant rec = row_compliant row.
Proof.
  intros (_ & _ & _ & _ & _ & _ & _ & Hs & Ha & Hf & _).
  unfold record_compliant, row_compliant. now rewrite Hs, Ha, Hf.
Qed.

(** X11. Whatever requests were served, the handler of the listing returns
    for every query within bounds on the table they left: no row written
    by the scoring route holds a method the listing cannot read.  The
    listing is then answered with these records when their floats are all
    finite, and with status 500 otherwise; it is answered with them whenever
    the floats of the table were finite to begin with and none of the
    requests was answered with status 500. *)
Theorem listing_after_posts_returns
    (requests : list PostRequest.t) (s s' : S) (db db' : Table)
    (answers : list (Result ScoreResponse.t))
    (limit : option Z) (threshold : option float) (app_id : option string) :
  post_scores scoring_service requests s db = (answers, s', db') ->
  Forall stored_method_valid db ->
  in_bounds limit threshold app_id ->
  exists recs,
    get_scores limit threshold app_id db' = Ok recs /\
    serve_get_scores limit threshold app_id db'
    = (if forallb record_compliant recs then Ok recs
       else Raise (ValueError "Out of range float values are not JSON compliant")) /\
    (forallb record_compliant recs = false ->
     status_code (serve_get_scores limit threshold app_id db') = 500%Z) /\
    (Forall (fun row => row_compliant row = true) db ->
     Forall no_server_error answers ->
     serve_get_scores limit threshold app_id db' = Ok recs).
Proof.
  intros Hposts Hdb Hb.
  destruct (post_scores_invariant _ _ _ _ _ _ Hposts Hdb) as [Hvalid Hfinite].
  destruct (get_scores_rows limit threshold app_id _ Hvalid Hb)
    as (rows & recs & E & Hperm & _ & Hrep).
  exists recs. split; [exact E|].
  assert (Eserve : serve_get_scores limit threshold app_id db'
                   = (if forallb record_compliant recs then Ok recs
                      else Raise (ValueError
                             "Out of range float values are not JSON compliant")))
    by (unfold serve_get_scores; now rewrite E).
  split; [exact Eserve|]. split.
  - intros Hc. now rewrite Eserve, Hc.
  - intros Hfin Hans. rewrite Eserve.
    replace (forallb record_compliant recs) with true; [reflexivity|].
    symmetry. apply forallb_forall. intros rec Hin.
    destruct (represents_left _ _ rec Hrep Hin) as (row & Hrow & Hr).
    rewrite (represents_compliant row rec Hr).
    apply in_firstn in Hrow. apply (Permutation_in _ Hperm) in Hrow.
    apply filter_In in Hrow as [Hrow _].
    exact (proj1 (Forall_forall _ _) (Hfinite Hfin Hans) row Hrow).
Qed.

End Persistence.

Section ListingFacts.

Lemma filter_snoc {A : Type} (f : A -> bool) (l : list A) (x : A) :
  filter f (l ++ [x])%list = (filter f l ++ (if f x then [x] else []))%list.
Proof. rewrite filter_app. reflexivity. Qed.

Lemma order_snoc_newest (row : TranslationScore.t) (l acc : list TranslationScore.t) :
  (forall r, In r l -> (TranslationScore.created_at r < TranslationScore.created_at row)%Z) ->
  fold_right insert_desc (row :: acc) l = row :: fold_right insert_desc acc l.
Proof.
  induction l as [|x l IH]; simpl; intros H; [reflexivity|].
  rewrite IH by (intros r Hr; apply H; now right).
  simpl. pose proof (H x (or_introl eq_refl)) as Hx.
  destruct (Z.leb_spec (TranslationScore.created_at row) (TranslationScore.created_at x));
    [lia | reflexivity].
Qed.

Lemma order_by_snoc_newest (row : TranslationScore.t) (l : list TranslationScore.t) :
  (forall r, In r l -> (TranslationScore.created_at r < TranslationScore.created_at row)%Z) ->
  order_by_created_at_desc (l ++ [row])%list = row :: order_by_created_at_desc l.
Proof.
  intros H. unfold order_by_created_at_desc. rewrite fold_right_app. simpl.
  now apply order_snoc_newest.
Qed.

Lemma limit_of_positive (limit : option Z) (threshold : option float)
    (app_id : option string) :
  in_bounds limit threshold app_id -> exists k, limit_of limit = Datatypes.S k.
Proof.
  intros (Hl & _). destruct limit as [n|]; simpl; [|eauto].
  destruct (Hl n eq_refl) as [H1 _]. exists (Z.to_nat n - 1). lia.
Qed.

Lemma to_records_firstn (rows : list TranslationScore.t)
    (recs : list TranslationScoreRecord.t) (n : nat) :
  to_records rows = Ok recs -> to_records (firstn n rows) = Ok (firstn n recs).
Proof.
  revert recs n. induction rows as [|row rows IH]; simpl; intros recs n H.
  - injection H as <-. now destruct n.
  - destruct (to_record row) as [r|] eqn:Er; [|discriminate].
    destruct (to_records rows) as [rs|]; [|discriminate].
    injection H as <-. destruct n as [|n]; [reflexivity|]. simpl.
    now rewrite Er, (IH rs n eq_refl).
Qed.

Lemma to_records_error (rows : list TranslationScore.t) (e : exn) :
  to_records rows = Raise e -> exists msg, e = ValueError msg.
Proof.
  induction rows as [|row rows IH]; simpl; [discriminate|].
  destruct (to_record row) as [r|e0] eqn:Er.
  - destruct (to_records rows) as [rs|e']; [discriminate|].
    intros [= <-]. now apply IH.
  - intros [= <-]. unfold to_record in Er.
    destruct (ScoringMethod_of (TranslationScore.scoring_method row)) as [m|e1] eqn:Em;
      [discriminate|].
    injection Er as <-. unfold ScoringMethod_of in Em.
    repeat match type of Em with
           | (if ?b then _ else _) = _ => destruct b; [discriminate|]
           end.
    injection Em as <-. eauto.
Qed.

Lemma to_records_ok_valid (rows : list TranslationScore.t)
    (recs : list TranslationScoreRecord.t) :
  to_records rows = Ok recs -> Forall stored_method_valid rows.
Proof.
  revert recs. induction rows as [|row rows IH]; simpl; intros recs H; [constructor|].
  destruct (to_record row) as [r|] eqn:Er; [|discriminate].
  destruct (to_records rows) as [rs|]; [|discriminate].
  constructor; [|now apply (IH rs)].
  unfold to_record in Er.
  destruct (ScoringMethod_of (TranslationScore.scoring_method row)) as [m|] eqn:Em;
    [|discriminate].
  exists m. unfold ScoringMethod_of in Em.
  destruct (String.eqb_spec (TranslationScore.scoring_method row) "GEMBA-DA");
    [now injection Em as <-|].
  destruct (String.eqb_spec (TranslationScore.scoring_method row) "GEMBA-MQM");
    [now injection Em as <-|].
  destruct (String.eqb_spec (TranslationScore.scoring_method row) "GEMBA-ESA");
    [now injection Em as <-|].
  destruct (String.eqb_spec (TranslationScore.scoring_method row) "STRUCTURED-DA");
    [now injection Em as <-|].
  discriminate.
Qed.

(** X16. The listing returns exactly when every row it selects holds a method of
    the enumeration; one selected row that does not makes the whole call
    raise [ValueError]. *)
Theorem list_scores_returns_iff_methods_known
    (limit : Z) (threshold : option float) (app_id : option string) (db : Table) :
  ((exists recs, list_scores limit threshold app_id db = Ok recs) <->
   Forall stored_method_valid (execute limit threshold app_id db))
  /\
  (forall e, list_scores limit threshold app_id db = Raise e ->
     exists msg, e = ValueError msg).
Proof.
  unfold list_scores. split; [split|].
  - intros [recs H]. now apply (to_records_ok_valid _ recs).
  - intros H. destruct (to_records_represents _ H) as (recs & E & _). eauto.
  - intros e. apply to_records_error.
Qed.

(** X15. A smaller limit gives the head of what a larger limit gives. *)
Theorem smaller_limit_is_prefix
    (n1 n2 : Z) (threshold : option float) (app_id : option string) (db : Table)
    (recs2 : list TranslationScoreRecord.t) :
  (1 <= n1 <= n2)%Z ->
  list_scores n2 threshold app_id db = Ok recs2 ->
  list_scores n1 threshold app_id db = Ok (firstn (Z.to_nat n1) recs2).
Proof.
  intros Hn H. unfold list_scores, execute in *.
  apply (to_records_firstn _ _ (Z.to_nat n1)) in H.
  rewrite firstn_firstn in H.
  replace (Nat.min (Z.to_nat n1) (Z.to_nat n2)) with (Z.to_nat n1) in H by lia.
  exact H.
Qed.

End ListingFacts.

Section RoundTrip.

Context {S : Type} {client : LLMClientProtocol S} {serializer : Serializer}.
Variable scoring_service : ScoringService.t.

(** X12. A row written later than every row of the table comes first in every
    listing whose filters it passes, and the record shown carries the
    identifier the response gave. *)
Theorem posted_row_is_listed_first
    (x_app_id : option string) (body : ScoreRequestBody.t)
    (new_id : UUID) (now : datetime) (s s' : S) (db db' : Table)
    (resp : ScoreResponse.t) (calls : list Call)
    (limit : option Z) (threshold : option float) (app_id : option string) :
  post_score x_app_id body scoring_service new_id now s db = (Ok resp, s', db', calls) ->
  Forall stored_method_valid db ->
  (forall r, In r db -> (TranslationScore.created_at r < now)%Z) ->
  in_bounds limit threshold app_id ->
  (forall th, threshold = Some th -> (ScoreResponse.score resp <= th)%float) ->
  (forall a, app_id = Some a -> exists h, x_app_id = Some h /\ strip h = a) ->
  exists rec recs,
    get_scores limit threshold app_id db' = Ok (rec :: recs) /\
    TranslationScoreRecord.id rec = ScoreResponse.request_id resp /\
    TranslationScoreRecord.score rec = ScoreResponse.score resp /\
    TranslationScoreRecord.created_at rec = now /\
    value (TranslationScoreRecord.scoring_method rec) = ScoreRequestBody.method body.
Proof.
  intros Hpost Hdb Hnew Hb Hth Happ.
  pose proof (post_score_keeps_valid scoring_service _ _ _ _ _ _ _ _ _ _ Hpost Hdb)
    as Hvalid.
  pose proof Hpost as Hinv. unfold post_score in Hinv.
  destruct (require_app_id x_app_id) as [aid|] eqn:Ea; [|discriminate].
  destruct (validate body) as [payload|] eqn:Ev; [|discriminate].
  apply (score_translation_ok scoring_service) in Hinv
    as (res & m & _ & Hm & -> & ->).
  destruct (validate_inv body payload Ev) as (m' & _ & _ & _ & _ & Hbm & Hm').
  rewrite Hm in Hm'. injection Hm' as <-.
  set (row := row_of new_id now aid payload (value m) res) in *.
  assert (Hpass : row_selected threshold app_id row = true).
  { apply row_selected_passes; [apply Hb|]. split.
    - intros th E. exact (Hth th E).
    - intros a E. destruct (Happ a E) as (h & -> & <-).
      unfold require_app_id in Ea.
      destruct (String.eqb h "" || String.eqb (strip h) ""); [discriminate|].
      now injection Ea as <-. }
  destruct (query_in_bounds limit threshold app_id Hb) as (El & Et & Ea').
  destruct (limit_of_positive limit threshold app_id Hb) as [k Hk].
  unfold get_scores. rewrite El, Et, Ea'. unfold list_scores, execute.
  rewrite Nat2Z.id, filter_snoc, Hpass, Hk.
  rewrite order_by_snoc_newest.
  2:{ intros r Hr. apply filter_In in Hr as [Hr _]. exact (Hnew r Hr). }
  simpl firstn.
  destruct (to_records_represents
              (row :: firstn k (order_by_created_at_desc
                                  (filter (row_selected threshold app_id) db))))
    as (recs & E & Hrep).
  { constructor.
    - now exists m.
    - apply Forall_forall. intros r Hr. apply in_firstn in Hr.
      apply (Permutation_in _ (order_perm _)) in Hr.
      apply filter_In in Hr as [Hr _].
      exact (proj1 (Forall_forall _ _) Hdb r Hr). }
  inversion Hrep as [|? rec ? recs' Hr Hrest]; subst.
  exists rec, recs'. split; [exact E|].
  destruct Hr as (Hid & _ & _ & _ & _ & Hmeth & _ & Hscore & _ & _ & _ & Hcreated).
  repeat split; [exact Hid | exact Hscore | exact Hcreated |].
  rewrite Hmeth. simpl. now rewrite Hbm.
Qed.

(** X13. A request of one application leaves the listing of every other
    application as it was. *)
Theorem other_applications_unaffected
    (h : string) (body : ScoreRequestBody.t)
    (new_id : UUID) (now : datetime) (s s' : S) (db db' : Table)
    (res : Result ScoreResponse.t) (calls : list Call)
    (limit : option Z) (threshold : option float) (a : string) :
  post_score (Some h) body scoring_service new_id now s db = (res, s', db', calls) ->
  a <> "" -> a <> strip h ->
  get_scores limit threshold (Some a) db' = get_scores limit threshold (Some a) db.
Proof.
  intros Hpost Ha Hne.
  destruct res as [resp | e].
  - unfold post_score in Hpost.
    destruct (require_app_id (Some h)) as [aid|] eqn:Ea; [|discriminate].
    destruct (validate body) as [payload|]; [|discriminate].
    apply (score_translation_ok scoring_service) in Hpost
      as (r & m & _ & _ & -> & _).
    assert (aid = strip h).
    { unfold require_app_id in Ea.
      destruct (String.eqb h "" || String.eqb (strip h) ""); [discriminate|].
      now injection Ea. }
    subst aid.
    unfold get_scores, list_scores, execute.
    destruct (query_limit limit); [|reflexivity].
    destruct (query_threshold threshold) as [th|]; [|reflexivity].
    destruct (query_app_id (Some a)) as [a'|] eqn:Eq; [|reflexivity].
    assert (a' = Some a).
    { unfold query_app_id in Eq. destruct (1 <=? String.length a)%nat; congruence. }
    subst a'. rewrite filter_snoc.
    assert (Hsel : row_selected th (Some a)
                     (row_of new_id now (strip h) payload (value m) r) = false).
    { unfold row_selected. simpl.
      destruct (String.eqb_spec a ""); [contradiction|].
      destruct (String.eqb_spec (strip h) a); [now subst|].
      apply andb_false_r. }
    rewrite Hsel. now rewrite app_nil_r.
  - assert (db' = db); [|now subst].
    unfold post_score in Hpost.
    destruct (require_app_id (Some h)) as [aid|]; [|now injection Hpost as _ _ <- _].
    destruct (validate body) as [payload|]; [|now injection Hpost as _ _ <- _].
    now apply (score_translation_raise scoring_service) in Hpost.
Qed.

(** X14. A scored request adds one to the rows of its own application. *)
Theorem own_application_count_grows
    (h : string) (body : ScoreRequestBody.t)
    (new_id : UUID) (now : datetime) (s s' : S) (db db' : Table)
    (resp : ScoreResponse.t) (calls : list Call) :
  post_score (Some h) body scoring_service new_id now s db = (Ok resp, s', db', calls) ->
  length (filter (row_selected None (Some (strip h))) db')
  = Datatypes.S (length (filter (row_selected None (Some (strip h))) db)).
Proof.
  intros Hpost. unfold post_score in Hpost.
  destruct (require_app_id (Some h)) as [aid|] eqn:Ea; [|discriminate].
  destruct (validate body) as [payload|]; [|discriminate].
  apply (score_translation_ok scoring_service) in Hpost as (r & m & _ & _ & -> & _).
  unfold require_app_id in Ea.
  destruct (String.eqb h "" || String.eqb (strip h) "") eqn:Eh; [discriminate|].
  injection Ea as <-. apply orb_false_iff in Eh as [_ Eh].
  rewrite filter_snoc.
  assert (Hsel : row_selected None (Some (strip h))
                   (row_of new_id now (strip h) payload (value m) r) = true).
  { unfold row_selected. simpl. rewrite Eh. apply String.eqb_refl. }
  rewrite Hsel, length_app. simpl. lia.
Qed.

End RoundTrip.

(** ** Stripping, the header and validation *)

Section Stripping.

Variable p : ascii -> bool.

Lemma lstrip_by_head (s : string) : head_by p (lstrip_by p s) = false.
Proof.
  induction s as [|c s IH]; simpl; [reflexivity|].
  destruct (p c) eqn:Hc; [exact IH | simpl; exact Hc].
Qed.

Lemma rstrip_by_last (s : string) : last_by p (rstrip_by p s) = false.
Proof.
  induction s as [|c s IH]; simpl; [reflexivity|].
  destruct (rstrip_by p s) as [|d r].
  - destruct (p c) eqn:Hc; [reflexivity | simpl; exact Hc].
  - exact IH.
Qed.

Lemma rstrip_by_head (s : string) :
  head_by p s = false -> head_by p (rstrip_by p s) = false.
Proof.
  destruct s as [|c s]; simpl; [reflexivity|]. intros Hc.
  destruct (rstrip_by p s); [now rewrite Hc | exact Hc].
Qed.

Lemma lstrip_by_id (s : string) : head_by p s = false -> lstrip_by p s = s.
Proof. destruct s as [|c s]; simpl; [reflexivity|]. now intros ->. Qed.

Lemma rstrip_by_id (s : string) : last_by p s = false -> rstrip_by p s = s.
Proof.
  induction s as [|c s IH]; [reflexivity|].
  destruct s as [|d s].
  - simpl. now intros ->.
  - intros H. change (last_by p (String d s) = false) in H.
    change (rstrip_by p (String c (String d s)))
      with (match rstrip_by p (String d s) with
            | EmptyString => if p c then EmptyString else String c EmptyString
            | r => String c r
            end).
    now rewrite (IH H).
Qed.

Lemma strip_by_idempotent (s : string) :
  rstrip_by p (lstrip_by p (rstrip_by p (lstrip_by p s))) = rstrip_by p (lstrip_by p s).
Proof.
  rewrite (lstrip_by_id (rstrip_by p (lstrip_by p s))).
  - apply rstrip_by_id, rstrip_by_last.
  - apply rstrip_by_head, lstrip_by_head.
Qed.

End Stripping.

Section Validation.

Lemma strip_is_strip_by (s : string) : strip s = rstrip_by is_space (lstrip_by is_space s).
Proof.
  unfold strip.
  assert (L : forall t, lstrip t = lstrip_by is_space t)
    by (induction t as [|c t IH]; simpl; [reflexivity | now rewrite IH]).
  assert (R : forall t, rstrip t = rstrip_by is_space t)
    by (induction t as [|c t IH]; simpl; [reflexivity | now rewrite IH]).
  now rewrite L, R.
Qed.

Lemma trim_is_strip_by (s : string) :
  trim s = rstrip_by is_white_space (lstrip_by is_white_space s).
Proof.
  unfold trim.
  assert (L : forall t, ltrim t = lstrip_by is_white_space t)
    by (induction t as [|c t IH]; simpl; [reflexivity | now rewrite IH]).
  assert (R : forall t, rtrim t = rstrip_by is_white_space t)
    by (induction t as [|c t IH]; simpl; [reflexivity | now rewrite IH]).
  now rewrite L, R.
Qed.

Lemma strip_idempotent (s : string) : strip (strip s) = strip s.
Proof. rewrite !strip_is_strip_by. apply strip_by_idempotent. Qed.

Lemma trim_idempotent (s : string) : trim (trim s) = trim s.
Proof. rewrite !trim_is_strip_by. apply strip_by_idempotent. Qed.

(** X19. An accepted application identifier is itself a header that is accepted,
    and as itself: the check strips once and for all. *)
Theorem require_app_id_idempotent (h a : string) :
  require_app_id (Some h) = Ok a ->
  a <> "" /\ strip a = a /\ require_app_id (Some a) = Ok a.
Proof.
  unfold require_app_id.
  destruct (String.eqb h "" || String.eqb (strip h) "") eqn:Eh; [discriminate|].
  intros [= <-]. apply orb_false_iff in Eh as [_ Eh].
  pose proof Eh as Hne. apply String.eqb_neq in Hne.
  rewrite strip_idempotent, Eh, orb_false_r.
  destruct (String.eqb_spec (strip h) ""); [contradiction|]. auto.
Qed.

(** X17. The constructor of the enumeration and [value] are inverse: a string
    names a member exactly when it is the member's value, letter for
    letter. *)
Theorem scoring_method_round_trip :
  (forall m, ScoringMethod_of (value m) = Ok m) /\
  (forall v m, ScoringMethod_of v = Ok m -> v = value m) /\
  (forall v, outside_enumeration v ->
     exists msg, ScoringMethod_of v = Raise (ValueError msg)) /\
  (forall m1 m2, value m1 = value m2 -> m1 = m2).
Proof.
  split; [|split; [|split]].
  - now destruct m.
  - exact ScoringMethod_of_inv.
  - intros v H. unfold ScoringMethod_of.
    destruct (String.eqb_spec v "GEMBA-DA"); [now elim (H GEMBA_DA)|].
    destruct (String.eqb_spec v "GEMBA-MQM"); [now elim (H GEMBA_MQM)|].
    destruct (String.eqb_spec v "GEMBA-ESA"); [now elim (H GEMBA_ESA)|].
    destruct (String.eqb_spec v "STRUCTURED-DA"); [now elim (H STRUCTURED_DA)|].
    eauto.
  - intros [] []; simpl; intros H; try reflexivity; discriminate.
Qed.

Lemma constr_ok (v t : string) : constr v = Ok t <-> t = trim v /\ trim v <> "".
Proof.
  unfold constr. destruct (trim v) as [|c r]; split.
  - discriminate.
  - intros [_ H]. now elim H.
  - intros [= <-]. split; [reflexivity | discriminate].
  - intros [-> _]. reflexivity.
Qed.

Lemma constr_error (v : string) (e : exn) :
  constr v = Raise e -> exists msg, e = RequestValidationError msg.
Proof. unfold constr. destruct (trim v); [intros [= <-]; eauto | discriminate]. Qed.

Lemma constr_trimmed (v : string) : trim v <> "" -> constr (trim v) = Ok (trim v).
Proof.
  intros H. apply constr_ok. rewrite trim_idempotent. now split.
Qed.

(** X18. Validation accepts a body exactly when its four texts are not empty once
    trimmed and its method is the value of a member; the request then holds
    the trimmed texts and that member.  Every rejection is a validation
    error.  A validated request sent again as a body validates to itself. *)
Theorem validate_characterised (b : ScoreRequestBody.t) :
  (forall p, validate b = Ok p <->
     trim (ScoreRequestBody.source_lang b) <> "" /\
     trim (ScoreRequestBody.target_lang b) <> "" /\
     trim (ScoreRequestBody.source_text b) <> "" /\
     trim (ScoreRequestBody.target_text b) <> "" /\
     exists m,
       ScoreRequestBody.method b = value m /\
       p = ScoreRequest.Build
             (trim (ScoreRequestBody.source_lang b))
             (trim (ScoreRequestBody.target_lang b))
             (trim (ScoreRequestBody.source_text b))
             (trim (ScoreRequestBody.target_text b))
             (Member m))
  /\
  (forall e, validate b = Raise e -> exists msg, e = RequestValidationError msg)
  /\
  (forall p, validate b = Ok p -> validate (body_of p) = Ok p).
Proof.
  assert (Hiff : forall p, validate b = Ok p <->
     trim (ScoreRequestBody.source_lang b) <> "" /\
     trim (ScoreRequestBody.target_lang b) <> "" /\
     trim (ScoreRequestBody.source_text b) <> "" /\
     trim (ScoreRequestBody.target_text b) <> "" /\
     exists m,
       ScoreRequestBody.method b = value m /\
       p = ScoreRequest.Build
             (trim (ScoreRequestBody.source_lang b))
             (trim (ScoreRequestBody.target_lang b))
             (trim (ScoreRequestBody.source_text b))
             (trim (ScoreRequestBody.target_text b))
             (Member m)).
  { intros p. unfold validate. split.
    - destruct (constr (ScoreRequestBody.source_lang b)) as [a1|] eqn:E1; [|discriminate].
      destruct (constr (ScoreRequestBody.target_lang b)) as [a2|] eqn:E2; [|discriminate].
      destruct (constr (ScoreRequestBody.source_text b)) as [a3|] eqn:E3; [|discriminate].
      destruct (constr (ScoreRequestBody.target_text b)) as [a4|] eqn:E4; [|discriminate].
      destruct (ScoringMethod_of (ScoreRequestBody.method b)) as [m|] eqn:Em;
        [|discriminate].
      intros [= <-].
      apply constr_ok in E1 as [-> H1], E2 as [-> H2], E3 as [-> H3], E4 as [-> H4].
      repeat split; try assumption. exists m. split; [|reflexivity].
      now apply ScoringMethod_of_inv.
    - intros (H1 & H2 & H3 & H4 & m & Hm & ->).
      rewrite (proj2 (constr_ok _ _) (conj eq_refl H1)),
              (proj2 (constr_ok _ _) (conj eq_refl H2)),
              (proj2 (constr_ok _ _) (conj eq_refl H3)),
              (proj2 (constr_ok _ _) (conj eq_refl H4)), Hm.
      now destruct m. }
  split; [exact Hiff|]. split.
  - intros e. unfold validate.
    destruct (constr (ScoreRequestBody.source_lang b)) as [a1|] eqn:E1;
      [|intros [= <-]; now apply constr_error in E1].
    destruct (constr (ScoreRequestBody.target_lang b)) as [a2|] eqn:E2;
      [|intros [= <-]; now apply constr_error in E2].
    destruct (constr (ScoreRequestBody.source_text b)) as [a3|] eqn:E3;
      [|intros [= <-]; now apply constr_error in E3].
    destruct (constr (ScoreRequestBody.target_text b)) as [a4|] eqn:E4;
      [|intros [= <-]; now apply constr_error in E4].
    destruct (ScoringMethod_of (ScoreRequestBody.method b)); [discriminate|].
    intros [= <-]. eauto.
  - intros p Hp. apply Hiff in Hp as (H1 & H2 & H3 & H4 & m & Hm & ->).
    unfold validate, body_of. simpl.
    rewrite !constr_trimmed by assumption.
    now destruct m.
Qed.

End Validation.

(** ** The wrapper and the caches *)

Section Wrapper.

Context {R : Type} {service : OpenAI.Service R}.
Variable self : AzureOpenAIClient.t.

(** X20. The text [complete] returns is the content of the first choice,
    stripped: stripping it again changes nothing, and a content that is
    absent or all whitespace gives the empty text.  An [APIError] of the SDK
    comes out as [LLMClientError] with the same message. *)
Theorem azure_complete_text (r r' : R) (messages : list ChatMessage) :
  (forall text,
     AzureOpenAIClient.complete self r messages = (Ok text, r') ->
     strip text = text /\
     exists response choice rest,
       OpenAI.create r (AzureOpenAIClient._deployment self) messages (Finite 0)
       = (OpenAI.Returned response, r') /\
       OpenAI.choices response = choice :: rest /\
       text = strip (match OpenAI.content (OpenAI.message choice) with
                     | Some c => c
                     | None => ""
                     end))
  /\
  (forall msg,
     OpenAI.create r (AzureOpenAIClient._deployment self) messages (Finite 0)
     = (OpenAI.RaisedAPIError msg, r') ->
     AzureOpenAIClient.complete self r messages = (Raise (LLMClientError msg), r')).
Proof.
  unfold AzureOpenAIClient.complete. split.
  - intros text.
    destruct (OpenAI.create r (AzureOpenAIClient._deployment self) messages (Finite 0))
      as [[response | msg | e] r1]; try discriminate.
    destruct (OpenAI.choices response) as [|choice rest] eqn:Ec; [discriminate|].
    intros [= <- <-]. split; [apply strip_idempotent|].
    exists response, choice, rest. now rewrite Ec.
  - now intros msg ->.
Qed.

End Wrapper.

Section Caches.

Variable load : Result Settings.t.

Lemma get_llm_clients_cached (c : AzureOpenAIClient.t) (ss : list Settings.t)
    (g : Process.t) :
  Process._cached_client g = Some c ->
  get_llm_clients load (map Some ss) g = repeat (Ok c) (length ss).
Proof.
  revert g. induction ss as [|s ss IH]; intros g Hg; simpl; [reflexivity|].
  unfold Process.get_llm_client. simpl. rewrite Hg. f_equal. now apply IH.
Qed.

(** X23. The client is built once: from an empty cache, every call returns the
    client of the settings the first call was given, whatever settings the
    later calls are given. *)
Theorem llm_client_built_once (s : Settings.t) (ss : list Settings.t) (g : Process.t) :
  Process._cached_client g = None ->
  get_llm_clients load (map Some (s :: ss)) g
  = repeat (Ok (AzureOpenAIClient.new s)) (Datatypes.S (length ss)).
Proof.
  intros Hg. simpl. unfold Process.get_llm_client. simpl. rewrite Hg. f_equal.
  now apply get_llm_clients_cached.
Qed.

Variable engine_error : string -> option exn.

Lemma get_databases_cached (d : Database.t) (ss : list Settings.t) (g : Process.t) :
  Process._database g = Some d ->
  get_databases load engine_error (map Some ss) g = repeat (Ok d) (length ss).
Proof.
  revert g. induction ss as [|s ss IH]; intros g Hg; simpl; [reflexivity|].
  unfold Process.get_database. simpl. rewrite Hg. f_equal. now apply IH.
Qed.

Lemma get_databases_fresh (s : Settings.t) (ss : list Settings.t) (g : Process.t) :
  engine_error (Settings.database_url s) = None ->
  Process._database g = None ->
  get_databases load engine_error (map Some (s :: ss)) g
  = repeat (Ok (Database.Build (Settings.database_url s))) (Datatypes.S (length ss)).
Proof.
  intros He Hg. simpl. unfold Process.get_database, Process.new_database. simpl.
  rewrite Hg, He. f_equal. now apply get_databases_cached.
Qed.

(** X24. The database handle is a singleton until it is reset.  When the engine
    can be made from the URL of the first settings, every call returns that
    handle, whatever settings the later calls are given; after
    [reset_database] the next call builds a handle anew.  When the engine
    cannot be made the call raises and keeps nothing, so that the next call
    builds from its own settings. *)
Theorem database_singleton_until_reset
    (s : Settings.t) (ss : list Settings.t) (g : Process.t) :
  engine_error (Settings.database_url s) = None ->
  (Process._database g = None ->
   get_databases load engine_error (map Some (s :: ss)) g
   = repeat (Ok (Database.Build (Settings.database_url s))) (Datatypes.S (length ss)))
  /\
  get_databases load engine_error (map Some (s :: ss)) (Process.reset_database g)
  = repeat (Ok (Database.Build (Settings.database_url s))) (Datatypes.S (length ss))
  /\
  (forall s0 e,
     engine_error (Settings.database_url s0) = Some e ->
     Process._database g = None ->
     get_databases load engine_error (map Some (s0 :: s :: ss)) g
     = Raise e :: repeat (Ok (Database.Build (Settings.database_url s)))
                    (Datatypes.S (length ss))).
Proof.
  intros He. split; [|split].
  - now apply get_databases_fresh.
  - now apply get_databases_fresh.
  - intros s0 e Hs0 Hg.
    change (map Some (s0 :: s :: ss)) with (Some s0 :: map Some (s :: ss)).
    cbn [get_databases]. unfold Process.get_database at 1, Process.new_database.
    cbn [Process.settings_or]. rewrite Hg, Hs0. f_equal.
    now apply get_databases_fresh.
Qed.

End Caches.

Section PromptLength.

Lemma render_length (kw : kwargs) (segs : list segment) (out : string) :
  render kw segs = Ok out ->
  String.length out = literal_count segs + fields_length kw (segment_fields segs).
Proof.
  revert out. induction segs as [|[c|name] segs IH]; simpl; intros out H.
  - now injection H as <-.
  - destruct (render kw segs) as [rest|]; [|discriminate].
    injection H as <-. simpl. f_equal. now apply IH.
  - destruct (lookup kw name) as [v|]; [|discriminate].
    destruct (render kw segs) as [rest|]; [|discriminate].
    injection H as <-. rewrite length_append.
    pose proof (IH rest eq_refl) as E. simpl. lia.
Qed.

Lemma format_length (template : string) (kw : kwargs) (out : string)
    (n : nat) (names : list string) :
  template_literals template = Some n ->
  template_fields template = Some names ->
  format template kw = Ok out ->
  String.length out = n + fields_length kw names.
Proof.
  unfold template_literals, template_fields, format.
  destruct (parse_template template None) as [segs|]; [|discriminate].
  intros [= <-] [= <-]. apply render_length.
Qed.

End PromptLength.

(** ** Sizes of prompts, the log of the test double, the wrapper in use *)

Section PromptSizes.

Lemma gemba_da_prompt_shape :
  template_literals gemba_da_prompt_template = Some 228 /\
  template_fields gemba_da_prompt_template
  = Some ["source_lang"; "target_lang"; "source_lang"; "source_text";
          "target_lang"; "target_text"].
Proof. split; vm_compute; reflexivity. Qed.

Lemma gemba_mqm_final_user_shape :
  template_literals gemba_mqm_final_user_template = Some 791 /\
  template_fields gemba_mqm_final_user_template
  = Some ["source_lang"; "source_text"; "target_lang"; "target_text"].
Proof. split; vm_compute; reflexivity. Qed.

Lemma gemba_esa_error_prompt_shape :
  template_literals gemba_esa_error_prompt_template = Some 766 /\
  template_fields gemba_esa_error_prompt_template
  = Some ["source_lang"; "source_text"; "target_lang"; "target_text"].
Proof. split; vm_compute; reflexivity. Qed.

Lemma gemba_esa_scoring_prompt_shape :
  template_literals gemba_esa_scoring_prompt_template = Some 426 /\
  template_fields gemba_esa_scoring_prompt_template
  = Some ["source_lang"; "target_lang"; "source_lang"; "source_text";
          "target_lang"; "target_text"; "errors"].
Proof. split; vm_compute; reflexivity. Qed.

Lemma structured_da_user_message_shape :
  template_literals structured_da_user_message_template = Some 496 /\
  template_fields structured_da_user_message_template
  = Some ["source_lang"; "target_lang"; "source_lang"; "source_text";
          "target_lang"; "target_text"].
Proof. split; vm_compute; reflexivity. Qed.

(** X25. A prompt is as long as the fixed text of its template and the texts put
    into it, each counted as often as the template names it: nothing is cut
    and nothing is added.  The second ESA prompt grows with the error
    annotation, character for character. *)
Theorem prompt_lengths (payload : ScoreRequest.t) (errors : string) :
  let sl := String.length (ScoreRequest.source_lang payload) in
  let tl := String.length (ScoreRequest.target_lang payload) in
  let st := String.length (ScoreRequest.source_text payload) in
  let tt := String.length (ScoreRequest.target_text payload) in
  (exists out, gemba_da_prompt payload = Ok out /\
     String.length out = 228 + 2 * sl + 2 * tl + st + tt) /\
  (exists out, gemba_mqm_final_user payload = Ok out /\
     String.length out = 791 + sl + tl + st + tt) /\
  (exists out, gemba_esa_error_prompt payload = Ok out /\
     String.length out = 766 + sl + tl + st + tt) /\
  (exists out, gemba_esa_scoring_prompt payload errors = Ok out /\
     String.length out = 426 + 2 * sl + 2 * tl + st + tt + String.length errors) /\
  (exists out, structured_da_user_message payload = Ok out /\
     String.length out = 496 + 2 * sl + 2 * tl + st + tt).
Proof.
  intros sl tl st tt. repeat split.
  - destruct (request_template_carries _ payload gemba_da_prompt_fields)
      as (out & Hout & _).
    exists out. split; [exact Hout|].
    rewrite (format_length _ _ _ _ _ (proj1 gemba_da_prompt_shape)
               (proj2 gemba_da_prompt_shape) Hout).
    subst sl tl st tt. simpl. lia.
  - destruct (request_template_carries _ payload gemba_mqm_final_user_fields)
      as (out & Hout & _).
    exists out. split; [exact Hout|].
    rewrite (format_length _ _ _ _ _ (proj1 gemba_mqm_final_user_shape)
               (proj2 gemba_mqm_final_user_shape) Hout).
    subst sl tl st tt. simpl. lia.
  - destruct (request_template_carries _ payload gemba_esa_error_prompt_fields)
      as (out & Hout & _).
    exists out. split; [exact Hout|].
    rewrite (format_length _ _ _ _ _ (proj1 gemba_esa_error_prompt_shape)
               (proj2 gemba_esa_error_prompt_shape) Hout).
    subst sl tl st tt. simpl. lia.
  - destruct (gemba_esa_scoring_prompt_carries payload errors) as (out & Hout & _).
    exists out. split; [exact Hout|].
    rewrite (format_length _ _ _ _ _ (proj1 gemba_esa_scoring_prompt_shape)
               (proj2 gemba_esa_scoring_prompt_shape) Hout).
    subst sl tl st tt. simpl. lia.
  - destruct (request_template_carries _ payload structured_da_user_message_fields)
      as (out & Hout & _).
    exists out. split; [exact Hout|].
    rewrite (format_length _ _ _ _ _ (proj1 structured_da_user_message_shape)
               (proj2 structured_da_user_message_shape) Hout).
    subst sl tl st tt. simpl. lia.
Qed.

End PromptSizes.

Section FakeLog.

Lemma fake_complete_logs (self : FakeLLMClient.t) (messages : list ChatMessage) :
  match rev messages with
  | [] => FakeLLMClient.complete self messages = (Raise IndexError, self)
  | m :: _ =>
      exists r, FakeLLMClient.complete self messages = (Ok r, (self ++ [content m])%list)
  end.
Proof.
  unfold FakeLLMClient.complete. destruct (rev messages) as [|m rest]; [reflexivity|].
  repeat match goal with
         | |- context [if ?b then _ else _] => destruct b; [eauto|]
         end.
  eauto.
Qed.

(** X26. Run against the test double, a computation leaves in [self.calls] the
    content of the last message of each [complete] call it made, in order,
    after what was there; [parse] calls and a [complete] call without
    messages leave nothing. *)
Theorem fake_log_matches_calls {A : Type} (m : Await A) (self self' : FakeLLMClient.t)
    (res : Result A) (calls : list Call) :
  run (client := FakeLLMClient.client) m self = (res, self', calls) ->
  self' = (self ++ logged calls)%list.
Proof.
  revert self self' res calls.
  induction m as [a | e | messages k IH | M messages k IH];
    intros self self' res calls; simpl.
  - intros [= _ <- <-]. now rewrite app_nil_r.
  - intros [= _ <- <-]. now rewrite app_nil_r.
  - pose proof (fake_complete_logs self messages) as H.
    destruct (rev messages) as [|msg rest] eqn:Er.
    + rewrite H. intros [= _ <- <-]. simpl. rewrite Er. now rewrite app_nil_r.
    + destruct H as [r ->].
      destruct (run (client := FakeLLMClient.client) (k r) (self ++ [content msg])%list) as [[res1 s1] calls1] eqn:Ek.
      intros [= _ <- <-]. simpl. rewrite Er.
      rewrite (IH r _ _ _ _ Ek), <- app_assoc. reflexivity.
  - destruct M; simpl.
    + destruct (run (client := FakeLLMClient.client) (k _) self) as [[res1 s1] calls1] eqn:Ek.
      intros [= _ <- <-]. simpl. exact (IH _ _ _ _ _ Ek).
    + destruct (run (client := FakeLLMClient.client) (k _) self) as [[res1 s1] calls1] eqn:Ek.
      intros [= _ <- <-]. simpl. exact (IH _ _ _ _ _ Ek).
Qed.

End FakeLog.

Section WrapperInUse.

Context {R : Type} {service : OpenAI.Service R} {serializer : Serializer}.
Variable self : AzureOpenAIClient.t.
Variable scoring_service : ScoringService.t.

Lemma strip_keeps_no_digit (c : string) : has_digit c = false -> has_digit (strip c) = false.
Proof.
  intros H. destruct (strip_trimmed c) as ((pre & suf & E & _) & _).
  rewrite E, !has_digit_app in H.
  apply orb_false_iff in H as [_ H]. now apply orb_false_iff in H as [H _].
Qed.

(** X21. When the service answers the GEMBA-DA prompt with a first choice whose
    content is absent or holds no digit, the handler raises status 500 with
    the parse message and writes no row. *)
Theorem completion_without_number_is_500
    (payload : ScoreRequest.t) (app_id prompt : string)
    (new_id : UUID) (now : datetime) (r r' : R) (db : Table)
    (response : OpenAI.ChatCompletion) (choice : OpenAI.Choice)
    (rest : list OpenAI.Choice) :
  ScoreRequest.method payload = Member GEMBA_DA ->
  gemba_da_prompt payload = Ok prompt ->
  OpenAI.create r (AzureOpenAIClient._deployment self) [ScoringService.user prompt] (Finite 0)
  = (OpenAI.Returned response, r') ->
  OpenAI.choices response = choice :: rest ->
  (forall c, OpenAI.content (OpenAI.message choice) = Some c -> has_digit c = false) ->
  score_translation (client := AzureOpenAIClient.protocol self)
    payload app_id scoring_service new_id now r db
  = (Raise (HTTPException 500 "Could not parse numeric score from LLM response"),
     r', db, [CompleteCall [ScoringService.user prompt]]).
Proof.
  intros Hm Hp Hc Hch Hd. unfold score_translation.
  rewrite (response_without_number (client := AzureOpenAIClient.protocol self)
             scoring_service payload prompt
             (strip (match OpenAI.content (OpenAI.message choice) with
                     | Some c => c
                     | None => ""
                     end)) r r' Hm Hp).
  - reflexivity.
  - simpl. unfold AzureOpenAIClient.complete. now rewrite Hc, Hch.
  - apply strip_keeps_no_digit.
    destruct (OpenAI.content (OpenAI.message choice)) as [c|]; [now apply Hd | reflexivity].
Qed.

(** X22. When the service raises [APIError] for whatever it is asked, a request
    of any of the four methods makes one call; the handler raises
    [LLMClientError] with the message of the service, as it is and not as an
    [HTTPException], and writes no row. *)
Theorem api_error_leaves_handler_unwrapped
    (payload : ScoreRequest.t) (m : ScoringMethod) (app_id msg : string)
    (new_id : UUID) (now : datetime) (r r' : R) (db : Table) :
  ScoreRequest.method payload = Member m ->
  (forall model messages t,
     OpenAI.create r model messages t = (OpenAI.RaisedAPIError msg, r')) ->
  (forall M model messages t,
     OpenAI.parse M r model messages t = (OpenAI.RaisedAPIError msg, r')) ->
  exists call,
    score_translation (client := AzureOpenAIClient.protocol self)
      payload app_id scoring_service new_id now r db
    = (Raise (LLMClientError msg), r', db, [call]).
Proof.
  intros Hm Hcreate Hparse. unfold score_translation.
  rewrite (score_member scoring_service payload m Hm).
  destruct m.
  - unfold ScoringService._score_gemba_da.
    destruct (request_template_carries _ payload gemba_da_prompt_fields)
      as (p & Hp & _).
    fold (gemba_da_prompt payload) in Hp. rewrite Hp.
    cbn [lift LLM.bind await_complete run]. simpl complete.
    unfold AzureOpenAIClient.complete. rewrite Hcreate. eauto.
  - unfold ScoringService._score_gemba_mqm.
    destruct (request_template_carries _ payload gemba_mqm_final_user_fields)
      as (p & Hp & _).
    fold (gemba_mqm_final_user payload) in Hp. rewrite Hp.
    cbn [lift LLM.bind await_parse run]. simpl parse.
    unfold AzureOpenAIClient.parse. rewrite Hparse. eauto.
  - unfold ScoringService._score_gemba_esa.
    destruct (request_template_carries _ payload gemba_esa_error_prompt_fields)
      as (p & Hp & _).
    fold (gemba_esa_error_prompt payload) in Hp. rewrite Hp.
    cbn [lift LLM.bind await_complete run]. simpl complete.
    unfold AzureOpenAIClient.complete. rewrite Hcreate. eauto.
  - unfold ScoringService._score_structured_da.
    destruct (request_template_carries _ payload structured_da_user_message_fields)
      as (p & Hp & _).
    fold (structured_da_user_message payload) in Hp. rewrite Hp.
    cbn [lift LLM.bind await_parse run]. simpl parse.
    unfold AzureOpenAIClient.parse. rewrite Hparse. eauto.
Qed.

End WrapperInUse.

(** ** Instances of the further properties *)

Lemma findall_app_apart_witness :
  findall ("score 12" ++ " of 100") = (findall "score 12" ++ findall " of 100")%list.
Proof. apply (findall_app_apart "score 12" " of 100"). reflexivity. Defined.

Lemma extract_ignores_trailing_text_witness :
  _extract_last_number ("Score: 87" ++ " points.") = _extract_last_number "Score: 87".
Proof. apply (extract_ignores_trailing_text "Score: 87" " points."). reflexivity. Defined.

Lemma extract_last_token_wins_witness :
  _extract_last_number ("first 12, then" ++ String " " "98.5") = python_float "98.5".
Proof.
  apply (extract_last_token_wins "first 12, then" "98.5" " ").
  - exists "", "98", ".5". repeat split; auto; try discriminate.
    right. exists "5". repeat split. discriminate.
  - reflexivity.
  - discriminate.
  - discriminate.
Defined.

Lemma calls_by_method_witness :
  exists final,
    snd (run (client := FakeLLMClient.client)
           (ScoringService.score Fixtures.service (Fixtures.request (Member GEMBA_MQM)))
           FakeLLMClient.init)
    = [ParseCall MQMEval_model (mqm_messages final)].
Proof.
  destruct (run (client := FakeLLMClient.client)
              (ScoringService.score Fixtures.service (Fixtures.request (Member GEMBA_MQM)))
              FakeLLMClient.init) as [[res s'] calls] eqn:E.
  exact (calls_by_method (client := FakeLLMClient.client)
           (serializer := Fixtures.serializer) Fixtures.service
           (Fixtures.request (Member GEMBA_MQM)) GEMBA_MQM
           FakeLLMClient.init s' res calls eq_refl E).
Defined.

Lemma gemba_da_one_call_witness :
  exists prompt res,
    ScoreComputation.score res = Finite (197 # 2) /\
    run (client := FakeLLMClient.client)
        (ScoringService.score Fixtures.service (Fixtures.request (Member GEMBA_DA)))
        FakeLLMClient.init
    = (Ok res, [prompt], [CompleteCall [ScoringService.user prompt]]).
Proof.
  destruct (gemba_da_one_call (client := FakeLLMClient.client)
              (serializer := Fixtures.serializer) Fixtures.service
              (Fixtures.request (Member GEMBA_DA)) FakeLLMClient.init eq_refl)
    as (p & Hp & K).
  vm_compute in Hp. injection Hp as <-.
  specialize (K (Ok "98.5") [_] eq_refl).
  cbv beta iota in K. rewrite (proj2 fake_scores) in K.
  eexists _, _. split; [|exact K]. reflexivity.
Defined.

Lemma gemba_mqm_one_call_witness :
  exists final res,
    ScoreComputation.score res = Finite 95 /\
    ScoreComputation.rationale res = Some "Stub MQM response" /\
    run (client := FakeLLMClient.client)
        (ScoringService.score Fixtures.service (Fixtures.request (Member GEMBA_MQM)))
        FakeLLMClient.init
    = (Ok res, FakeLLMClient.init, [ParseCall MQMEval_model (mqm_messages final)]).
Proof.
  destruct (gemba_mqm_one_call (client := FakeLLMClient.client)
              (serializer := Fixtures.serializer) Fixtures.service
              (Fixtures.request (Member GEMBA_MQM)) FakeLLMClient.init eq_refl)
    as (p & Hp & K).
  specialize (K _ _ eq_refl). simpl in K.
  eexists _, _. split; [|split; [|exact K]]; reflexivity.
Defined.

Lemma structured_da_one_call_witness :
  exists message res,
    ScoreComputation.adequacy res = Some (Finite 4.5) /\
    run (client := FakeLLMClient.client)
        (ScoringService.score Fixtures.service (Fixtures.request (Member STRUCTURED_DA)))
        FakeLLMClient.init
    = (Ok res, FakeLLMClient.init,
       [ParseCall StructuredDAReturn_model (structured_da_messages message)]).
Proof.
  destruct (structured_da_one_call (client := FakeLLMClient.client)
              (serializer := Fixtures.serializer) Fixtures.service
              (Fixtures.request (Member STRUCTURED_DA)) FakeLLMClient.init eq_refl)
    as (p & Hp & K).
  specialize (K _ _ eq_refl). simpl in K.
  eexists _, _. split; [|exact K]. reflexivity.
Defined.

Lemma fake_run_esa :
  exists res s' calls,
    run (client := FakeLLMClient.client)
        (ScoringService.score Fixtures.service (Fixtures.request (Member GEMBA_ESA)))
        FakeLLMClient.init
    = (Ok res, s', calls).
Proof. vm_compute. eexists _, _, _. reflexivity. Qed.

Lemma result_names_method_and_model_witness :
  exists res s' calls,
    run (client := FakeLLMClient.client)
        (ScoringService.score Fixtures.service (Fixtures.request (Member GEMBA_ESA)))
        FakeLLMClient.init
    = (Ok res, s', calls) /\
    ScoreComputation.method res = Member GEMBA_ESA /\
    ScoreComputation.llm_model res = "gpt-4o-mini".
Proof.
  destruct fake_run_esa as (res & s' & calls & E).
  exists res, s', calls. split; [exact E|].
  exact (result_names_method_and_model (client := FakeLLMClient.client)
           (serializer := Fixtures.serializer) Fixtures.service
           (Fixtures.request (Member GEMBA_ESA)) GEMBA_ESA
           FakeLLMClient.init s' res calls eq_refl E).
Defined.

Lemma fake_post_score_on_table :
  exists resp s' db' calls,
    post_score (client := FakeLLMClient.client) (Some "  widget-a ")
      (Fixtures.body "GEMBA-DA") Fixtures.service 7%N 400%Z FakeLLMClient.init
      Fixtures.table
    = (Ok resp, s', db', calls).
Proof. vm_compute. eexists _, _, _, _. reflexivity. Qed.

Lemma post_score_response_witness :
  exists resp payload res s' calls,
    validate (Fixtures.body "GEMBA-DA") = Ok payload /\
    resp = response_of 7%N payload res /\
    post_score (client := FakeLLMClient.client) (Some "  widget-a ")
      (Fixtures.body "GEMBA-DA") Fixtures.service 7%N 400%Z
      FakeLLMClient.init Fixtures.table
    = (Ok resp, s',
       (Fixtures.table ++ [row_of 7%N 400%Z "widget-a" payload "GEMBA-DA" res])%list,
       calls).
Proof.
  destruct fake_post_score_on_table as (resp & s' & db' & calls & E).
  destruct (post_score_response (client := FakeLLMClient.client)
              (serializer := Fixtures.serializer) Fixtures.service
              _ _ _ _ _ _ _ _ _ _ E)
    as (h & payload & res & Hh & _ & Hv & _ & Hdb & Hresp).
  injection Hh as <-.
  exists resp, payload, res, s', calls.
  repeat split; [exact Hv | exact Hresp |].
  rewrite E. now rewrite Hdb.
Defined.

(** The request of the test on a client whose completion is a number beyond
    the range of floats: the row is written with the infinity and the
    answer is an error of status 500; from then on the listing is answered
    with status 500 too, unless a threshold leaves the row out. *)
Lemma overflowing_post :
  exists msg row calls,
    serve_post_score (client := Samples.overflowing_client) (Some "unit-test")
      (Fixtures.body "GEMBA-DA") Fixtures.service 7%N 400%Z tt Fixtures.table
    = (Raise (ValueError msg), tt, (Fixtures.table ++ [row])%list, calls) /\
    TranslationScore.score row = Infinite false /\
    status_code (serve_get_scores None None None (Fixtures.table ++ [row])%list) = 500%Z /\
    status_code (serve_get_scores None (Some (Finite 100)) None
                   (Fixtures.table ++ [row])%list) = 200%Z.
Proof. vm_compute. eexists _, _, _. repeat split. Qed.

Lemma post_score_appends_only_witness :
  exists row,
    snd (fst (serve_post_score (client := Samples.overflowing_client) (Some "unit-test")
                (Fixtures.body "GEMBA-DA") Fixtures.service 7%N 400%Z tt Fixtures.table))
    = (Fixtures.table ++ [row])%list /\
    TranslationScore.id row = 7%N /\
    row_compliant row = false.
Proof.
  destruct overflowing_post as (msg & row & calls & E & _).
  destruct (post_score_appends_only (client := Samples.overflowing_client)
              (serializer := Fixtures.serializer) Fixtures.service
              _ _ _ _ _ _ _ _ _ _ E)
    as [Hsame | (row' & Hdb & Hid & Hc & _)].
  - exfalso. apply (f_equal (@length _)) in Hsame.
    rewrite length_app in Hsame. simpl in Hsame. lia.
  - exists row'. rewrite E. simpl. repeat split; assumption.
Defined.

Lemma fake_post_scores :
  exists answers s' db',
    post_scores (client := FakeLLMClient.client) Fixtures.service
      Samples.requests FakeLLMClient.init [] = (answers, s', db') /\
    Forall no_server_error answers.
Proof.
  vm_compute. eexists _, _, _. split; [reflexivity|].
  repeat constructor; discriminate.
Qed.

Lemma listing_after_posts_returns_witness :
  exists answers s' db' recs,
    post_scores (client := FakeLLMClient.client) Fixtures.service
      Samples.requests FakeLLMClient.init [] = (answers, s', db') /\
    serve_get_scores None None None db' = Ok recs.
Proof.
  destruct fake_post_scores as (answers & s' & db' & E & Hans).
  destruct (listing_after_posts_returns (client := FakeLLMClient.client)
              (serializer := Fixtures.serializer) Fixtures.service
              Samples.requests FakeLLMClient.init s' [] db' answers None None None E)
    as (recs & _ & _ & _ & Hserve).
  - constructor.
  - split; [|split]; intros x H; discriminate H.
  - exists answers, s', db', recs. split; [exact E|].
    apply Hserve; [constructor | exact Hans].
Defined.

Lemma posted_row_is_listed_first_witness :
  exists rec recs,
    get_scores (Some 2%Z) None (Some "widget-a")
      (snd (fst (post_score (client := FakeLLMClient.client) (Some "  widget-a ")
                   (Fixtures.body "GEMBA-DA") Fixtures.service 7%N 400%Z
                   FakeLLMClient.init Fixtures.table)))
    = Ok (rec :: recs) /\
    TranslationScoreRecord.id rec = 7%N /\
    TranslationScoreRecord.created_at rec = 400%Z.
Proof.
  destruct fake_post_score_on_table as (resp & s' & db' & calls & E).
  destruct (posted_row_is_listed_first (client := FakeLLMClient.client)
              (serializer := Fixtures.serializer) Fixtures.service
              _ _ _ _ _ _ _ _ _ _ (Some 2%Z) None (Some "widget-a") E)
    as (rec & recs & Hg & Hrid & _ & Hc & _).
  - exact fixture_table_valid.
  - intros r [<- | [<- | [<- | []]]]; reflexivity.
  - split; [|split].
    + intros n [= <-]. lia.
    + intros th H. discriminate H.
    + intros a [= <-]. discriminate.
  - discriminate.
  - intros a [= <-]. exists "  widget-a ". split; reflexivity.
  - exists rec, recs. rewrite E. simpl. repeat split; [exact Hg | | exact Hc].
    rewrite Hrid. vm_compute in E. now injection E as <- _ _ _.
Defined.

Lemma other_applications_unaffected_witness :
  get_scores None None (Some "ui-test")
    (snd (fst (post_score (client := FakeLLMClient.client) (Some "  widget-a ")
                 (Fixtures.body "GEMBA-DA") Fixtures.service 7%N 400%Z
                 FakeLLMClient.init Fixtures.table)))
  = get_scores None None (Some "ui-test") Fixtures.table.
Proof.
  destruct (post_score (client := FakeLLMClient.client) (Some "  widget-a ")
              (Fixtures.body "GEMBA-DA") Fixtures.service 7%N 400%Z
              FakeLLMClient.init Fixtures.table) as [[[res s'] db'] calls] eqn:E.
  apply (other_applications_unaffected (client := FakeLLMClient.client)
           (serializer := Fixtures.serializer) Fixtures.service
           _ _ _ _ _ _ _ _ _ _ None None "ui-test" E); discriminate.
Defined.

Lemma own_application_count_grows_witness :
  length (filter (row_selected None (Some "widget-a"))
            (snd (fst (post_score (client := FakeLLMClient.client) (Some "  widget-a ")
                         (Fixtures.body "GEMBA-DA") Fixtures.service 7%N 400%Z
                         FakeLLMClient.init Fixtures.table))))
  = 1.
Proof.
  destruct fake_post_score_on_table as (resp & s' & db' & calls & E).
  rewrite E.
  exact (own_application_count_grows (client := FakeLLMClient.client)
           (serializer := Fixtures.serializer) Fixtures.service
           _ _ _ _ _ _ _ _ _ _ E).
Defined.

Lemma fixture_listing :
  exists recs, list_scores 3 None None Fixtures.table = Ok recs.
Proof. vm_compute. eexists. reflexivity. Qed.

Lemma smaller_limit_is_prefix_witness :
  exists recs2,
    list_scores 3 None None Fixtures.table = Ok recs2 /\
    list_scores 1 None None Fixtures.table = Ok (firstn 1 recs2).
Proof.
  destruct fixture_listing as (recs2 & E). exists recs2. split; [exact E|].
  apply (smaller_limit_is_prefix 1 3 None None Fixtures.table recs2); [lia | exact E].
Defined.

Lemma list_scores_returns_iff_methods_known_witness :
  exists msg,
    list_scores 25 None None [Fixtures.high; Samples.unreadable] = Raise (ValueError msg).
Proof.
  destruct (list_scores_returns_iff_methods_known 25 None None
              [Fixtures.high; Samples.unreadable]) as [Hiff Herr].
  destruct (list_scores 25 None None [Fixtures.high; Samples.unreadable])
    as [recs | e] eqn:E.
  - exfalso. assert (H : Forall stored_method_valid
                           (execute 25 None None [Fixtures.high; Samples.unreadable]))
      by (apply Hiff; eauto).
    apply Forall_inv_tail, Forall_inv in H. destruct H as [m H].
    destruct m; discriminate H.
  - destruct (Herr e eq_refl) as [msg ->]. eauto.
Defined.

Lemma scoring_method_round_trip_witness :
  "GEMBA-ESA" = value GEMBA_ESA.
Proof.
  apply (proj1 (proj2 scoring_method_round_trip) "GEMBA-ESA" GEMBA_ESA). reflexivity.
Defined.

Lemma validate_characterised_witness :
  validate Samples.padded_body
  = Ok (ScoreRequest.Build "English" "German" "Hello" "Hallo" (Member GEMBA_DA)) /\
  validate (body_of (ScoreRequest.Build "English" "German" "Hello" "Hallo"
                       (Member GEMBA_DA)))
  = Ok (ScoreRequest.Build "English" "German" "Hello" "Hallo" (Member GEMBA_DA)).
Proof.
  split; [reflexivity|].
  apply (proj2 (proj2 (validate_characterised Samples.padded_body))). reflexivity.
Defined.

Lemma require_app_id_idempotent_witness :
  "widget-a" <> "" /\ strip "widget-a" = "widget-a" /\
  require_app_id (Some "widget-a") = Ok "widget-a".
Proof. apply (require_app_id_idempotent "  widget-a " "widget-a"). reflexivity. Defined.

Lemma azure_complete_text_witness :
  strip "87" = "87" /\
  exists response choice rest,
    OpenAI.create (Service := Samples.padding_service) tt
      (AzureOpenAIClient._deployment Samples.wrapper) [] (Finite 0)
    = (OpenAI.Returned response, tt) /\
    OpenAI.choices response = choice :: rest /\
    "87" = strip (match OpenAI.content (OpenAI.message choice) with
                  | Some c => c
                  | None => ""
                  end).
Proof.
  apply (proj1 (azure_complete_text (service := Samples.padding_service)
                  Samples.wrapper tt tt []) "87").
  reflexivity.
Defined.

Lemma completion_without_number_is_500_witness :
  exists prompt,
    score_translation
      (client := AzureOpenAIClient.protocol (service := Samples.silent_service)
                   Samples.wrapper)
      (Fixtures.request (Member GEMBA_DA)) "unit-test" Fixtures.service 1%N 0%Z tt
      Fixtures.table
    = (Raise (HTTPException 500 "Could not parse numeric score from LLM response"),
       tt, Fixtures.table, [CompleteCall [ScoringService.user prompt]]).
Proof.
  destruct (request_template_carries _ (Fixtures.request (Member GEMBA_DA))
              gemba_da_prompt_fields) as (p & Hp & _).
  exists p.
  apply (completion_without_number_is_500 (service := Samples.silent_service)
           (serializer := Fixtures.serializer) Samples.wrapper Fixtures.service
           (Fixtures.request (Member GEMBA_DA)) "unit-test" p 1%N 0%Z tt tt
           Fixtures.table _ _ [] eq_refl Hp eq_refl eq_refl).
  intros c H. discriminate H.
Defined.

Lemma api_error_leaves_handler_unwrapped_witness :
  exists call,
    score_translation
      (client := AzureOpenAIClient.protocol (service := Samples.failing_service)
                   Samples.wrapper)
      (Fixtures.request (Member GEMBA_MQM)) "unit-test" Fixtures.service 1%N 0%Z tt
      Fixtures.table
    = (Raise (LLMClientError "quota exceeded"), tt, Fixtures.table, [call]).
Proof.
  apply (api_error_leaves_handler_unwrapped (service := Samples.failing_service)
           (serializer := Fixtures.serializer) Samples.wrapper Fixtures.service
           (Fixtures.request (Member GEMBA_MQM)) GEMBA_MQM "unit-test"
           "quota exceeded" 1%N 0%Z tt tt Fixtures.table eq_refl);
    reflexivity.
Defined.

Lemma llm_client_built_once_witness :
  get_llm_clients (Raise (ValueError "no environment"))
    [Some Samples.settings; Some Samples.other_settings] Process.start
  = [Ok (AzureOpenAIClient.new Samples.settings);
     Ok (AzureOpenAIClient.new Samples.settings)].
Proof.
  apply (llm_client_built_once (Raise (ValueError "no environment"))
           Samples.settings [Samples.other_settings] Process.start).
  reflexivity.
Defined.

Lemma database_singleton_until_reset_witness :
  get_databases (Raise (ValueError "no environment")) Samples.engine_error
    [Some Samples.settings; Some Samples.other_settings] Process.start
  = [Ok (Database.Build "sqlite+aiosqlite:///./.data/dev.db");
     Ok (Database.Build "sqlite+aiosqlite:///./.data/dev.db")].
Proof.
  apply (proj1 (database_singleton_until_reset (Raise (ValueError "no environment"))
                  Samples.engine_error Samples.settings [Samples.other_settings]
                  Process.start eq_refl)).
  reflexivity.
Defined.

Lemma fake_log_matches_calls_witness :
  snd (fst (run (client := FakeLLMClient.client)
              (ScoringService.score Fixtures.service (Fixtures.request (Member GEMBA_ESA)))
              FakeLLMClient.init))
  = (FakeLLMClient.init
     ++ logged (snd (run (client := FakeLLMClient.client)
                       (ScoringService.score Fixtures.service
                          (Fixtures.request (Member GEMBA_ESA)))
                       FakeLLMClient.init)))%list.
Proof.
  destruct (run (client := FakeLLMClient.client)
              (ScoringService.score Fixtures.service (Fixtures.request (Member GEMBA_ESA)))
              FakeLLMClient.init) as [[res s'] calls] eqn:E.
  exact (fake_log_matches_calls _ _ _ _ _ E).
Defined.
